(** * build_npdm: the NPDM descriptor writer

    A shallow embedding of [src/build_npdm.py].  The script turns a decoded
    JSON configuration into the bytes of an NPDM file: a META header, an ACID
    region and an ACI0 region, the last two embedding a service access table
    and a kernel capability table.

    Python integers are [Z]; a byte is a [Z] in [0, 256); a byte string and a
    [bytearray] are [list Z]; a [str] is a [string] whose characters are code
    points below 256; a JSON object is an association list in insertion order.
    A call of [abort] (message on stderr, [sys.exit(1)]) and an uncaught Python
    exception are the two ways a run fails; both are results of the model.
    The argument parser, [json.load], the file written by [save] and the line
    that [write_acid] prints on stdout are outside the model: [main] takes the
    decoded configuration and returns the bytes handed to [save]. *)

From Stdlib Require Import ZArith List String Ascii Bool Lia.
From Stdlib Require DecimalString HexadecimalString.
Import ListNotations.

Open Scope string_scope.
Open Scope list_scope.
Open Scope Z_scope.

(** ** Failures and the error monad *)

(** The exceptions the script can raise without catching them. *)
Inductive pyexc : Type :=
| TypeError
| NameError
| ValueError
| KeyError
| IndexError
| ZeroDivisionError
| UnicodeEncodeError
| StructError.

(** [Abort msg] is [abort(msg)]; [Raised e] is an uncaught exception. *)
Inductive failure : Type :=
| Abort (msg : string)
| Raised (exc : pyexc).

Inductive res (A : Type) : Type :=
| Ok (a : A)
| Err (e : failure).

Arguments Ok {A} a.
Arguments Err {A} e.

Definition rbind {A B : Type} (m : res A) (f : A -> res B) : res B :=
  match m with
  | Ok a => f a
  | Err e => Err e
  end.

Declare Scope res_scope.
Delimit Scope res_scope with res.
Notation "x <- m ;; k" := (rbind m (fun x => k))
  (at level 61, m at next level, right associativity) : res_scope.
Notation "' pat <- m ;; k" := (rbind m (fun x => match x with pat => k end))
  (at level 61, pat pattern, m at next level, right associativity) : res_scope.
Notation "m ;;; k" := (rbind m (fun _ => k))
  (at level 61, right associativity) : res_scope.
Open Scope res_scope.

(** [abort_unless(cond, msg)]. *)
Definition abort_unless (cond : bool) (msg : string) : res unit :=
  if cond then Ok tt else Err (Abort msg).

(** ** JSON values as [json.load] returns them *)

#[warnings="-register-all"]
Inductive json : Type :=
| JNull
| JBool (b : bool)
| JInt (n : Z)
| JFloat (literal : string)
| JStr (s : string)
| JList (items : list json)
| JDict (members : list (string * json)).

(** [isinstance(x, int)]: [bool] is a subclass of [int], so [True] and
    [False] pass and count as 1 and 0. *)
Definition as_int (x : json) : option Z :=
  match x with
  | JInt n => Some n
  | JBool b => Some (if b then 1 else 0)
  | _ => None
  end.

Definition len {A : Type} (l : list A) : Z := Z.of_nat (List.length l).

Definition strlen (s : string) : Z := Z.of_nat (String.length s).

(** *** [int(s, 16)] *)

(** The white space [int] skips around a literal: tab to carriage return,
    the space, and the two spaces of Latin-1 (NEL and the no-break space).
    The separators 28..31 are not skipped: a literal with one of them is a
    [ValueError]. *)
Definition is_space (c : ascii) : bool :=
  let n := Z.of_N (N_of_ascii c) in
  ((9 <=? n) && (n <=? 13)) || (n =? 32) || (n =? 133) || (n =? 160).

Definition hex_digit (c : ascii) : option Z :=
  let n := Z.of_N (N_of_ascii c) in
  if (48 <=? n) && (n <=? 57) then Some (n - 48)
  else if (97 <=? n) && (n <=? 102) then Some (n - 87)
  else if (65 <=? n) && (n <=? 70) then Some (n - 55)
  else None.

Fixpoint lstrip (s : string) : string :=
  match s with
  | String c r => if is_space c then lstrip r else s
  | EmptyString => EmptyString
  end.

Fixpoint all_space (s : string) : bool :=
  match s with
  | String c r => is_space c && all_space r
  | EmptyString => true
  end.

(** The digits of the literal: hexadecimal digits with single underscores
    between them, then only white space.  [seen] is whether a digit was read,
    [us] whether the previous character was an underscore. *)
Fixpoint scan_digits (s : string) (acc : Z) (seen us : bool) : option Z :=
  match s with
  | EmptyString => if seen && negb us then Some acc else None
  | String c r =>
      if Ascii.eqb c "_" then
        if us || negb seen then None else scan_digits r acc seen true
      else
        match hex_digit c with
        | Some d => scan_digits r (16 * acc + d) true false
        | None => if seen && negb us && all_space s then Some acc else None
        end
  end.

Definition skip_prefix (s : string) : string :=
  match s with
  | String "0" (String x r) =>
      if Ascii.eqb x "x" || Ascii.eqb x "X" then
        match r with
        | String "_" r' => r'
        | _ => r
        end
      else s
  | _ => s
  end.

Definition int16 (s : string) : res Z :=
  let s := lstrip s in
  let '(neg, s) :=
    match s with
    | String "-" r => (true, r)
    | String "+" r => (false, r)
    | _ => (false, s)
    end in
  match skip_prefix s with
  | String "_" _ => Err (Raised ValueError)
  | body =>
      match scan_digits body 0 false false with
      | Some n => Ok (if neg then - n else n)
      | None => Err (Raised ValueError)
      end
  end.

(** A value that must be an integer or a hexadecimal string: the test
    [isinstance(data, int)], then [isinstance(data, str)] with [int(data, 16)],
    then a call of [abort] with two arguments, which is a [TypeError]. *)
Definition int_of_json (data : json) : res Z :=
  match as_int data with
  | Some n => Ok n
  | None =>
      match data with
      | JStr s => int16 s
      | _ => Err (Raised TypeError)
      end
  end.

(** [format(n, "#x")]. *)
Definition hex (n : Z) : string :=
  ((if (n <? 0)%Z then "-0x" else "0x")
   ++ HexadecimalString.NilZero.string_of_uint (N.to_hex_uint (Z.to_N (Z.abs n))))%string.

(** ** The JSON readers *)

Fixpoint assoc (key : string) (d : list (string * json)) : option json :=
  match d with
  | [] => None
  | (k, v) :: rest => if String.eqb k key then Some v else assoc key rest
  end.

Definition is_substring (key s : string) : bool :=
  match index 0 key s with
  | Some _ => true
  | None => false
  end.

(** [key in json]: membership in a dict's keys, in a list's elements, or a
    substring test on a str; a [TypeError] on anything else. *)
Definition contains (j : json) (key : string) : res bool :=
  match j with
  | JDict d => Ok (match assoc key d with Some _ => true | None => false end)
  | JList l =>
      Ok (existsb (fun x => match x with
                            | JStr s => String.eqb s key
                            | _ => false
                            end) l)
  | JStr s => Ok (is_substring key s)
  | _ => Err (Raised TypeError)
  end.

(** [json[key]] with a str [key]: only a dict can be indexed this way. *)
Definition getitem (j : json) (key : string) : res json :=
  match j with
  | JDict d =>
      match assoc key d with
      | Some v => Ok v
      | None => Err (Raised KeyError)
      end
  | _ => Err (Raised TypeError)
  end.

(** The loop [for key in keys: if key in json: return (key, json[key])]. *)
Fixpoint find_key (j : json) (keys : list string)
  : res (option (string * json)) :=
  match keys with
  | [] => Ok None
  | key :: rest =>
      found <- contains j key;;
      if found then v <- getitem j key;; Ok (Some (key, v))
      else find_key j rest
  end.

(** [key[0]] after the loop: [key] is the last key tried, and its first
    character is what the source returns and prints. *)
Definition key0 (keys : list string) : res string :=
  match rev keys with
  | [] => Err (Raised NameError)
  | EmptyString :: _ => Err (Raised IndexError)
  | String c _ :: _ => Ok (String c EmptyString)
  end.

(** [json_read_value(json, keys, default)]; a str [keys] is the list of that
    one key, and [default = None] is [None] here. *)
Definition json_read_value (j : json) (keys : list string)
    (default : option json) : res (string * json) :=
  found <- find_key j keys;;
  match found with
  | Some kv => Ok kv
  | None =>
      match default with
      | Some d => k <- key0 keys;; Ok (k, d)
      | None =>
          k <- key0 keys;;
          Err (Abort ("couldn't find key `" ++ k ++ "`")%string)
      end
  end.

Definition json_read_dict (j : json) (keys : list string)
    (default : option json) : res (list (string * json)) :=
  '(key, data) <- json_read_value j keys default;;
  match data with
  | JDict d => Ok d
  | _ => Err (Abort ("`" ++ key ++ "` must be a dict")%string)
  end.

Definition json_read_list (j : json) (keys : list string)
    (default : option json) : res (list json) :=
  '(key, data) <- json_read_value j keys default;;
  match data with
  | JList l => Ok l
  | _ => Err (Abort ("`" ++ key ++ "` must be a list")%string)
  end.

Definition json_read_bool (j : json) (keys : list string)
    (default : option json) : res bool :=
  '(key, data) <- json_read_value j keys default;;
  match data with
  | JBool b => Ok b
  | _ => Err (Abort ("`" ++ key ++ "` must be a boolean")%string)
  end.

(** [format(n)] of a non-negative integer, for the message of
    [json_read_str]. *)
Definition dec (n : Z) : string :=
  ((if (n <? 0)%Z then "-" else "")
   ++ DecimalString.NilZero.string_of_uint (N.to_uint (Z.to_N (Z.abs n))))%string.

Definition json_read_str (j : json) (keys : list string) (max_len : Z)
    (default : option json) : res string :=
  '(key, data) <- json_read_value j keys default;;
  match data with
  | JStr s =>
      abort_unless ((max_len <=? 0) || (strlen s <=? max_len))
        ("string `" ++ key ++ "` must be less than " ++ dec max_len
         ++ " in length")%string;;;
      Ok s
  | _ => Err (Abort ("`" ++ key ++ "` must be a string")%string)
  end.

Definition json_read_int (j : json) (keys : list string) (min_val max_val : Z)
    (default : option json) : res Z :=
  '(key, data) <- json_read_value j keys default;;
  val <- int_of_json data;;
  abort_unless ((min_val <=? val) && (val <=? max_val))
    ("`" ++ key ++ "` must be between " ++ hex min_val ++ " and "
     ++ hex max_val)%string;;;
  Ok val.

Definition json_read_u64 (j : json) (keys : list string)
    (default : option json) : res Z :=
  json_read_int j keys 0 (Z.shiftl 1 64 - 1) default.

Definition json_read_u32 (j : json) (keys : list string)
    (default : option json) : res Z :=
  json_read_int j keys 0 (Z.shiftl 1 32 - 1) default.

Definition json_read_u16 (j : json) (keys : list string)
    (default : option json) : res Z :=
  json_read_int j keys 0 (Z.shiftl 1 16 - 1) default.

Definition json_read_u8 (j : json) (keys : list string)
    (default : option json) : res Z :=
  json_read_int j keys 0 (Z.shiftl 1 8 - 1) default.

(** ** BinaryWriter *)

(** Every writer of the script is created as [BinaryWriter()], so the
    buffer starts empty and the byte order is always little. *)
Record BinaryWriter : Type := mkWriter {
  stream : list Z;
  position : Z
}.

Definition new_writer : BinaryWriter := mkWriter [] 0.

(** [bytearray(n)] and [b"\x00" * n]: [n] zero bytes.  The script only asks
    for a positive [n]. *)
Definition zeros (n : Z) : list Z := repeat 0 (Z.to_nat n).

Definition _fill_bytes (writer : BinaryWriter) (offset : Z) (relative : bool)
  : BinaryWriter :=
  let bytes_to_add := offset - len (stream writer) in
  let bytes_to_add :=
    if relative then bytes_to_add + position writer else bytes_to_add in
  if 0 <? bytes_to_add
  then mkWriter (stream writer ++ zeros bytes_to_add) (position writer)
  else writer.

Definition seek (writer : BinaryWriter) (offset : Z) (relative : bool)
  : BinaryWriter :=
  let writer :=
    if relative then mkWriter (stream writer) (position writer + offset)
    else mkWriter (stream writer) offset in
  _fill_bytes writer 0 true.

Definition seek_rel (writer : BinaryWriter) (offset : Z) : BinaryWriter :=
  seek writer offset true.

Definition align (writer : BinaryWriter) (alignment : Z) : res BinaryWriter :=
  let pos := position writer in
  if alignment =? 0 then Err (Raised ZeroDivisionError)
  else
    let delta := ((- pos) mod alignment + alignment) mod alignment in
    Ok (seek writer delta true).

Fixpoint list_set (s : list Z) (i : nat) (b : Z) : list Z :=
  match s, i with
  | [], _ => []
  | _ :: t, O => b :: t
  | x :: t, S j => x :: list_set t j b
  end.

(** [stream[i] = b] on a bytearray: a negative index counts from the end,
    an index outside the buffer is an [IndexError]. *)
Definition setitem (s : list Z) (i : Z) (b : Z) : res (list Z) :=
  let n := len s in
  if (0 <=? i) && (i <? n) then Ok (list_set s (Z.to_nat i) b)
  else if (- n <=? i) && (i <? 0) then Ok (list_set s (Z.to_nat (i + n)) b)
  else Err (Raised IndexError).

(** The loop of [write]: one assignment and one step of the cursor a byte. *)
Fixpoint write_loop (writer : BinaryWriter) (raw : list Z) : res BinaryWriter :=
  match raw with
  | [] => Ok writer
  | byte :: rest =>
      s <- setitem (stream writer) (position writer) byte;;
      write_loop (mkWriter s (position writer + 1)) rest
  end.

Definition write (writer : BinaryWriter) (raw : list Z) : res BinaryWriter :=
  write_loop (_fill_bytes writer (len raw) true) raw.

(** [struct.pack("<" + fmt, value)] for the unsigned formats the script
    uses: [size] bytes, least significant first; a value that does not fit
    is a [struct.error]. *)
Fixpoint le_bytes (size : nat) (value : Z) : list Z :=
  match size with
  | O => []
  | S k => value mod 256 :: le_bytes k (value / 256)
  end.

Definition pack (size : nat) (value : Z) : res (list Z) :=
  if (0 <=? value) && (value <? 2 ^ (8 * Z.of_nat size))
  then Ok (le_bytes size value)
  else Err (Raised StructError).

Definition _write (writer : BinaryWriter) (size : nat) (value : Z)
  : res BinaryWriter :=
  raw <- pack size value;;
  write writer raw.

Definition write_u8 (writer : BinaryWriter) (value : Z) := _write writer 1 value.
Definition write_u16 (writer : BinaryWriter) (value : Z) := _write writer 2 value.
Definition write_u32 (writer : BinaryWriter) (value : Z) := _write writer 4 value.
Definition write_u64 (writer : BinaryWriter) (value : Z) := _write writer 8 value.

Definition write_bytes (writer : BinaryWriter) (value : list Z)
  : res BinaryWriter :=
  write writer value.

Definition write_sub (writer other : BinaryWriter) : res BinaryWriter :=
  write_bytes writer (stream other).

(** [value.encode("ascii")]. *)
Fixpoint encode_ascii (value : string) : res (list Z) :=
  match value with
  | EmptyString => Ok []
  | String c r =>
      let n := Z.of_N (N_of_ascii c) in
      if n <? 128 then (bs <- encode_ascii r;; Ok (n :: bs))
      else Err (Raised UnicodeEncodeError)
  end.

(** ["{:\0<{max_len}}".format(value, max_len=max_len)]: [value] padded on the
    right with NUL characters up to [max_len] characters. *)
Fixpoint nuls (n : nat) : string :=
  match n with
  | O => EmptyString
  | S k => String zero (nuls k)
  end.

Definition pad_nul (value : string) (max_len : Z) : string :=
  (value ++ nuls (Z.to_nat (max_len - strlen value)))%string.

Definition write_string (writer : BinaryWriter) (value : string) (max_len : Z)
  : res BinaryWriter :=
  if 0 <? max_len then
    let value := substring 0 (Z.to_nat max_len) value in
    raw <- encode_ascii (pad_nul value max_len);;
    write writer raw
  else
    raw <- encode_ascii value;;
    write writer raw.

(** ** Loops *)

(** [for x in l: body], threading the variables the body assigns. *)
Fixpoint for_each {S A : Type} (body : S -> A -> res S) (s : S) (l : list A)
  : res S :=
  match l with
  | [] => Ok s
  | x :: rest => s' <- body s x;; for_each body s' rest
  end.

(** [for i, x in enumerate(l): body], counting from [i]. *)
Fixpoint for_enumerate {S A : Type} (body : S -> Z -> A -> res S) (i : Z)
    (s : S) (l : list A) : res S :=
  match l with
  | [] => Ok s
  | x :: rest => s' <- body s i x;; for_enumerate body (i + 1) s' rest
  end.

(** ** The service access table: [write_sac] *)

Definition services_len_msg : string :=
  "services must be between 1 and 8 chars long".

(** Body of the loop over [service_host]. *)
Definition sac_host_entry (writer : BinaryWriter) (service : json)
  : res BinaryWriter :=
  match service with
  | JStr service =>
      abort_unless ((1 <=? strlen service) && (strlen service <=? 8))
        services_len_msg;;;
      writer <- write_u8 writer (Z.lor 0x80 (strlen service - 1));;
      write_string writer service (-1)
  | _ => Err (Abort "services must be strings")
  end.

(** Body of the loop over [service_access]. *)
Definition sac_access_entry (writer : BinaryWriter) (service : json)
  : res BinaryWriter :=
  match service with
  | JStr service =>
      abort_unless ((1 <=? strlen service) && (strlen service <=? 8))
        services_len_msg;;;
      writer <- write_u8 writer (strlen service - 1);;
      write_string writer service (-1)
  | _ => Err (Abort "services must be strings")
  end.

Definition write_sac (contents : json) : res BinaryWriter :=
  let writer := new_writer in
  service_host <- json_read_list contents ["service_host"] None;;
  service_access <- json_read_list contents ["service_access"] None;;
  writer <- for_each sac_host_entry writer service_host;;
  writer <- for_each sac_access_entry writer service_access;;
  Ok writer.

(** ** The kernel capability table: [write_kc] *)

(** The variables of [write_kc] that live across iterations of its loop:
    the writer, and [data] and [val], which only the [syscalls] branch
    assigns and which the [irq_pair] branch reads.  [None] is a variable
    that was never assigned. *)
Record kc_locals : Type := mkLocals {
  kc_writer : BinaryWriter;
  kc_data : option json;
  kc_val : option Z
}.

Definition with_writer (st : kc_locals) (writer : BinaryWriter) : kc_locals :=
  mkLocals writer (kc_data st) (kc_val st).

Definition kc_kernel_flags (st : kc_locals) (cap : json) : res kc_locals :=
  value <- json_read_dict cap ["value"] None;;
  let cap := Z.shiftl 1 3 - 1 in
  v <- json_read_int (JDict value) ["highest_thread_priority"] 0 63 None;;
  let cap := Z.lor cap (Z.shiftl v 4) in
  v <- json_read_int (JDict value) ["lowest_thread_priority"] 0 63 None;;
  let cap := Z.lor cap (Z.shiftl v 10) in
  v <- json_read_u8 (JDict value) ["lowest_cpu_id"] None;;
  let cap := Z.lor cap (Z.shiftl v 16) in
  v <- json_read_u8 (JDict value) ["highest_cpu_id"] None;;
  let cap := Z.lor cap (Z.shiftl v 24) in
  writer <- write_u32 (kc_writer st) cap;;
  Ok (with_writer st writer).

(** [groups[i] |= bit]. *)
Definition groups_or (groups : list Z) (i : Z) (bit : Z) : res (list Z) :=
  setitem groups i (Z.lor (nth (Z.to_nat i) groups 0) bit).

(** Body of [for name, data in value.items()]; it assigns [data] and
    [val]. *)
Definition syscall_item (acc : list Z * kc_locals) (item : string * json)
  : res (list Z * kc_locals) :=
  let '(groups, st) := acc in
  let data := snd item in
  val <- int_of_json data;;
  let st := mkLocals (kc_writer st) (Some data) (Some val) in
  abort_unless ((0 <=? val) && (val <=? 0xbf))
    "syscall values must be between 0 and 0xbf";;;
  groups <- groups_or groups (val / 24) (Z.shiftl 1 (val mod 24));;
  Ok (groups, st).

(** Body of [for idx, group in enumerate(groups)]. *)
Definition syscall_group (writer : BinaryWriter) (idx : Z) (group : Z)
  : res BinaryWriter :=
  if group =? 0 then Ok writer
  else
    let cap := Z.shiftl 1 4 - 1 in
    let cap := Z.lor cap (Z.shiftl group 5) in
    let cap := Z.lor cap (Z.shiftl idx 29) in
    write_u32 writer cap.

Definition kc_syscalls (st : kc_locals) (cap : json) : res kc_locals :=
  value <- json_read_dict cap ["value"] None;;
  let groups := repeat 0 8 in
  '(groups, st) <- for_each syscall_item (groups, st) value;;
  writer <- for_enumerate syscall_group 0 (kc_writer st) groups;;
  Ok (with_writer st writer).

Definition kc_map (st : kc_locals) (cap : json) : res kc_locals :=
  value <- json_read_dict cap ["value"] None;;
  let cap := Z.shiftl 1 6 - 1 in
  v <- json_read_int (JDict value) ["address"] 0 (Z.shiftl 1 24 - 1) None;;
  let cap := Z.lor cap (Z.shiftl v 7) in
  b <- json_read_bool (JDict value) ["is_ro"] None;;
  let cap := Z.lor cap (if b then Z.shiftl 1 31 else 0) in
  writer <- write_u32 (kc_writer st) cap;;
  let cap := Z.shiftl 1 6 - 1 in
  v <- json_read_int (JDict value) ["size"] 0 (Z.shiftl 1 20 - 1) None;;
  let cap := Z.lor cap (Z.shiftl v 7) in
  b <- json_read_bool (JDict value) ["is_io"] None;;
  let cap := Z.lor cap (if b then Z.shiftl 1 31 else 0) in
  writer <- write_u32 writer cap;;
  Ok (with_writer st writer).

(** The source rebinds [cap] to the tag before it reads the entry, so the
    reader is handed the integer 127 and not the entry. *)
Definition kc_map_page (st : kc_locals) (cap : json) : res kc_locals :=
  let cap := Z.shiftl 1 7 - 1 in
  v <- json_read_int (JInt cap) ["value"] 0 (Z.shiftl 1 24 - 1) None;;
  let cap := Z.lor cap (Z.shiftl v 8) in
  writer <- write_u32 (kc_writer st) cap;;
  Ok (with_writer st writer).

(** Body of [for i, region in enumerate(value)], accumulating [cap]. *)
Definition map_region_item (cap : Z) (i : Z) (region : json) : res Z :=
  match region with
  | JDict _ =>
      v <- json_read_int region ["region_type"] 0 3 None;;
      let cap := Z.lor cap (Z.shiftl v (11 + 7 * i)) in
      b <- json_read_bool region ["is_ro"] None;;
      Ok (Z.lor cap (if b then Z.shiftl 1 (17 + 7 * i) else 0))
  | _ => Err (Abort "`map_region` entries must be dicts")
  end.

Definition kc_map_region (st : kc_locals) (cap : json) : res kc_locals :=
  value <- json_read_list cap ["value"] None;;
  abort_unless (len value <=? 3)
    "`map_region` can have a maximum of 3 regions";;;
  let cap := Z.shiftl 1 10 - 1 in
  cap <- for_enumerate map_region_item 0 cap value;;
  writer <- write_u32 (kc_writer st) cap;;
  Ok (with_writer st writer).

(** Body of [for i, irq in enumerate(value)].  A slot that is not [None]
    is never looked at: the value comes from [data] and the range check is
    made on [val], the variables the last [syscalls] item left behind, and
    reading either before any assignment is an [UnboundLocalError] (a
    [NameError]). *)
Definition irq_pair_item (st : kc_locals) (cap : Z) (i : Z) (irq : json)
  : res Z :=
  irq_value <-
    match irq with
    | JNull => Ok 0x3ff
    | _ =>
        data <- match kc_data st with
                | Some data => Ok data
                | None => Err (Raised NameError)
                end;;
        irq_value <- int_of_json data;;
        val <- match kc_val st with
               | Some val => Ok val
               | None => Err (Raised NameError)
               end;;
        abort_unless ((0 <=? val) && (val <=? Z.shiftl 1 10 - 1))
          ("`irq_pair` values must be between " ++ hex 0 ++ " and "
           ++ hex (Z.shiftl 1 10 - 1))%string;;;
        Ok irq_value
    end;;
  Ok (Z.lor cap (Z.shiftl irq_value (11 + i * 10))).

Definition kc_irq_pair (st : kc_locals) (cap : json) : res kc_locals :=
  value <- json_read_list cap ["value"] None;;
  abort_unless (len value =? 2) "`irq_pair` must contain 2 elements";;;
  let cap := Z.shiftl 1 11 - 1 in
  cap <- for_enumerate (irq_pair_item st) 0 cap value;;
  writer <- write_u32 (kc_writer st) cap;;
  Ok (with_writer st writer).

Definition kc_application_type (st : kc_locals) (cap : json) : res kc_locals :=
  value <- json_read_int cap ["value"] 0 2 (Some (JInt 0));;
  let cap := Z.shiftl 1 13 - 1 in
  let cap := Z.lor cap (Z.shiftl value 14) in
  writer <- write_u32 (kc_writer st) cap;;
  Ok (with_writer st writer).

Definition kc_min_kernel_version (st : kc_locals) (cap : json)
  : res kc_locals :=
  value <- json_read_u16 cap ["value"] None;;
  let cap := Z.shiftl 1 14 - 1 in
  let cap := Z.lor cap (Z.shiftl value 15) in
  writer <- write_u32 (kc_writer st) cap;;
  Ok (with_writer st writer).

Definition kc_handle_table_size (st : kc_locals) (cap : json)
  : res kc_locals :=
  value <- json_read_int cap ["value"] 0 (Z.shiftl 1 10 - 1) None;;
  let cap := Z.shiftl 1 15 - 1 in
  let cap := Z.lor cap (Z.shiftl value 16) in
  writer <- write_u32 (kc_writer st) cap;;
  Ok (with_writer st writer).

Definition debug_flags_msg : string :=
  "only one of `allow_debug`, `force_debug`, or `force_debug_prod` can be set".

Definition kc_debug_flags (st : kc_locals) (cap : json) : res kc_locals :=
  value <- json_read_dict cap ["value"] None;;
  allow_debug <-
    json_read_bool (JDict value) ["allow_debug"] (Some (JBool false));;
  force_debug <-
    json_read_bool (JDict value) ["force_debug"] (Some (JBool false));;
  force_debug_prod <-
    json_read_bool (JDict value) ["force_debug_prod"] (Some (JBool false));;
  abort_unless
    (Z.b2z allow_debug + Z.b2z force_debug + Z.b2z force_debug_prod <=? 1)
    debug_flags_msg;;;
  let cap := Z.shiftl 1 16 - 1 in
  let cap := Z.lor cap (if allow_debug then Z.shiftl 1 17 else 0) in
  let cap := Z.lor cap (if force_debug_prod then Z.shiftl 1 18 else 0) in
  let cap := Z.lor cap (if force_debug then Z.shiftl 1 19 else 0) in
  writer <- write_u32 (kc_writer st) cap;;
  Ok (with_writer st writer).

Definition too_many_msg : string := "too many kernel capabilities (max = 32)".

(** Body of [for cap_idx, cap in enumerate(kernel_caps)]. *)
Definition kc_entry (st : kc_locals) (cap_idx : Z) (cap : json)
  : res kc_locals :=
  abort_unless (match cap with JDict _ => true | _ => false end)
    "kernel capabilities must be dicts";;;
  abort_unless (cap_idx <? 32) too_many_msg;;;
  type_ <- json_read_str cap ["type"] (-1) None;;
  if String.eqb type_ "kernel_flags" then kc_kernel_flags st cap
  else if String.eqb type_ "syscalls" then kc_syscalls st cap
  else if String.eqb type_ "map" then kc_map st cap
  else if String.eqb type_ "map_page" then kc_map_page st cap
  else if String.eqb type_ "map_region" then kc_map_region st cap
  else if String.eqb type_ "irq_pair" then kc_irq_pair st cap
  else if String.eqb type_ "application_type" then kc_application_type st cap
  else if String.eqb type_ "min_kernel_version"
       then kc_min_kernel_version st cap
  else if String.eqb type_ "handle_table_size"
       then kc_handle_table_size st cap
  else if String.eqb type_ "debug_flags" then kc_debug_flags st cap
  else Err (Abort ("unrecognised kernel capability type `" ++ type_ ++ "`")%string).

Definition write_kc (contents : json) : res BinaryWriter :=
  let writer := new_writer in
  kernel_caps <- json_read_list contents ["kernel_capabilities"] None;;
  st <- for_enumerate kc_entry 0 (mkLocals writer None None) kernel_caps;;
  Ok (kc_writer st).

(** ** The ACID region: [write_acid] *)

Definition write_acid (contents : json) (sac_writer kc_writer : BinaryWriter)
  : res BinaryWriter :=
  let writer := new_writer in
  writer <- write_bytes writer (zeros 0x100);;
  writer <- write_bytes writer (zeros 0x100);;
  writer <- write_string writer "ACID" (-1);;
  let writer := seek_rel writer 4 in
  let writer := seek_rel writer 4 in
  let acid_flags := 0 in
  b <- json_read_bool contents ["is_retail"] None;;
  let acid_flags := Z.lor acid_flags (if b then 1 else 0) in
  b <- json_read_bool contents ["unqualified_approval"] (Some (JBool false));;
  let acid_flags := Z.lor acid_flags (if b then 2 else 0) in
  v <- json_read_int contents ["pool_partition"] 0 3 None;;
  let acid_flags := Z.lor acid_flags (Z.shiftl v 2) in
  writer <- write_u32 writer acid_flags;;
  v <- json_read_u64 contents ["program_id_range_min"; "title_id_range_min"]
         None;;
  writer <- write_u64 writer v;;
  v <- json_read_u64 contents ["program_id_range_max"; "title_id_range_max"]
         None;;
  writer <- write_u64 writer v;;
  let writer := seek_rel writer 0x20 in
  (* Filesystem Access Control *)
  fs_access <- json_read_dict contents ["filesystem_access"] None;;
  fs_permissions <- json_read_u64 (JDict fs_access) ["permissions"] None;;
  let fac_offset := position writer in
  writer <- write_u8 writer 1;;
  writer <- write_u8 writer 0;;
  writer <- write_u8 writer 0;;
  let writer := seek writer (fac_offset + 4) false in
  writer <- write_u64 writer fs_permissions;;
  writer <- write_u64 writer 0;;
  writer <- write_u64 writer 0;;
  writer <- write_u64 writer 0;;
  writer <- write_u64 writer 0;;
  let fac_size := position writer - fac_offset in
  (* Service Access Control *)
  writer <- align writer 0x10;;
  let sac_offset := position writer in
  let sac_size := len (stream sac_writer) in
  let writer := seek writer sac_offset false in
  writer <- write_sub writer sac_writer;;
  (* Kernel Capabilities *)
  writer <- align writer 0x10;;
  let kc_offset := position writer in
  let kc_size := len (stream kc_writer) in
  let writer := seek writer kc_offset false in
  writer <- write_sub writer kc_writer;;
  let acid_size := position writer in
  let writer := seek writer 0x204 false in
  writer <- write_u32 writer (acid_size - 0x100);;
  let writer := seek writer 0x220 false in
  writer <- write_u32 writer fac_offset;;
  writer <- write_u32 writer fac_size;;
  writer <- write_u32 writer sac_offset;;
  writer <- write_u32 writer sac_size;;
  writer <- write_u32 writer kc_offset;;
  writer <- write_u32 writer kc_size;;
  Ok writer.

(** ** The ACI0 region: [write_aci] *)

Definition coi_range_msg : string :=
  ("`content_owner_ids` entries must be between 0 and "
   ++ hex (Z.shiftl 1 64 - 1))%string.

(** Body of [for coi in content_owner_ids]. *)
Definition aci_coi_entry (writer : BinaryWriter) (coi : json)
  : res BinaryWriter :=
  val <- int_of_json coi;;
  abort_unless ((0 <=? val) && (val <=? Z.shiftl 1 64 - 1)) coi_range_msg;;;
  write_u64 writer val.

(** Body of [for sdoi in save_data_owner_ids]: the two lists it appends
    to, which are kept here in the order of appending. *)
Definition aci_sdoi_entry (acc : list Z * list Z) (sdoi : json)
  : res (list Z * list Z) :=
  let '(sdoi_accessibilities, sdoi_ids) := acc in
  match sdoi with
  | JDict _ =>
      a <- json_read_int sdoi ["accessibility"] 1 3 None;;
      i <- json_read_u64 sdoi ["id"] None;;
      Ok (sdoi_accessibilities ++ [a], sdoi_ids ++ [i])
  | _ => Err (Abort "`save_data_owner_ids` entries must be dicts")
  end.

Definition write_aci (contents : json) (sac_writer kc_writer : BinaryWriter)
  : res BinaryWriter :=
  let writer := new_writer in
  fs_access <- json_read_dict contents ["filesystem_access"] None;;
  content_owner_ids <-
    json_read_list (JDict fs_access) ["content_owner_ids"] (Some (JList []));;
  save_data_owner_ids <-
    json_read_list (JDict fs_access) ["save_data_owner_ids"]
      (Some (JList []));;
  fs_permissions <- json_read_u64 (JDict fs_access) ["permissions"] None;;
  writer <- write_string writer "ACI0" (-1);;
  let writer := seek_rel writer 0xc in
  v <- json_read_u64 contents ["program_id"; "title_id"] None;;
  writer <- write_u64 writer v;;
  let writer := seek_rel writer 0x8 in
  let writer := seek_rel writer 0x20 in
  (* Filesystem Access Header *)
  let fah_offset := position writer in
  writer <- write_u32 writer 1;;
  writer <- write_u64 writer fs_permissions;;
  let writer := seek_rel writer 0x10 in
  let coi_offset := position writer in
  writer <-
    (if len content_owner_ids =? 0 then Ok writer
     else write_u32 writer (len content_owner_ids));;
  writer <- for_each aci_coi_entry writer content_owner_ids;;
  let coi_size := position writer - coi_offset in
  let sdoi_offset := position writer in
  writer <-
    (if len save_data_owner_ids =? 0 then Ok writer
     else write_u32 writer (len save_data_owner_ids));;
  '(sdoi_accessibilities, sdoi_ids) <-
    for_each aci_sdoi_entry ([], []) save_data_owner_ids;;
  writer <- for_each write_u8 writer sdoi_accessibilities;;
  writer <- align writer 4;;
  writer <- for_each write_u64 writer sdoi_ids;;
  let sdoi_size := position writer - sdoi_offset in
  let fah_size := position writer - fah_offset in
  let writer := seek writer (fah_offset + 0xc) false in
  writer <- write_u32 writer (coi_offset - fah_offset);;
  writer <- write_u32 writer coi_size;;
  writer <- write_u32 writer (sdoi_offset - fah_offset);;
  writer <- write_u32 writer sdoi_size;;
  (* Service Access Control *)
  let writer := seek writer (fah_offset + fah_size) false in
  writer <- align writer 0x10;;
  let sac_offset := position writer in
  writer <- write_sub writer sac_writer;;
  (* Kernel Capabilities *)
  writer <- align writer 0x10;;
  let kc_offset := position writer in
  writer <- write_sub writer kc_writer;;
  let aci_size := position writer in
  let writer := seek writer 0x20 false in
  writer <- write_u32 writer fah_offset;;
  writer <- write_u32 writer fah_size;;
  writer <- write_u32 writer sac_offset;;
  writer <- write_u32 writer (len (stream sac_writer));;
  writer <- write_u32 writer kc_offset;;
  writer <- write_u32 writer (len (stream kc_writer));;
  Ok writer.

(** ** The META header: [write_meta] *)

Definition write_meta (contents : json) : res BinaryWriter :=
  let writer := new_writer in
  writer <- write_string writer "META" (-1);;
  v <- json_read_u32 contents ["signature_key_generation"] (Some (JInt 0));;
  writer <- write_u32 writer v;;
  let writer := seek_rel writer 0x4 in
  let cap := 0 in
  b <- json_read_bool contents ["is_64_bit"] None;;
  let cap := Z.lor cap (if b then 1 else 0) in
  v <- json_read_int contents ["address_space_type"] 0 3 None;;
  let cap := Z.lor cap (Z.shiftl v 1) in
  b <- json_read_bool contents ["optimize_memory_allocation"]
         (Some (JBool false));;
  let cap := Z.lor cap (if b then 16 else 0) in
  b <- json_read_bool contents ["disable_device_address_space_merge"]
         (Some (JBool false));;
  let cap := Z.lor cap (if b then 32 else 0) in
  b <- json_read_bool contents ["enable_alias_region_extra_size"]
         (Some (JBool false));;
  let cap := Z.lor cap (if b then 64 else 0) in
  b <- json_read_bool contents ["prevent_code_reads"] (Some (JBool false));;
  let cap := Z.lor cap (if b then 128 else 0) in
  writer <- write_u8 writer cap;;
  let writer := seek writer 0xe false in
  v <- json_read_int contents ["main_thread_priority"] 0 0x3f None;;
  writer <- write_u8 writer v;;
  v <- json_read_u8 contents ["default_cpu_id"] None;;
  writer <- write_u8 writer v;;
  let writer := seek writer 0x14 false in
  v <- json_read_int contents ["system_resource_size"] 0 0x1fe00000
         (Some (JInt 0));;
  writer <- write_u32 writer v;;
  v <- json_read_u32 contents ["version"] (Some (JInt 0));;
  writer <- write_u32 writer v;;
  main_thread_stack_size <-
    json_read_u32 contents ["main_thread_stack_size"] None;;
  abort_unless (Z.land main_thread_stack_size 0xfff =? 0)
    "`main_thread_stack_size` must be aligned to 0x1000";;;
  writer <- write_u32 writer main_thread_stack_size;;
  name <- json_read_str contents ["name"] 0x10 None;;
  writer <- write_string writer name 0x10;;
  writer <- write_bytes writer (zeros 16);;
  let writer := seek_rel writer 0x30 in
  let writer := seek_rel writer 0x10 in
  Ok writer.

(** ** The orchestrator: [main] *)

(** [main] from the decoded [contents] on; the result is the buffer that
    [writer.save] writes.  A failure leaves before [save] is reached. *)
Definition main (contents : json) : res (list Z) :=
  let writer := new_writer in
  sac_writer <- write_sac contents;;
  kc_writer <- write_kc contents;;
  (* META section *)
  meta_writer <- write_meta contents;;
  let meta_size := len (stream meta_writer) in
  writer <- write_sub writer meta_writer;;
  (* ACID section *)
  let writer := seek writer meta_size false in
  writer <- align writer 0x10;;
  let acid_offset := position writer in
  acid_writer <- write_acid contents sac_writer kc_writer;;
  let acid_size := len (stream acid_writer) in
  writer <- write_sub writer acid_writer;;
  (* ACI section *)
  writer <- align writer 0x10;;
  let aci_offset := position writer in
  aci_writer <- write_aci contents sac_writer kc_writer;;
  let aci_size := len (stream aci_writer) in
  writer <- write_sub writer aci_writer;;
  (* ACI/ACID offsets + size into META *)
  let writer := seek writer 0x70 false in
  writer <- write_u32 writer aci_offset;;
  writer <- write_u32 writer aci_size;;
  writer <- write_u32 writer acid_offset;;
  writer <- write_u32 writer acid_size;;
  Ok (stream writer).

(** * Vocabulary of the statements *)

(** A writer whose cursor is at the end of its buffer. *)
Definition at_end (s : list Z) : BinaryWriter := mkWriter s (len s).

(** What a write inside the buffer leaves: [raw] at [p], the rest as it
    was. *)
Definition patch (s : list Z) (p : Z) (raw : list Z) : list Z :=
  firstn (Z.to_nat p) s ++ raw ++ skipn (Z.to_nat (p + len raw)) s.

(** [align] moves the cursor by [padding]: the least step to a multiple of
    the alignment. *)
Definition padding (alignment pos : Z) : Z :=
  ((- pos) mod alignment + alignment) mod alignment.

(** The codes of the characters of a str, and whether all are ASCII. *)
Definition ascii_codes (s : string) : list Z :=
  map (fun c => Z.of_N (N_of_ascii c)) (list_ascii_of_string s).

Fixpoint is_ascii (s : string) : bool :=
  match s with
  | EmptyString => true
  | String c r => (Z.of_N (N_of_ascii c) <? 128) && is_ascii r
  end.

(** The entry of a hosted and of an accessible service in the table. *)
Definition hosted_bytes (name : string) : list Z :=
  Z.lor 0x80 (strlen name - 1) :: ascii_codes name.

Definition accessible_bytes (name : string) : list Z :=
  (strlen name - 1) :: ascii_codes name.

Definition valid_service (name : string) : Prop :=
  1 <= strlen name <= 8 /\ is_ascii name = true.

Definition sac_example : json :=
  JDict [("service_host", JList [JStr "fsp-srv"]);
         ("service_access", JList [JStr "pm:shell"; JStr "hid"])].

(** A configuration that holds only the list of kernel capabilities, and
    the entries used as examples. *)
Definition kernel_caps_only (caps : list json) : json :=
  JDict [("kernel_capabilities", JList caps)].

Definition syscalls_cap (value : list (string * json)) : json :=
  JDict [("type", JStr "syscalls"); ("value", JDict value)].

Definition irq_pair_cap (slots : list json) : json :=
  JDict [("type", JStr "irq_pair"); ("value", JList slots)].

Definition is_dict (j : json) : bool :=
  match j with
  | JDict _ => true
  | _ => false
  end.

(** The syscall numbers [vals] of a mapping, each an integer or a
    hexadecimal string in [0, 0xbf]. *)
Definition syscall_values (value : list (string * json)) (vals : list Z)
  : Prop :=
  Forall2 (fun item v => int_of_json (snd item) = Ok v /\ 0 <= v <= 0xbf)
    value vals.

(** One more syscall number [v] in the bitmap [acc] of group [g]. *)
Definition bit_step (g : Z) (acc v : Z) : Z :=
  if v / 24 =? g then Z.lor acc (Z.shiftl 1 (v mod 24)) else acc.

Definition group_bitmap (vals : list Z) (g : Z) : Z :=
  fold_left (bit_step g) vals 0.

(** The word of group [idx] with bitmap [group]. *)
Definition syscall_word (idx group : Z) : Z :=
  Z.lor (Z.lor 0xF (Z.shiftl group 5)) (Z.shiftl idx 29).

(** The words of the groups [groups], the first of index [idx]: one word
    for each bitmap that is not zero. *)
Fixpoint group_words (idx : Z) (groups : list Z) : list Z :=
  match groups with
  | [] => []
  | g :: rest =>
      (if g =? 0 then [] else le_bytes 4 (syscall_word idx g))
      ++ group_words (idx + 1) rest
  end.

Definition octet : list Z := [0; 1; 2; 3; 4; 5; 6; 7].

Definition syscall_words (vals : list Z) : list Z :=
  group_words 0 (map (group_bitmap vals) octet).

Definition syscalls_example : json :=
  kernel_caps_only
    [syscalls_cap [("svc0", JInt 0); ("svc23", JInt 23); ("svc24", JInt 24);
                   ("svc191", JInt 191)]].

Definition syscalls_range_msg : string :=
  "syscall values must be between 0 and 0xbf".

(** A member of a syscalls mapping whose value is a number, and one whose
    number is outside [0, 0xbf]. *)
Definition number_item (item : string * json) : Prop :=
  exists v, int_of_json (snd item) = Ok v.

Definition out_of_range_item (item : string * json) : Prop :=
  exists v, int_of_json (snd item) = Ok v /\ (v < 0 \/ 0xbf < v).

Definition duplicate_value : list (string * json) :=
  [("first", JInt 1); ("again", JInt 1)].

Definition map_page_cap (value : json) : json :=
  JDict [("type", JStr "map_page"); ("value", value)].

Definition map_page_example : json :=
  kernel_caps_only [map_page_cap (JInt 0x1234)].

(** The word of an [irq_pair] entry with the 10-bit values [a] and [b] in
    its two slots. *)
Definition irq_word (a b : Z) : Z :=
  Z.lor (Z.lor (Z.shiftl 1 11 - 1) (Z.shiftl a 11)) (Z.shiftl b 21).

Definition irq_unbound_example : json :=
  kernel_caps_only [irq_pair_cap [JInt 5; JNull]].

Definition irq_after_syscalls_example : json :=
  kernel_caps_only
    [syscalls_cap [("svc1", JInt 1)]; irq_pair_cap [JInt 5; JNull]].

Definition irq_pair_len_msg : string := "`irq_pair` must contain 2 elements".

Definition debug_flags_cap (value : list (string * json)) : json :=
  JDict [("type", JStr "debug_flags"); ("value", JDict value)].

(** A complete configuration, open in its kernel capabilities, in the
    owner lists of its filesystem access and in its two service lists. *)
Definition example_config (caps : list json) (owners : list (string * json))
    (hosted accessible : list json) : json :=
  JDict
    [("name", JStr "demo");
     ("is_64_bit", JBool true);
     ("address_space_type", JInt 3);
     ("main_thread_priority", JInt 44);
     ("default_cpu_id", JInt 0);
     ("main_thread_stack_size", JStr "0x4000");
     ("is_retail", JBool true);
     ("pool_partition", JInt 0);
     ("program_id", JStr "0x0100000000001000");
     ("program_id_range_min", JStr "0x0100000000001000");
     ("program_id_range_max", JStr "0x0100000000001fff");
     ("filesystem_access",
      JDict (("permissions", JStr "0xffffffffffffffff") :: owners));
     ("service_host", JList hosted);
     ("service_access", JList accessible);
     ("kernel_capabilities", JList caps)].

Definition handle_table_cap : json :=
  JDict [("type", JStr "handle_table_size"); ("value", JInt 512)].

(** A stretch of a buffer: [n] bytes from offset [off]. *)
Definition slice (s : list Z) (off n : Z) : list Z :=
  firstn (Z.to_nat n) (skipn (Z.to_nat off) s).

(** The layout of the ACID region: the filesystem access control block,
    the region before the offsets are patched in ([size_field] and [table]
    are the two stretches patched at the end), and the region as written. *)
Definition acid_fac (perm : Z) : list Z :=
  le_bytes 1 1 ++ le_bytes 1 0 ++ le_bytes 1 0 ++ zeros 1
  ++ le_bytes 8 perm
  ++ le_bytes 8 0 ++ le_bytes 8 0 ++ le_bytes 8 0 ++ le_bytes 8 0.

Definition acid_layout (size_field table : list Z) (flags pmin pmax perm : Z)
    (sac kc : list Z) : list Z :=
  zeros 0x100 ++ zeros 0x100 ++ ascii_codes "ACID" ++ size_field ++ zeros 4
  ++ le_bytes 4 flags ++ le_bytes 8 pmin ++ le_bytes 8 pmax
  ++ table ++ zeros 8
  ++ acid_fac perm ++ zeros 4
  ++ sac ++ zeros (padding 0x10 (0x270 + len sac)) ++ kc.

Definition acid_kc_offset (sac : list Z) : Z :=
  0x270 + len sac + padding 0x10 (0x270 + len sac).

Definition acid_table (sac kc : list Z) : list Z :=
  le_bytes 4 0x240 ++ le_bytes 4 0x2c ++ le_bytes 4 0x270
  ++ le_bytes 4 (len sac) ++ le_bytes 4 (acid_kc_offset sac)
  ++ le_bytes 4 (len kc).

Definition acid_image (flags pmin pmax perm : Z) (sac kc : list Z) : list Z :=
  acid_layout (le_bytes 4 (acid_kc_offset sac + len kc - 0x100))
    (acid_table sac kc) flags pmin pmax perm sac kc.

(** [d[key] = v] on a dict. *)
Fixpoint dict_put (key : string) (v : json) (d : list (string * json))
  : list (string * json) :=
  match d with
  | [] => [(key, v)]
  | (k, x) :: rest =>
      if String.eqb k key then (k, v) :: rest
      else (k, x) :: dict_put key v rest
  end.

(** The configuration [d] with other owner lists in its filesystem
    access. *)
Definition with_owner_lists (d : list (string * json)) (coi sdoi : json)
  : json :=
  match assoc "filesystem_access" d with
  | Some (JDict fs) =>
      JDict (dict_put "filesystem_access"
               (JDict (dict_put "content_owner_ids" coi
                         (dict_put "save_data_owner_ids" sdoi fs))) d)
  | _ => JDict d
  end.

(** The layout of the ACI0 region.  [coi] and [sdoi] are the bytes of the
    content owner id table and of the save data owner id table; [table] and
    [fah_fields] are the two stretches patched at the end. *)
Definition aci_sac_offset (coi sdoi : list Z) : Z :=
  0x5c + len coi + len sdoi + padding 0x10 (0x5c + len coi + len sdoi).

Definition aci_kc_offset (coi sdoi sac : list Z) : Z :=
  aci_sac_offset coi sdoi + len sac
  + padding 0x10 (aci_sac_offset coi sdoi + len sac).

Definition aci_layout (table fah_fields : list Z) (pid perm : Z)
    (coi sdoi sac kc : list Z) : list Z :=
  ascii_codes "ACI0" ++ zeros 0xc ++ le_bytes 8 pid ++ zeros 8
  ++ table ++ zeros 8
  ++ le_bytes 4 1 ++ le_bytes 8 perm ++ fah_fields
  ++ coi ++ sdoi
  ++ zeros (padding 0x10 (0x5c + len coi + len sdoi))
  ++ sac
  ++ zeros (padding 0x10 (aci_sac_offset coi sdoi + len sac))
  ++ kc.

Definition aci_table (coi sdoi sac kc : list Z) : list Z :=
  le_bytes 4 0x40 ++ le_bytes 4 (0x1c + len coi + len sdoi)
  ++ le_bytes 4 (aci_sac_offset coi sdoi) ++ le_bytes 4 (len sac)
  ++ le_bytes 4 (aci_kc_offset coi sdoi sac) ++ le_bytes 4 (len kc).

Definition aci_fah_fields (coi sdoi : list Z) : list Z :=
  le_bytes 4 0x1c ++ le_bytes 4 (len coi)
  ++ le_bytes 4 (0x1c + len coi) ++ le_bytes 4 (len sdoi).

Definition aci_image (pid perm : Z) (coi sdoi sac kc : list Z) : list Z :=
  aci_layout (aci_table coi sdoi sac kc) (aci_fah_fields coi sdoi) pid perm
    coi sdoi sac kc.

(** The count that opens an owner id table: absent when the list is
    empty. *)
Definition count_prefix (n : Z) : list Z :=
  if n =? 0 then [] else le_bytes 4 n.

(** The bytes of the content owner id table for the ids [vals]. *)
Definition coi_table (vals : list Z) : list Z :=
  count_prefix (len vals) ++ flat_map (le_bytes 8) vals.

(** The layout of the file: the META header with its last four fields
    patched, the ACID region at 0x80, the ACI0 region at the next multiple of
    0x10. *)
Definition main_aci_offset (acid : list Z) : Z :=
  0x80 + len acid + padding 0x10 (0x80 + len acid).

Definition main_fields (acid aci : list Z) : list Z :=
  le_bytes 4 (main_aci_offset acid) ++ le_bytes 4 (len aci)
  ++ le_bytes 4 0x80 ++ le_bytes 4 (len acid).

Definition main_image (meta acid aci : list Z) : list Z :=
  firstn (Z.to_nat 0x70) meta ++ main_fields acid aci
  ++ acid ++ zeros (padding 0x10 (0x80 + len acid)) ++ aci.

(** Each branch of [write_kc] appends whole 32-bit words. *)
Definition appends_words (st st' : kc_locals) : Prop :=
  forall s, kc_writer st = at_end s ->
    exists ws, kc_writer st' = at_end (s ++ flat_map (le_bytes 4) ws).

(** The configuration of the examples with one kernel capability, and the
    file built from it. *)
Definition one_cap_config : json :=
  example_config [handle_table_cap]
    [("content_owner_ids", JList [JInt 7])]
    [JStr "fsp-srv"] [JStr "pm:shell"; JStr "hid"].

Definition one_cap_npdm : list Z :=
  Eval vm_compute in
    match main one_cap_config with
    | Ok out => out
    | Err _ => []
    end.

(** The ACID and ACI0 regions of that configuration, around empty
    tables. *)
Definition one_cap_acid : BinaryWriter :=
  Eval vm_compute in
    match write_acid one_cap_config new_writer new_writer with
    | Ok w => w
    | Err _ => new_writer
    end.

Definition one_cap_aci : BinaryWriter :=
  Eval vm_compute in
    match write_aci one_cap_config new_writer new_writer with
    | Ok w => w
    | Err _ => new_writer
    end.

(** * Further vocabulary *)

(** The byte at index [i] of a buffer, 0 past its end. *)
Definition byte_at (s : list Z) (i : Z) : Z := nth (Z.to_nat i) s 0.

(** The unsigned integer that little-endian bytes stand for. *)
Fixpoint le_decode (bs : list Z) : Z :=
  match bs with
  | [] => 0
  | b :: rest => b + 256 * le_decode rest
  end.

(** [write_u24] of a little-endian writer: the first three bytes of the
    value packed as [I]. *)
Definition write_u24 (writer : BinaryWriter) (value : Z) : res BinaryWriter :=
  raw <- pack 4 value;;
  write writer (firstn 3 raw).

(** The message of [json_read_int] for a value outside its bounds. *)
Definition int_range_msg (key : string) (min_val max_val : Z) : string :=
  ("`" ++ key ++ "` must be between " ++ hex min_val ++ " and "
   ++ hex max_val)%string.

(** The message of [json_read_value] for a key that is missing. *)
Definition missing_key_msg (c : ascii) : string :=
  ("couldn't find key `" ++ String c EmptyString ++ "`")%string.

(** The field of [width] bits at bit [lo] of a word. *)
Definition bits (word lo width : Z) : Z :=
  Z.land (Z.shiftr word lo) (Z.ones width).

(** A region of a [map_region] entry whose two fields read as [t], [ro]. *)
Definition region_fields (region : json) (f : Z * bool) : Prop :=
  is_dict region = true
  /\ json_read_int region ["region_type"%string] 0 3 None = Ok (fst f)
  /\ json_read_bool region ["is_ro"%string] None = Ok (snd f).

(** The entry types [write_kc] knows. *)
Definition kc_types : list string :=
  ["kernel_flags"; "syscalls"; "map"; "map_page"; "map_region"; "irq_pair";
   "application_type"; "min_kernel_version"; "handle_table_size";
   "debug_flags"]%string.

Definition unrecognised_msg (type_ : string) : string :=
  ("unrecognised kernel capability type `" ++ type_ ++ "`")%string.

(** The entry appends at most [n] words to the table. *)
Definition appends_at_most (n : Z) (st st' : kc_locals) : Prop :=
  forall s, kc_writer st = at_end s ->
    exists ws, kc_writer st' = at_end (s ++ flat_map (le_bytes 4) ws)
               /\ len ws <= n.

Definition kernel_flags_cap (hp lp lc hc : Z) : json :=
  JDict [("type", JStr "kernel_flags");
         ("value", JDict [("highest_thread_priority", JInt hp);
                          ("lowest_thread_priority", JInt lp);
                          ("lowest_cpu_id", JInt lc);
                          ("highest_cpu_id", JInt hc)])]%string.

Definition map_cap (address size : Z) (is_ro is_io : bool) : json :=
  JDict [("type", JStr "map");
         ("value", JDict [("address", JInt address); ("is_ro", JBool is_ro);
                          ("size", JInt size); ("is_io", JBool is_io)])]%string.

Definition region (t : Z) (ro : bool) : json :=
  JDict [("region_type", JInt t); ("is_ro", JBool ro)]%string.

Definition map_region_cap (regions : list json) : json :=
  JDict [("type", JStr "map_region"); ("value", JList regions)]%string.

Definition scalar_cap (type_ : string) (v : Z) : json :=
  JDict [("type", JStr type_); ("value", JInt v)]%string.

Definition one_cap_kc : list Z :=
  Eval vm_compute in
    match write_kc one_cap_config with
    | Ok w => stream w
    | Err _ => []
    end.

(** What the loops of [write_sac] make of an entry that does not encode:
    [None] for an entry that does. *)
Definition service_error (service : json) : option failure :=
  match service with
  | JStr name =>
      if (1 <=? strlen name) && (strlen name <=? 8) then
        if is_ascii name then None else Some (Raised UnicodeEncodeError)
      else Some (Abort services_len_msg)
  | _ => Some (Abort "services must be strings")
  end.

Definition sac_config (hosted accessible : list json) : json :=
  JDict [("service_host", JList hosted);
         ("service_access", JList accessible)]%string.

(** The flags byte of the META header and the header as [write_meta]
    leaves it, the four fields at 0x70 still zero. *)
Definition meta_flags (is_64_bit : bool) (address_space_type : Z)
    (optimize merge extra prevent : bool) : Z :=
  Z.b2z is_64_bit + 2 * address_space_type + 16 * Z.b2z optimize
  + 32 * Z.b2z merge + 64 * Z.b2z extra + 128 * Z.b2z prevent.

Definition meta_image (skg flags prio cpu srs ver stack : Z) (name : string)
  : list Z :=
  ascii_codes "META" ++ le_bytes 4 skg ++ zeros 4
  ++ [flags] ++ zeros 1 ++ [prio] ++ [cpu] ++ zeros 4
  ++ le_bytes 4 srs ++ le_bytes 4 ver ++ le_bytes 4 stack
  ++ (ascii_codes name ++ zeros (0x10 - strlen name))
  ++ zeros 16 ++ zeros 0x30 ++ zeros 0x10.

Definition stack_size_msg : string :=
  "`main_thread_stack_size` must be aligned to 0x1000".

(** The flags word of the ACID region. *)
Definition acid_flags (is_retail unqualified_approval : bool)
    (pool_partition : Z) : Z :=
  Z.b2z is_retail + 2 * Z.b2z unqualified_approval + 4 * pool_partition.

Definition accessible_hid : BinaryWriter := at_end (accessible_bytes "hid").

Definition one_cap_table : BinaryWriter := at_end one_cap_kc.

Definition acid_example : BinaryWriter :=
  Eval vm_compute in
    match write_acid one_cap_config accessible_hid one_cap_table with
    | Ok w => w
    | Err _ => new_writer
    end.

(** A content owner id that reads as the 64-bit [v], and a save data
    owner entry that reads as accessibility and id. *)
Definition owner_id (c : json) (v : Z) : Prop :=
  int_of_json c = Ok v /\ 0 <= v < 2 ^ 64.

Definition save_data_owner (d : json) (o : Z * Z) : Prop :=
  is_dict d = true
  /\ json_read_int d ["accessibility"%string] 1 3 None = Ok (fst o)
  /\ json_read_u64 d ["id"%string] None = Ok (snd o).

(** The bytes of the save data owner id table: the count (absent when the
    list is empty), one byte of accessibility an entry, zeros up to a
    multiple of 4, the 64-bit ids. *)
Definition sdoi_table (owners : list (Z * Z)) : list Z :=
  count_prefix (len owners) ++ map fst owners
  ++ zeros (padding 4 (len owners)) ++ flat_map (le_bytes 8) (map snd owners).

(** A configuration with one content owner and two save data owners. *)
Definition owners_config : json :=
  example_config [handle_table_cap]
    [("content_owner_ids", JList [JInt 7]);
     ("save_data_owner_ids",
      JList [JDict [("accessibility", JInt 3); ("id", JStr "0x10")];
             JDict [("accessibility", JInt 1); ("id", JInt 9)]])]%string
    [JStr "fsp-srv"] [JStr "hid"].

Definition aci_example : BinaryWriter :=
  Eval vm_compute in
    match write_aci owners_config accessible_hid one_cap_table with
    | Ok w => w
    | Err _ => new_writer
    end.

(** What the loops of [write_aci] make of an owner entry that does not
    encode: [None] for an entry that does. *)
Definition owner_id_error (c : json) : option failure :=
  match int_of_json c with
  | Err e => Some e
  | Ok v =>
      if (0 <=? v) && (v <=? Z.shiftl 1 64 - 1) then None
      else Some (Abort coi_range_msg)
  end.

Definition save_data_owner_error (d : json) : option failure :=
  match d with
  | JDict _ =>
      match json_read_int d ["accessibility"%string] 1 3 None with
      | Err e => Some e
      | Ok _ =>
          match json_read_u64 d ["id"%string] None with
          | Err e => Some e
          | Ok _ => None
          end
      end
  | _ => Some (Abort "`save_data_owner_ids` entries must be dicts")
  end.

Definition bad_owner_config (owner : json) : json :=
  example_config [handle_table_cap]
    [("content_owner_ids", JList [JInt 7; owner])]%string
    [JStr "fsp-srv"] [JStr "hid"].

Definition bad_save_owner_config (owner : json) : json :=
  example_config [handle_table_cap]
    [("content_owner_ids", JList [JInt 7]);
     ("save_data_owner_ids",
      JList [JDict [("accessibility", JInt 3); ("id", JStr "0x10")];
             owner])]%string
    [JStr "fsp-srv"] [JStr "hid"].

(** What the loop of [write_kc] keeps true of [data] and [val]: both
    unassigned, or the last item of the last [syscalls] entry and its
    number. *)
Definition kc_locals_ok (st : kc_locals) : Prop :=
  match kc_data st, kc_val st with
  | None, None => True
  | Some data, Some val => int_of_json data = Ok val /\ 0 <= val <= 0xbf
  | _, _ => False
  end.

(** What an [irq_pair] slot encodes as, [last] being the last syscall
    number. *)
Definition slot_value (last : Z) (slot : json) : Z :=
  match slot with
  | JNull => 0x3ff
  | _ => last
  end.

(** The variables of [write_kc] after a [syscalls] entry whose only item
    is the number 1. *)
Definition after_svc1 : kc_locals :=
  Eval vm_compute in
    match for_enumerate kc_entry 0 (mkLocals new_writer None None)
            [syscalls_cap [("svc1", JInt 1)]] with
    | Ok st => st
    | Err _ => mkLocals new_writer None None
    end.

(** An entry whose [type] does not read as ["irq_pair"]. *)
Definition not_irq_pair (cap : json) : Prop :=
  json_read_str cap ["type"%string] (-1) None <> Ok "irq_pair"%string.

(** Two tables used as examples. *)
Definition after_two : BinaryWriter :=
  Eval vm_compute in
    match write_kc (kernel_caps_only [syscalls_cap [("svc1", JInt 1)];
                                      handle_table_cap]) with
    | Ok w => w
    | Err _ => new_writer
    end.

Definition after_flags_map : BinaryWriter :=
  Eval vm_compute in
    match write_kc (kernel_caps_only [kernel_flags_cap 63 24 0 3;
                                      map_cap 0x1234 0x10 true false]) with
    | Ok w => w
    | Err _ => new_writer
    end.

(** A hexadecimal literal: an optional minus sign, an optional [0x], then
    the digits [cs]; and the number that digits of values [ds] denote. *)
Definition hex_literal (neg pre : bool) (cs : list ascii) : string :=
  ((if neg then "-" else "") ++ (if pre then "0x" else "")
   ++ string_of_list_ascii cs)%string.

Definition hex_value (ds : list Z) : Z :=
  fold_left (fun acc d => 16 * acc + d) ds 0.

Definition signed (neg : bool) (n : Z) : Z := if neg then - n else n.

(** What [json_read_int] makes of a number it has read. *)
Definition ranged (key : string) (min_val max_val n : Z) : res Z :=
  if (min_val <=? n) && (n <=? max_val) then Ok n
  else Err (Abort (int_range_msg key min_val max_val)).

(** * Properties *)

(** ** The error monad *)

Lemma rbind_Ok {A B : Type} (m : res A) (f : A -> res B) (b : B) :
  rbind m f = Ok b -> exists a, m = Ok a /\ f a = Ok b.
Proof.
  destruct m as [a|e]; simpl; intros H; [eauto | discriminate].
Qed.

Lemma rbind_Err {A B : Type} (m : res A) (f : A -> res B) (e : failure) :
  m = Err e -> rbind m f = Err e.
Proof. intros ->. reflexivity. Qed.

Lemma abort_unless_Ok (cond : bool) (msg : string) (u : unit) :
  abort_unless cond msg = Ok u -> cond = true.
Proof. destruct cond; simpl; [reflexivity | discriminate]. Qed.

(** ** Lengths *)

Lemma len_nonneg {A : Type} (l : list A) : 0 <= len l.
Proof. unfold len. lia. Qed.

Lemma len_nil {A : Type} : len (@nil A) = 0.
Proof. reflexivity. Qed.

Lemma len_cons {A : Type} (x : A) (l : list A) : len (x :: l) = 1 + len l.
Proof. unfold len. cbn [List.length]. lia. Qed.

Lemma len_app {A : Type} (l1 l2 : list A) : len (l1 ++ l2) = len l1 + len l2.
Proof. unfold len. rewrite length_app. lia. Qed.

Lemma len_zeros (n : Z) : 0 <= n -> len (zeros n) = n.
Proof. intros H. unfold len, zeros. rewrite repeat_length. lia. Qed.

Lemma len_le_bytes (size : nat) (v : Z) : len (le_bytes size v) = Z.of_nat size.
Proof.
  revert v. induction size as [|k IH]; intros v.
  - reflexivity.
  - cbn [le_bytes]. rewrite len_cons, IH. lia.
Qed.

Lemma len_firstn (n : Z) (s : list Z) :
  0 <= n <= len s -> len (firstn (Z.to_nat n) s) = n.
Proof. intros H. unfold len in *. rewrite length_firstn. lia. Qed.

Lemma len_skipn (n : Z) (s : list Z) :
  0 <= n <= len s -> len (skipn (Z.to_nat n) s) = len s - n.
Proof. intros H. unfold len in *. rewrite length_skipn. lia. Qed.

Lemma zeros_add (a b : Z) :
  0 <= a -> 0 <= b -> zeros (a + b) = zeros a ++ zeros b.
Proof.
  intros Ha Hb. unfold zeros. rewrite Z2Nat.inj_add by lia. apply repeat_app.
Qed.

Lemma zeros_0 : zeros 0 = [].
Proof. reflexivity. Qed.

(** ** One write *)

Lemma list_set_app (a : list Z) (o : Z) (r : list Z) (x : Z) :
  list_set (a ++ o :: r) (List.length a) x = a ++ x :: r.
Proof. induction a as [|y a IH]; simpl; [reflexivity | now rewrite IH]. Qed.

(** A write over a stretch [old] of the buffer as long as [raw] replaces
    it and leaves the bytes on both sides alone. *)
Lemma write_loop_app (raw a old b : list Z) :
  List.length old = List.length raw ->
  write_loop (mkWriter (a ++ old ++ b) (len a)) raw
  = Ok (mkWriter (a ++ raw ++ b) (len a + len raw)).
Proof.
  revert a old. induction raw as [|byte rest IH]; intros a old Hlen.
  - destruct old; [|discriminate]. simpl. rewrite len_nil, Z.add_0_r.
    reflexivity.
  - destruct old as [|o old]; [discriminate|]. injection Hlen as Hlen.
    cbn [write_loop stream position]. unfold setitem.
    assert (Hin : (0 <=? len a) && (len a <? len (a ++ (o :: old) ++ b)) = true).
    { rewrite !len_app, len_cons. pose proof (len_nonneg a).
      pose proof (len_nonneg old). pose proof (len_nonneg b).
      apply andb_true_intro. split; [apply Z.leb_le | apply Z.ltb_lt]; lia. }
    rewrite Hin. unfold len at 1. rewrite Nat2Z.id.
    change ((o :: old) ++ b) with (o :: old ++ b).
    rewrite list_set_app. cbn [rbind].
    replace (a ++ byte :: old ++ b) with ((a ++ [byte]) ++ old ++ b)
      by (rewrite <- app_assoc; reflexivity).
    replace (len a + 1) with (len (a ++ [byte]))
      by (rewrite len_app, len_cons, len_nil; lia).
    rewrite (IH (a ++ [byte]) old Hlen).
    rewrite <- app_assoc. do 2 f_equal.
    rewrite len_app, !len_cons, len_nil. lia.
Qed.

Lemma position_at_end (s : list Z) : position (at_end s) = len s.
Proof. reflexivity. Qed.

Lemma stream_at_end (s : list Z) : stream (at_end s) = s.
Proof. reflexivity. Qed.

Lemma new_writer_at_end : new_writer = at_end [].
Proof. reflexivity. Qed.

Lemma write_at_end (s raw : list Z) :
  write (at_end s) raw = Ok (at_end (s ++ raw)).
Proof.
  unfold write, _fill_bytes, at_end. cbn [stream position].
  destruct (0 <? len raw - len s + len s) eqn:E.
  - replace (len raw - len s + len s) with (len raw) by lia.
    pose proof (write_loop_app raw s (zeros (len raw)) []) as H.
    rewrite !app_nil_r in H. rewrite H.
    + now rewrite len_app.
    + unfold zeros, len. rewrite repeat_length. lia.
  - apply Z.ltb_ge in E. pose proof (len_nonneg raw).
    assert (Hr : raw = []) by (destruct raw; [reflexivity | rewrite len_cons in *; pose proof (len_nonneg raw); lia]).
    subst raw. simpl. now rewrite app_nil_r.
Qed.

Lemma write_inside (s : list Z) (p : Z) (raw : list Z) :
  0 <= p -> p + len raw <= len s ->
  write (mkWriter s p) raw = Ok (mkWriter (patch s p raw) (p + len raw)).
Proof.
  intros Hp Hin. unfold write, _fill_bytes. cbn [stream position].
  destruct (0 <? len raw - len s + p) eqn:E; [apply Z.ltb_lt in E; lia|].
  pose proof (len_nonneg raw) as Hr.
  set (a := firstn (Z.to_nat p) s).
  set (rest := skipn (Z.to_nat p) s).
  set (old := firstn (Z.to_nat (len raw)) rest).
  set (b := skipn (Z.to_nat (len raw)) rest).
  assert (Hs : s = a ++ old ++ b).
  { unfold a, old, b, rest. now rewrite !firstn_skipn. }
  assert (Ha : len a = p) by (apply len_firstn; lia).
  assert (Hold : List.length old = List.length raw).
  { unfold old, rest. rewrite length_firstn, length_skipn.
    unfold len in *. lia. }
  assert (Hb : b = skipn (Z.to_nat (p + len raw)) s).
  { unfold b, rest. rewrite skipn_skipn. f_equal. lia. }
  rewrite Hs at 1. rewrite <- Ha at 1.
  rewrite (write_loop_app raw a old b Hold). unfold patch.
  rewrite Ha, <- Hb. reflexivity.
Qed.

Lemma len_patch (s : list Z) (p : Z) (raw : list Z) :
  0 <= p -> p + len raw <= len s -> len (patch s p raw) = len s.
Proof.
  intros Hp Hin. pose proof (len_nonneg raw). unfold patch.
  rewrite !len_app, len_firstn, len_skipn by lia. lia.
Qed.

(** A patch over a stretch of the right length, seen in the buffer. *)
Lemma patch_mid (s a old b raw : list Z) (p : Z) :
  s = a ++ old ++ b -> len a = p -> len old = len raw ->
  patch s p raw = a ++ raw ++ b.
Proof.
  intros -> Ha Hold. unfold patch. subst p.
  unfold len at 1. rewrite Nat2Z.id, firstn_app, Nat.sub_diag, firstn_all.
  cbn [firstn]. rewrite app_nil_r. do 2 f_equal.
  replace (Z.to_nat (len a + len raw)) with (List.length a + List.length old)%nat
    by (unfold len in *; lia).
  rewrite app_assoc, <- length_app, skipn_app, Nat.sub_diag, skipn_all.
  reflexivity.
Qed.

(** ** Seeking *)

Lemma seek_rel_at_end (s : list Z) (n : Z) :
  0 <= n -> seek_rel (at_end s) n = at_end (s ++ zeros n).
Proof.
  intros Hn. unfold seek_rel, seek, _fill_bytes, at_end.
  cbn [stream position].
  destruct (0 <? 0 - len s + (len s + n)) eqn:E.
  - rewrite len_app, len_zeros by lia.
    replace (0 - len s + (len s + n)) with n by lia. reflexivity.
  - apply Z.ltb_ge in E. assert (n = 0) by lia. subst n.
    rewrite zeros_0, app_nil_r, Z.add_0_r. reflexivity.
Qed.

Lemma seek_at_end (s : list Z) (off : Z) :
  len s <= off -> seek (at_end s) off false = at_end (s ++ zeros (off - len s)).
Proof.
  intros Hoff. unfold seek, _fill_bytes, at_end. cbn [stream position].
  destruct (0 <? 0 - len s + off) eqn:E.
  - apply Z.ltb_lt in E. rewrite len_app, len_zeros by lia.
    replace (0 - len s + off) with (off - len s) by lia.
    f_equal. lia.
  - apply Z.ltb_ge in E. assert (off = len s) by lia. subst off.
    rewrite Z.sub_diag, zeros_0, app_nil_r. reflexivity.
Qed.

Lemma seek_inside (s : list Z) (p off : Z) :
  off <= len s -> seek (mkWriter s p) off false = mkWriter s off.
Proof.
  intros Hoff. unfold seek, _fill_bytes. cbn [stream position].
  destruct (0 <? 0 - len s + off) eqn:E; [apply Z.ltb_lt in E; lia|].
  reflexivity.
Qed.

Lemma padding_range (a p : Z) : 0 < a -> 0 <= padding a p < a.
Proof. intros Ha. unfold padding. apply Z.mod_pos_bound. lia. Qed.

Lemma padding_aligned (a p : Z) : 0 < a -> (p + padding a p) mod a = 0.
Proof.
  intros Ha. unfold padding.
  replace ((- p) mod a + a) with ((- p) mod a + 1 * a) by lia.
  rewrite Z_mod_plus_full, Z.mod_mod by lia.
  rewrite Zplus_mod_idemp_r, Z.add_opp_diag_r. apply Z.mod_0_l. lia.
Qed.

Lemma align_at_end (s : list Z) (a : Z) :
  0 < a -> align (at_end s) a = Ok (at_end (s ++ zeros (padding a (len s)))).
Proof.
  intros Ha. unfold align. rewrite position_at_end.
  destruct (a =? 0) eqn:E; [apply Z.eqb_eq in E; lia|].
  fold (padding a (len s)). f_equal. apply seek_rel_at_end.
  apply padding_range, Ha.
Qed.

(** ** Packed integers *)

Lemma pack_Ok (size : nat) (v : Z) (raw : list Z) :
  pack size v = Ok raw ->
  raw = le_bytes size v /\ 0 <= v < 2 ^ (8 * Z.of_nat size).
Proof.
  unfold pack. destruct (0 <=? v) eqn:E1; [|discriminate].
  destruct (v <? 2 ^ (8 * Z.of_nat size)) eqn:E2; [|discriminate].
  cbn [andb]. intros [= <-]. apply Z.leb_le in E1. apply Z.ltb_lt in E2.
  auto.
Qed.

Lemma pack_in_range (size : nat) (v : Z) :
  0 <= v < 2 ^ (8 * Z.of_nat size) -> pack size v = Ok (le_bytes size v).
Proof.
  intros [H1 H2]. unfold pack.
  apply Z.leb_le in H1. apply Z.ltb_lt in H2. now rewrite H1, H2.
Qed.

Lemma _write_at_end (s : list Z) (size : nat) (v : Z) :
  0 <= v < 2 ^ (8 * Z.of_nat size) ->
  _write (at_end s) size v = Ok (at_end (s ++ le_bytes size v)).
Proof.
  intros H. unfold _write. rewrite (pack_in_range _ _ H). cbn [rbind].
  apply write_at_end.
Qed.

Lemma _write_at_end_Ok (s : list Z) (size : nat) (v : Z) (w : BinaryWriter) :
  _write (at_end s) size v = Ok w ->
  w = at_end (s ++ le_bytes size v) /\ 0 <= v < 2 ^ (8 * Z.of_nat size).
Proof.
  unfold _write. intros H. apply rbind_Ok in H as (raw & Hp & H).
  apply pack_Ok in Hp as [-> Hr]. rewrite write_at_end in H.
  injection H as <-. auto.
Qed.

Lemma _write_inside_Ok (s : list Z) (p : Z) (size : nat) (v : Z)
    (w : BinaryWriter) :
  0 <= p -> p + Z.of_nat size <= len s ->
  _write (mkWriter s p) size v = Ok w ->
  w = mkWriter (patch s p (le_bytes size v)) (p + Z.of_nat size)
  /\ 0 <= v < 2 ^ (8 * Z.of_nat size).
Proof.
  intros Hp Hin. unfold _write. intros H.
  apply rbind_Ok in H as (raw & Hk & H).
  apply pack_Ok in Hk as [-> Hr].
  rewrite write_inside in H by (rewrite ?len_le_bytes; lia).
  rewrite len_le_bytes in H. injection H as <-. auto.
Qed.

(** ** Strings *)

Lemma encode_ascii_ascii (s : string) :
  is_ascii s = true -> encode_ascii s = Ok (ascii_codes s).
Proof.
  induction s as [|c r IH]; cbn [is_ascii encode_ascii]; intros H.
  - reflexivity.
  - apply andb_prop in H as [Hc Hr]. rewrite Hc, (IH Hr). reflexivity.
Qed.

Lemma encode_ascii_len (s : string) (raw : list Z) :
  encode_ascii s = Ok raw -> len raw = strlen s.
Proof.
  revert raw. induction s as [|c r IH]; cbn [encode_ascii]; intros raw H.
  - injection H as <-. reflexivity.
  - destruct (Z.of_N (N_of_ascii c) <? 128); [|discriminate].
    apply rbind_Ok in H as (bs & Hbs & H). injection H as <-.
    rewrite len_cons, (IH _ Hbs). unfold strlen. cbn [String.length]. lia.
Qed.

Lemma strlen_append (a b : string) :
  strlen (a ++ b) = strlen a + strlen b.
Proof.
  unfold strlen. induction a as [|c a IH]; cbn [append String.length].
  - lia.
  - lia.
Qed.

Lemma strlen_nuls (n : nat) : strlen (nuls n) = Z.of_nat n.
Proof.
  unfold strlen. induction n as [|k IH]; cbn [nuls String.length]; lia.
Qed.

Lemma strlen_substring_0 (n : nat) (s : string) :
  strlen (substring 0 n s) = Z.min (Z.of_nat n) (strlen s).
Proof.
  unfold strlen. revert n. induction s as [|c r IH]; intros [|n];
    cbn [substring String.length]; try lia.
  specialize (IH n). lia.
Qed.

(** A name written with a positive [max_len] takes [max_len] bytes when it
    is no longer than that. *)
Lemma write_string_fixed (s : list Z) (value : string) (max_len : Z)
    (w : BinaryWriter) :
  0 < max_len -> strlen value <= max_len ->
  write_string (at_end s) value max_len = Ok w ->
  exists raw, w = at_end (s ++ raw) /\ len raw = max_len.
Proof.
  intros Hm Hlen. unfold write_string.
  destruct (0 <? max_len) eqn:E; [|apply Z.ltb_ge in E; lia].
  intros H. apply rbind_Ok in H as (raw & Hraw & H).
  rewrite write_at_end in H. injection H as <-.
  exists raw. split; [reflexivity|].
  rewrite (encode_ascii_len _ _ Hraw). unfold pad_nul.
  rewrite strlen_append, strlen_nuls, strlen_substring_0.
  pose proof (Zle_0_nat (String.length value)). unfold strlen in *. lia.
Qed.

(** ** The service access table *)

Lemma lor_0x80_small (k : Z) : 0 <= k <= 7 -> Z.lor 0x80 k = 0x80 + k.
Proof.
  intros H.
  assert (Hk : k = 0 \/ k = 1 \/ k = 2 \/ k = 3 \/ k = 4 \/ k = 5 \/ k = 6
               \/ k = 7) by lia.
  repeat (destruct Hk as [-> | Hk]; [reflexivity|]). now subst k.
Qed.

Lemma le_bytes_1 (v : Z) : 0 <= v < 256 -> le_bytes 1 v = [v].
Proof. intros H. cbn [le_bytes]. now rewrite Z.mod_small. Qed.

Lemma write_u8_at_end (s : list Z) (v : Z) :
  0 <= v < 256 -> write_u8 (at_end s) v = Ok (at_end (s ++ [v])).
Proof.
  intros H. unfold write_u8. rewrite _write_at_end by (cbn; lia).
  now rewrite le_bytes_1.
Qed.

Lemma write_string_at_end (s : list Z) (value : string) :
  is_ascii value = true ->
  write_string (at_end s) value (-1) = Ok (at_end (s ++ ascii_codes value)).
Proof.
  intros H. unfold write_string. cbn [Z.ltb Z.compare].
  rewrite (encode_ascii_ascii _ H). cbn [rbind]. apply write_at_end.
Qed.

Lemma sac_host_entry_valid (s : list Z) (name : string) :
  valid_service name ->
  sac_host_entry (at_end s) (JStr name) = Ok (at_end (s ++ hosted_bytes name)).
Proof.
  intros [Hlen Hascii]. unfold sac_host_entry, hosted_bytes.
  replace ((1 <=? strlen name) && (strlen name <=? 8)) with true
    by (symmetry; apply andb_true_intro; split; apply Z.leb_le; lia).
  cbn [abort_unless rbind].
  rewrite lor_0x80_small by lia.
  rewrite write_u8_at_end by lia. cbn [rbind].
  rewrite write_string_at_end by assumption.
  now rewrite <- app_assoc.
Qed.

Lemma sac_access_entry_valid (s : list Z) (name : string) :
  valid_service name ->
  sac_access_entry (at_end s) (JStr name)
  = Ok (at_end (s ++ accessible_bytes name)).
Proof.
  intros [Hlen Hascii]. unfold sac_access_entry, accessible_bytes.
  replace ((1 <=? strlen name) && (strlen name <=? 8)) with true
    by (symmetry; apply andb_true_intro; split; apply Z.leb_le; lia).
  cbn [abort_unless rbind].
  rewrite write_u8_at_end by lia. cbn [rbind].
  rewrite write_string_at_end by assumption.
  now rewrite <- app_assoc.
Qed.

(** A loop whose body appends [enc x] for every element appends the
    entries in the order of the list. *)
Lemma for_each_appends {A : Type} (body : BinaryWriter -> json -> res BinaryWriter)
    (inj : A -> json) (enc : A -> list Z) (ok : A -> Prop) :
  (forall s x, ok x -> body (at_end s) (inj x) = Ok (at_end (s ++ enc x))) ->
  forall l s, Forall ok l ->
    for_each body (at_end s) (map inj l) = Ok (at_end (s ++ flat_map enc l)).
Proof.
  intros Hbody l. induction l as [|x l IH]; intros s Hl.
  - cbn. now rewrite app_nil_r.
  - inversion Hl as [|? ? Hx Hl']; subst. cbn [map for_each flat_map].
    rewrite (Hbody s x Hx). cbn [rbind]. rewrite (IH _ Hl').
    now rewrite <- app_assoc.
Qed.

(** C6: the table holds the hosted entries in input order, then the
    accessible entries in input order; a hosted name of length L is the byte
    0x80|(L-1) (which is 0x80+(L-1), bit 7 set) followed by its ASCII bytes,
    an accessible name the byte L-1 (below 0x80, bit 7 clear) followed by its
    ASCII bytes.  The example hosted=["fsp-srv"], accessible=["pm:shell",
    "hid"] encodes as 0x86 'fsp-srv' 0x07 'pm:shell' 0x02 'hid'. *)
Theorem write_sac_table :
  (forall (contents : json) (hosted accessible : list string),
      json_read_list contents ["service_host"%string] None
      = Ok (map JStr hosted) ->
      json_read_list contents ["service_access"%string] None
      = Ok (map JStr accessible) ->
      Forall valid_service hosted ->
      Forall valid_service accessible ->
      write_sac contents
      = Ok (at_end (flat_map hosted_bytes hosted
                    ++ flat_map accessible_bytes accessible))
      /\ Forall (fun name => Z.lor 0x80 (strlen name - 1)
                             = 0x80 + (strlen name - 1)) hosted
      /\ Forall (fun name => 0 <= strlen name - 1 < 0x80) accessible)
  /\ write_sac sac_example
     = Ok (at_end ([0x86] ++ ascii_codes "fsp-srv"
                   ++ [0x07] ++ ascii_codes "pm:shell"
                   ++ [0x02] ++ ascii_codes "hid")).
Proof.
  split; [|reflexivity].
  intros contents hosted accessible Hh Ha Vh Va. split; [|split].
  - unfold write_sac. rewrite Hh, Ha. cbn [rbind].
    rewrite new_writer_at_end.
    rewrite (for_each_appends sac_host_entry JStr hosted_bytes valid_service)
      by (auto using sac_host_entry_valid).
    cbn [rbind].
    rewrite (for_each_appends sac_access_entry JStr accessible_bytes
               valid_service) by (auto using sac_access_entry_valid).
    reflexivity.
  - eapply Forall_impl; [|exact Vh]. intros name [Hlen _].
    apply lor_0x80_small. lia.
  - eapply Forall_impl; [|exact Va]. intros name [Hlen _]. lia.
Qed.

Lemma write_sac_table_witness :
  write_sac sac_example
  = Ok (at_end (flat_map hosted_bytes ["fsp-srv"%string]
                ++ flat_map accessible_bytes ["pm:shell"%string; "hid"%string])).
Proof.
  refine (proj1 (proj1 write_sac_table sac_example
                   ["fsp-srv"%string] ["pm:shell"%string; "hid"%string]
                   _ _ _ _)).
  - reflexivity.
  - reflexivity.
  - repeat constructor; cbn; lia.
  - repeat constructor; cbn; lia.
Defined.

(** ** Bit fields *)

Lemma lor_lt_pow2 (a b n : Z) :
  0 <= a < 2 ^ n -> 0 <= b < 2 ^ n -> 0 <= Z.lor a b < 2 ^ n.
Proof.
  intros Ha Hb.
  assert (Hn : 0 <= n).
  { destruct (Z.le_gt_cases 0 n) as [H|H]; [exact H|].
    rewrite Z.pow_neg_r in Ha by lia. lia. }
  assert (H0 : 0 <= Z.lor a b) by (apply Z.lor_nonneg; lia).
  split; [exact H0|].
  destruct (Z.eq_dec (Z.lor a b) 0) as [E|E].
  - rewrite E. apply Z.pow_pos_nonneg; lia.
  - apply Z.log2_lt_pow2; [lia|]. rewrite Z.log2_lor by lia.
    assert (Hlog : forall x, 0 <= x < 2 ^ n -> 0 < n -> Z.log2 x < n).
    { intros x Hx Hpos. destruct (Z.eq_dec x 0) as [->|Hx0].
      - cbn. lia.
      - apply Z.log2_lt_pow2; lia. }
    assert (Hpos : 0 < n).
    { destruct (Z.eq_dec n 0) as [->|]; [|lia].
      assert (a = 0) by (cbn in Ha; lia). assert (b = 0) by (cbn in Hb; lia).
      subst. now cbn in E. }
    apply Z.max_lub_lt; auto.
Qed.

Lemma shiftl_lt_pow2 (a k n : Z) :
  0 <= k -> 0 <= n -> 0 <= a < 2 ^ n -> 0 <= Z.shiftl a k < 2 ^ (n + k).
Proof.
  intros Hk Hn Ha. rewrite Z.shiftl_mul_pow2, Z.pow_add_r by lia.
  assert (0 < 2 ^ k) by (apply Z.pow_pos_nonneg; lia). nia.
Qed.

(** ** The [syscalls] capability *)

Lemma bit_step_bound (g acc v : Z) :
  0 <= acc < 2 ^ 24 -> 0 <= bit_step g acc v < 2 ^ 24.
Proof.
  intros Hacc. unfold bit_step. destruct (v / 24 =? g); [|exact Hacc].
  apply lor_lt_pow2; [exact Hacc|].
  rewrite Z.shiftl_1_l.
  pose proof (Z.mod_pos_bound v 24 ltac:(lia)) as Hm.
  split; [apply Z.pow_nonneg; lia|]. apply Z.pow_lt_mono_r; lia.
Qed.

Lemma fold_bit_step_bound (g : Z) (vals : list Z) (acc : Z) :
  0 <= acc < 2 ^ 24 -> 0 <= fold_left (bit_step g) vals acc < 2 ^ 24.
Proof.
  revert acc. induction vals as [|v vals IH]; intros acc Hacc.
  - exact Hacc.
  - cbn [fold_left]. apply IH, bit_step_bound, Hacc.
Qed.

Lemma group_bitmap_bound (vals : list Z) (g : Z) :
  0 <= group_bitmap vals g < 2 ^ 24.
Proof. apply fold_bit_step_bound. lia. Qed.

Lemma fold_bit_step_testbit (g i : Z) (vals : list Z) (acc : Z) :
  0 <= i ->
  Z.testbit (fold_left (bit_step g) vals acc) i
  = Z.testbit acc i
    || existsb (fun v => (v / 24 =? g) && (v mod 24 =? i)) vals.
Proof.
  intros Hi. revert acc. induction vals as [|v vals IH]; intros acc.
  - cbn. now rewrite orb_false_r.
  - cbn [fold_left existsb]. rewrite IH. unfold bit_step.
    destruct (v / 24 =? g); cbn [andb orb].
    + rewrite Z.lor_spec, Z.shiftl_1_l, Z.pow2_bits_eqb
        by (apply Z.mod_pos_bound; lia).
      now rewrite orb_assoc.
    + reflexivity.
Qed.

Lemma group_bitmap_testbit (vals : list Z) (g i : Z) :
  0 <= i < 24 ->
  Z.testbit (group_bitmap vals g) i = true <-> In (24 * g + i) vals.
Proof.
  intros Hi. unfold group_bitmap.
  rewrite fold_bit_step_testbit by lia. rewrite Z.bits_0. cbn [orb].
  rewrite existsb_exists. split.
  - intros (v & Hin & Hv). apply andb_prop in Hv as [H1 H2].
    apply Z.eqb_eq in H1. apply Z.eqb_eq in H2.
    replace (24 * g + i) with v; [exact Hin|].
    rewrite (Z.div_mod v 24) by lia. lia.
  - intros Hin. exists (24 * g + i). split; [exact Hin|].
    apply andb_true_intro. split; apply Z.eqb_eq.
    + symmetry. apply (Z.div_unique _ _ _ i); lia.
    + symmetry. apply (Z.mod_unique _ _ g i); lia.
Qed.

Lemma syscall_word_bound (idx group : Z) :
  0 <= idx < 8 -> 0 <= group < 2 ^ 24 ->
  0 <= syscall_word idx group < 2 ^ 32.
Proof.
  intros Hidx Hg. unfold syscall_word.
  pose proof (shiftl_lt_pow2 group 5 24 ltac:(lia) ltac:(lia) Hg) as H1.
  pose proof (shiftl_lt_pow2 idx 29 3 ltac:(lia) ltac:(lia) ltac:(cbn; lia))
    as H2.
  change (2 ^ (24 + 5)) with (2 ^ 29) in H1.
  change (2 ^ (3 + 29)) with (2 ^ 32) in H2.
  assert (2 ^ 29 < 2 ^ 32) by (cbn; lia).
  apply lor_lt_pow2; [apply lor_lt_pow2|]; cbn in *; lia.
Qed.

Lemma length_list_set (s : list Z) (i : nat) (b : Z) :
  List.length (list_set s i b) = List.length s.
Proof.
  revert i. induction s as [|x s IH]; intros [|i]; cbn; auto.
Qed.

Lemma nth_list_set (s : list Z) (i j : nat) (b : Z) :
  (i < List.length s)%nat ->
  nth j (list_set s i b) 0 = if Nat.eqb j i then b else nth j s 0.
Proof.
  revert i j. induction s as [|x s IH]; intros i j Hi; [cbn in Hi; lia|].
  destruct i as [|i], j as [|j]; cbn; auto.
  apply IH. cbn in Hi. lia.
Qed.

Lemma octet_groups (groups : list Z) :
  List.length groups = 8%nat ->
  groups = map (fun g => nth (Z.to_nat g) groups 0) octet.
Proof.
  intros H. do 8 (destruct groups as [|? groups]; [discriminate|]).
  destruct groups; [reflexivity | discriminate].
Qed.

Lemma groups_or_in_range (groups : list Z) (v : Z) :
  List.length groups = 8%nat -> 0 <= v <= 0xbf ->
  exists groups',
    groups_or groups (v / 24) (Z.shiftl 1 (v mod 24)) = Ok groups'
    /\ List.length groups' = 8%nat
    /\ forall g, In g octet ->
         nth (Z.to_nat g) groups' 0
         = bit_step g (nth (Z.to_nat g) groups 0) v.
Proof.
  intros Hlen Hv.
  assert (Hq : 0 <= v / 24 < 8) by (split; [apply Z.div_pos | apply Z.div_lt_upper_bound]; lia).
  unfold groups_or, setitem, len. rewrite Hlen.
  replace ((0 <=? v / 24) && (v / 24 <? Z.of_nat 8)) with true
    by (symmetry; apply andb_true_intro; split;
        [apply Z.leb_le | apply Z.ltb_lt]; lia).
  eexists. split; [reflexivity|]. split; [now rewrite length_list_set|].
  intros g Hg. rewrite nth_list_set by lia. unfold bit_step.
  assert (Hg8 : 0 <= g < 8) by (cbn in Hg; lia).
  destruct (v / 24 =? g) eqn:E.
  - apply Z.eqb_eq in E. subst g. now rewrite Nat.eqb_refl.
  - apply Z.eqb_neq in E.
    destruct (Nat.eqb (Z.to_nat g) (Z.to_nat (v / 24))) eqn:E';
      [apply Nat.eqb_eq in E'; lia | reflexivity].
Qed.

(** The loop over the mapping leaves, for every group, the bitmap of the
    numbers of that group. *)
Lemma syscall_items_ok (value : list (string * json)) (vals : list Z) :
  syscall_values value vals ->
  forall groups st, List.length groups = 8%nat ->
    exists st',
      for_each syscall_item (groups, st) value
      = Ok (map (fun g => fold_left (bit_step g) vals
                            (nth (Z.to_nat g) groups 0)) octet, st')
      /\ kc_writer st' = kc_writer st.
Proof.
  induction 1 as [|item v value vals [Hitem Hv] Hrest IH]; intros groups st Hlen.
  - exists st. cbn [for_each fold_left]. split; [|reflexivity].
    now rewrite <- octet_groups.
  - destruct (groups_or_in_range groups v Hlen Hv) as (groups' & Hor & Hlen' & Hnth).
    cbn [for_each]. unfold syscall_item at 1. rewrite Hitem. cbn [rbind].
    replace ((0 <=? v) && (v <=? 0xbf)) with true
      by (symmetry; apply andb_true_intro; split; apply Z.leb_le; lia).
    cbn [abort_unless rbind]. rewrite Hor. cbn [rbind].
    destruct (IH groups' (mkLocals (kc_writer st) (Some (snd item)) (Some v))
                Hlen') as (st' & Hloop & Hw).
    exists st'. rewrite Hloop. split; [|exact Hw]. do 2 f_equal.
    apply map_ext_in. intros g Hg. cbn [fold_left]. now rewrite Hnth.
Qed.

Lemma syscall_groups_ok (groups : list Z) :
  forall idx s,
    0 <= idx -> idx + len groups <= 8 ->
    Forall (fun g => 0 <= g < 2 ^ 24) groups ->
    for_enumerate syscall_group idx (at_end s) groups
    = Ok (at_end (s ++ group_words idx groups)).
Proof.
  induction groups as [|g groups IH]; intros idx s Hidx Hlen Hall.
  - cbn. now rewrite app_nil_r.
  - rewrite len_cons in Hlen. pose proof (len_nonneg groups).
    inversion Hall as [|? ? Hg Hall']; subst.
    cbn [for_enumerate group_words]. unfold syscall_group at 1.
    destruct (g =? 0).
    + cbn [rbind]. rewrite IH by (auto; lia). now rewrite app_nil_l.
    + fold (syscall_word idx g). unfold write_u32.
      rewrite _write_at_end
        by (change (2 ^ (8 * Z.of_nat 4)) with (2 ^ 32);
            apply syscall_word_bound; lia).
      cbn [rbind]. rewrite IH by (auto; lia). now rewrite <- app_assoc.
Qed.

Lemma kc_syscalls_ok (s : list Z) (data : option json) (val : option Z)
    (cap : json) (value : list (string * json)) (vals : list Z) :
  json_read_dict cap ["value"%string] None = Ok value ->
  syscall_values value vals ->
  exists st',
    kc_syscalls (mkLocals (at_end s) data val) cap = Ok st'
    /\ kc_writer st' = at_end (s ++ syscall_words vals).
Proof.
  intros Hvalue Hvals. unfold kc_syscalls. rewrite Hvalue. cbn [rbind].
  destruct (syscall_items_ok value vals Hvals (repeat 0 8)
              (mkLocals (at_end s) data val) eq_refl) as (st' & Hloop & Hw).
  rewrite Hloop. cbn [rbind]. rewrite Hw. cbn [kc_writer].
  rewrite syscall_groups_ok.
  - cbn [rbind]. eexists. split; [reflexivity|]. cbn [with_writer kc_writer].
    unfold syscall_words, group_bitmap. do 2 f_equal.
  - lia.
  - cbn. lia.
  - apply Forall_forall. intros g Hg. apply in_map_iff in Hg as (i & <- & _).
    apply fold_bit_step_bound. rewrite nth_repeat. lia.
Qed.

(** A field shifted above a value that fits below it is added to it. *)
Lemma lor_shiftl_add (a b k : Z) :
  0 <= k -> 0 <= a < 2 ^ k -> Z.lor a (Z.shiftl b k) = a + b * 2 ^ k.
Proof.
  intros Hk Ha.
  assert (Hland : Z.land a (Z.shiftl b k) = 0).
  { apply Z.bits_inj'. intros n Hn. rewrite Z.land_spec, Z.bits_0.
    destruct (Z.lt_ge_cases n k) as [Hlt|Hge].
    - rewrite Z.shiftl_spec_low by lia. apply andb_false_r.
    - destruct (Z.eq_dec a 0) as [->|Hne].
      + now rewrite Z.bits_0.
      + rewrite Z.bits_above_log2; [reflexivity | lia |].
        assert (Z.log2 a < k) by (apply Z.log2_lt_pow2; lia). lia. }
  rewrite <- Z.lxor_lor by exact Hland.
  rewrite <- Z.add_nocarry_lxor by exact Hland.
  now rewrite Z.shiftl_mul_pow2.
Qed.

Lemma syscall_word_sum (idx group : Z) :
  0 <= group < 2 ^ 24 ->
  syscall_word idx group = 15 + group * 2 ^ 5 + idx * 2 ^ 29.
Proof.
  intros Hg. unfold syscall_word.
  change (2 ^ 24) with 16777216 in Hg.
  rewrite (lor_shiftl_add 15 group 5) by (change (2 ^ 5) with 32; lia).
  apply lor_shiftl_add; [lia|].
  change (2 ^ 5) with 32. change (2 ^ 29) with 536870912. lia.
Qed.

(** The fields of a syscalls word read back: the tag in bits 0..4, the
    bitmap in bits 5..28, the group index from bit 29. *)
Lemma syscall_word_fields (idx group : Z) :
  0 <= idx -> 0 <= group < 2 ^ 24 ->
  Z.land (syscall_word idx group) (Z.ones 5) = 0xF
  /\ Z.land (Z.shiftr (syscall_word idx group) 5) (Z.ones 24) = group
  /\ Z.shiftr (syscall_word idx group) 29 = idx.
Proof.
  intros Hi Hg. rewrite (syscall_word_sum idx group Hg).
  rewrite !Z.land_ones, !Z.shiftr_div_pow2 by lia.
  change (2 ^ 5) with 32. change (2 ^ 29) with 536870912.
  change (2 ^ 24) with 16777216 in *.
  repeat split.
  - symmetry. apply (Z.mod_unique _ _ (group + idx * 16777216)); lia.
  - replace ((15 + group * 32 + idx * 536870912) / 32)
      with (group + idx * 16777216)
      by (apply (Z.div_unique _ _ _ 15); lia).
    symmetry. apply (Z.mod_unique _ _ idx); lia.
  - symmetry. apply (Z.div_unique _ _ _ (15 + group * 32)); lia.
Qed.

Lemma kc_entry_syscalls (st : kc_locals) (idx : Z) (cap : json) :
  is_dict cap = true -> idx < 32 ->
  json_read_str cap ["type"%string] (-1) None = Ok "syscalls"%string ->
  kc_entry st idx cap = kc_syscalls st cap.
Proof.
  intros Hd Hidx Ht. unfold kc_entry. fold (is_dict cap). rewrite Hd.
  apply Z.ltb_lt in Hidx. rewrite Hidx, Ht. reflexivity.
Qed.

Lemma syscalls_example_words :
  write_kc syscalls_example
  = Ok (at_end (le_bytes 4 (syscall_word 0 (2 ^ 0 + 2 ^ 23))
                ++ le_bytes 4 (syscall_word 1 (2 ^ 0))
                ++ le_bytes 4 (syscall_word 7 (2 ^ 23)))).
Proof. reflexivity. Qed.

(** C1, as the code has it: the numbers 0, 23, 24 and 191 fall into the
    groups 0, 1 and 7 (24 is bit 0 of group 1), so the example gives three
    words: group 0 with bits 0 and 23, group 1 with bit 0, group 7 with bit
    23.  In general a syscalls entry appends one word for every group of 24
    numbers whose bitmap is not zero, in the order of the groups; the word is
    0xF, or the bitmap shifted to bit 5, or the group index shifted to bit 29,
    so that bits 0..4 read 0xF, bits 5..28 the bitmap and the bits from 29 the
    group index; the bitmap is below 2^24 and its bit i is set exactly when
    the number 24*group+i is a value of the mapping. *)
Theorem syscalls_one_word_per_group :
  (forall (s : list Z) (data : option json) (val : option Z) (idx : Z)
          (cap : json) (value : list (string * json)) (vals : list Z),
      is_dict cap = true -> idx < 32 ->
      json_read_str cap ["type"%string] (-1) None = Ok "syscalls"%string ->
      json_read_dict cap ["value"%string] None = Ok value ->
      syscall_values value vals ->
      (exists st',
          kc_entry (mkLocals (at_end s) data val) idx cap = Ok st'
          /\ kc_writer st' = at_end (s ++ syscall_words vals))
      /\ (forall g i, 0 <= i < 24 ->
            Z.testbit (group_bitmap vals g) i = true <-> In (24 * g + i) vals)
      /\ (forall g, 0 <= group_bitmap vals g < 2 ^ 24)
      /\ (forall g, 0 <= g ->
            let word := syscall_word g (group_bitmap vals g) in
            Z.land word (Z.ones 5) = 0xF
            /\ Z.land (Z.shiftr word 5) (Z.ones 24) = group_bitmap vals g
            /\ Z.shiftr word 29 = g))
  /\ write_kc syscalls_example
     = Ok (at_end (le_bytes 4 (syscall_word 0 (2 ^ 0 + 2 ^ 23))
                   ++ le_bytes 4 (syscall_word 1 (2 ^ 0))
                   ++ le_bytes 4 (syscall_word 7 (2 ^ 23)))).
Proof.
  split; [|exact syscalls_example_words].
  intros s data val idx cap value vals Hd Hidx Ht Hv Hvals.
  split; [|split; [|split]].
  - rewrite kc_entry_syscalls by assumption.
    exact (kc_syscalls_ok s data val cap value vals Hv Hvals).
  - intros g i Hi. apply group_bitmap_testbit, Hi.
  - apply group_bitmap_bound.
  - intros g Hg. apply syscall_word_fields; [exact Hg|].
    apply group_bitmap_bound.
Qed.

Lemma syscalls_one_word_per_group_witness :
  exists st',
    kc_entry (mkLocals (at_end []) None None) 0
      (syscalls_cap [("svc0"%string, JInt 0); ("svc191"%string, JStr "0xbf")])
    = Ok st'
    /\ kc_writer st' = at_end ([] ++ syscall_words [0; 191]).
Proof.
  refine (proj1 (proj1 syscalls_one_word_per_group [] None None 0
                   (syscalls_cap [("svc0"%string, JInt 0);
                                  ("svc191"%string, JStr "0xbf")])
                   [("svc0"%string, JInt 0); ("svc191"%string, JStr "0xbf")]
                   [0; 191] _ _ _ _ _)).
  - reflexivity.
  - lia.
  - reflexivity.
  - reflexivity.
  - repeat constructor; cbn; lia.
Defined.

(** The example of C1 does not encode into two words. *)
Lemma syscalls_example_not_two_words :
  ~ exists a b,
      write_kc syscalls_example = Ok (at_end (le_bytes 4 a ++ le_bytes 4 b)).
Proof.
  intros (a & b & H).
  rewrite syscalls_example_words in H.
  apply (f_equal (fun r => match r with
                           | Ok w => len (stream w)
                           | Err _ => 0
                           end)) in H.
  rewrite !stream_at_end, !len_app, !len_le_bytes in H. lia.
Qed.

(** ** Range check of the syscall numbers *)

Lemma syscall_items_fail (value : list (string * json)) :
  Exists out_of_range_item value ->
  forall groups st,
    exists e,
      for_each syscall_item (groups, st) value = Err e
      /\ (List.length groups = 8%nat -> Forall number_item value ->
          e = Abort syscalls_range_msg).
Proof.
  induction value as [|item value IH]; intros Hex groups st.
  - inversion Hex.
  - cbn [for_each]. unfold syscall_item at 1.
    destruct (int_of_json (snd item)) as [v|e0] eqn:Hitem; cbn [rbind].
    + destruct ((0 <=? v) && (v <=? 0xbf)) eqn:Hr; cbn [abort_unless rbind].
      * apply andb_prop in Hr as [H1 H2].
        apply Z.leb_le in H1. apply Z.leb_le in H2.
        assert (Hrest : Exists out_of_range_item value).
        { inversion Hex as [? ? (v' & Hv' & Hbad)|]; subst; [|assumption].
          rewrite Hitem in Hv'. injection Hv' as <-. lia. }
        destruct (groups_or groups (v / 24) (Z.shiftl 1 (v mod 24)))
          as [groups'|e0] eqn:Hor; cbn [rbind].
        -- destruct (IH Hrest groups'
                       (mkLocals (kc_writer st) (Some (snd item)) (Some v)))
             as (e & He & Hmsg).
           exists e. split; [exact He|]. intros Hlen Hnum.
           apply Hmsg; [|now inversion Hnum].
           destruct (groups_or_in_range groups v Hlen ltac:(lia))
             as (g2 & Hor2 & Hlen2 & _).
           rewrite Hor in Hor2. now injection Hor2 as ->.
        -- exists e0. split; [reflexivity|]. intros Hlen _.
           destruct (groups_or_in_range groups v Hlen ltac:(lia))
             as (g2 & Hor2 & _).
           rewrite Hor in Hor2. discriminate.
      * exists (Abort syscalls_range_msg). split; reflexivity.
    + exists e0. split; [reflexivity|]. intros _ Hnum.
      inversion Hnum as [|? ? (v & Hv) _]; subst.
      rewrite Hitem in Hv. discriminate.
Qed.

(** C7, as the code has it: a syscalls entry whose mapping holds a number
    outside [0, 0xbf] fails, and with the message of the range check when
    every value of the mapping is a number; no test looks for duplicates, so
    a mapping of numbers in range is encoded whether or not two names carry
    the same number. *)
Theorem syscalls_range_checked :
  (forall (st : kc_locals) (idx : Z) (cap : json)
          (value : list (string * json)),
      is_dict cap = true ->
      json_read_str cap ["type"%string] (-1) None = Ok "syscalls"%string ->
      json_read_dict cap ["value"%string] None = Ok value ->
      Exists out_of_range_item value ->
      exists e,
        kc_entry st idx cap = Err e
        /\ (idx < 32 -> Forall number_item value ->
            e = Abort syscalls_range_msg))
  /\ (forall (s : list Z) (data : option json) (val : option Z) (idx : Z)
             (cap : json) (value : list (string * json)) (vals : list Z),
         is_dict cap = true -> idx < 32 ->
         json_read_str cap ["type"%string] (-1) None = Ok "syscalls"%string ->
         json_read_dict cap ["value"%string] None = Ok value ->
         syscall_values value vals ->
         exists st', kc_entry (mkLocals (at_end s) data val) idx cap = Ok st').
Proof.
  split.
  - intros st idx cap value Hd Ht Hv Hex.
    destruct (syscall_items_fail value Hex (repeat 0 8) st)
      as (e & He & Hmsg).
    destruct (Z.ltb_spec idx 32) as [Hidx|Hidx].
    + exists e. rewrite kc_entry_syscalls by assumption.
      unfold kc_syscalls. rewrite Hv. cbn [rbind]. rewrite He.
      split; [reflexivity|]. intros _ Hnum. now apply Hmsg.
    + exists (Abort too_many_msg). unfold kc_entry. fold (is_dict cap).
      rewrite Hd. cbn [abort_unless rbind].
      replace (idx <? 32) with false by (symmetry; apply Z.ltb_ge; lia).
      split; [reflexivity | lia].
  - intros s data val idx cap value vals Hd Hidx Ht Hv Hvals.
    rewrite kc_entry_syscalls by assumption.
    destruct (kc_syscalls_ok s data val cap value vals Hv Hvals)
      as (st' & H & _).
    now exists st'.
Qed.

Lemma syscalls_range_checked_witness :
  (exists e,
      kc_entry (mkLocals new_writer None None) 0
        (syscalls_cap [("svc"%string, JInt 0xc0)]) = Err e
      /\ (0 < 32 -> Forall number_item [("svc"%string, JInt 0xc0)] ->
          e = Abort syscalls_range_msg))
  /\ exists st',
       kc_entry (mkLocals (at_end []) None None) 0 (syscalls_cap duplicate_value)
       = Ok st'.
Proof.
  split.
  - refine (proj1 syscalls_range_checked (mkLocals new_writer None None) 0
              (syscalls_cap [("svc"%string, JInt 0xc0)])
              [("svc"%string, JInt 0xc0)] _ _ _ _).
    + reflexivity.
    + reflexivity.
    + reflexivity.
    + constructor. exists 0xc0. split; [reflexivity | lia].
  - refine (proj2 syscalls_range_checked [] None None 0
              (syscalls_cap duplicate_value) duplicate_value [1; 1]
              _ _ _ _ _).
    + reflexivity.
    + lia.
    + reflexivity.
    + reflexivity.
    + repeat constructor; cbn; lia.
Defined.

(** Two names with the same syscall number: the entry is encoded. *)
Lemma duplicate_syscalls_accepted :
  map (fun item => int_of_json (snd item)) duplicate_value = [Ok 1; Ok 1]
  /\ ~ NoDup [1; 1]
  /\ write_kc (kernel_caps_only [syscalls_cap duplicate_value])
     = Ok (at_end (le_bytes 4 (syscall_word 0 (2 ^ 1)))).
Proof.
  split; [reflexivity|]. split; [|reflexivity].
  intros H. inversion H as [|? ? Hin _]; subst. apply Hin. now left.
Qed.

(** ** The [map_page] and [irq_pair] capabilities *)

Lemma kc_map_page_raises (st : kc_locals) (cap : json) :
  kc_map_page st cap = Err (Raised TypeError).
Proof. reflexivity. Qed.

(** C2 fails on the code: the [map_page] branch hands the reader the tag
    it has just built instead of the entry, so reading ["value"] raises a
    [TypeError] and no word is emitted, whatever the entry holds. *)
Theorem map_page_raises_type_error :
  (forall (st : kc_locals) (idx : Z) (cap : json),
      is_dict cap = true -> idx < 32 ->
      json_read_str cap ["type"%string] (-1) None = Ok "map_page"%string ->
      kc_entry st idx cap = Err (Raised TypeError))
  /\ write_kc map_page_example = Err (Raised TypeError).
Proof.
  split; [|reflexivity].
  intros st idx cap Hd Hidx Ht. unfold kc_entry. fold (is_dict cap).
  rewrite Hd. apply Z.ltb_lt in Hidx. rewrite Hidx, Ht. reflexivity.
Qed.

Lemma map_page_raises_type_error_witness :
  kc_entry (mkLocals new_writer None None) 0 (map_page_cap (JInt 0x1234))
  = Err (Raised TypeError).
Proof.
  refine (proj1 map_page_raises_type_error (mkLocals new_writer None None) 0
            (map_page_cap (JInt 0x1234)) _ _ _).
  - reflexivity.
  - lia.
  - reflexivity.
Defined.

(** C3 fails on the code: a slot that is not [None] is never read.  Before
    any [syscalls] entry the branch stops on an unassigned variable; after
    one it encodes the last syscall number in place of the slot (1 where the
    slot holds 5).  Two [None] slots give the two sentinels, and a list that
    has not 2 elements is refused. *)
Theorem irq_pair_slot_not_read :
  (forall (st : kc_locals) (cap : json) (slot0 slot1 : json),
      json_read_list cap ["value"%string] None = Ok [slot0; slot1] ->
      slot0 <> JNull \/ slot1 <> JNull ->
      kc_data st = None ->
      kc_irq_pair st cap = Err (Raised NameError))
  /\ write_kc irq_unbound_example = Err (Raised NameError)
  /\ write_kc irq_after_syscalls_example
     = Ok (at_end (le_bytes 4 (syscall_word 0 (2 ^ 1))
                   ++ le_bytes 4 (irq_word 1 0x3ff)))
  /\ le_bytes 4 (irq_word 1 0x3ff) <> le_bytes 4 (irq_word 5 0x3ff)
  /\ write_kc (kernel_caps_only [irq_pair_cap [JNull; JNull]])
     = Ok (at_end (le_bytes 4 (irq_word 0x3ff 0x3ff)))
  /\ write_kc (kernel_caps_only [irq_pair_cap [JNull]])
     = Err (Abort irq_pair_len_msg).
Proof.
  split; [|repeat split; try reflexivity; discriminate].
  intros st cap slot0 slot1 Hv Hslot Hdata. unfold kc_irq_pair.
  rewrite Hv. cbn [rbind len List.length Z.of_nat Pos.of_succ_nat Pos.succ
                   Z.eqb abort_unless for_enumerate].
  unfold irq_pair_item. rewrite Hdata.
  destruct slot0; try reflexivity.
  destruct slot1; try reflexivity.
  destruct Hslot as [H|H]; now elim H.
Qed.

Lemma irq_pair_slot_not_read_witness :
  kc_irq_pair (mkLocals new_writer None None) (irq_pair_cap [JInt 5; JNull])
  = Err (Raised NameError).
Proof.
  refine (proj1 irq_pair_slot_not_read (mkLocals new_writer None None)
            (irq_pair_cap [JInt 5; JNull]) (JInt 5) JNull _ _ _).
  - reflexivity.
  - left. discriminate.
  - reflexivity.
Defined.

(** ** Rejected configurations *)

Lemma for_each_fails {S A : Type} (body : S -> A -> res S) (x : A)
    (l : list A) :
  In x l -> (forall s, exists e, body s x = Err e) ->
  forall s, exists e, for_each body s l = Err e.
Proof.
  intros Hin Hx. induction l as [|a l IH]; intros s; [inversion Hin|].
  cbn [for_each]. destruct (body s a) as [s'|e] eqn:E; cbn [rbind].
  - destruct Hin as [->|Hin]; [|now apply IH].
    destruct (Hx s) as (e & He). congruence.
  - now exists e.
Qed.

Lemma for_enumerate_fails {S A : Type} (body : S -> Z -> A -> res S) (x : A)
    (l : list A) :
  In x l -> (forall s i, exists e, body s i x = Err e) ->
  forall i s, exists e, for_enumerate body i s l = Err e.
Proof.
  intros Hin Hx. induction l as [|a l IH]; intros i s; [inversion Hin|].
  cbn [for_enumerate]. destruct (body s i a) as [s'|e] eqn:E; cbn [rbind].
  - destruct Hin as [->|Hin]; [|now apply IH].
    destruct (Hx s i) as (e & He). congruence.
  - now exists e.
Qed.

Lemma for_enumerate_app {S A : Type} (body : S -> Z -> A -> res S)
    (l1 l2 : list A) :
  forall i s,
    for_enumerate body i s (l1 ++ l2)
    = (s' <- for_enumerate body i s l1;;
       for_enumerate body (i + len l1) s' l2).
Proof.
  induction l1 as [|a l1 IH]; intros i s.
  - cbn. now rewrite Z.add_0_r.
  - cbn [app for_enumerate]. destruct (body s i a) as [s'|e]; cbn [rbind].
    + rewrite IH, len_cons.
      now replace (i + (1 + len l1)) with (i + 1 + len l1) by lia.
    + reflexivity.
Qed.

Lemma kc_entry_32 (st : kc_locals) (cap : json) :
  exists e, kc_entry st 32 cap = Err e
            /\ (is_dict cap = true -> e = Abort too_many_msg).
Proof.
  unfold kc_entry. fold (is_dict cap). destruct (is_dict cap).
  - eexists. split; reflexivity.
  - eexists. split; [reflexivity | discriminate].
Qed.

(** The loop of [write_kc] cannot get past the entry of index 32. *)
Lemma kc_entries_too_many (caps : list json) :
  forall i st, i <= 32 < i + len caps ->
    exists e, for_enumerate kc_entry i st caps = Err e.
Proof.
  induction caps as [|cap caps IH]; intros i st Hi.
  - rewrite len_nil in Hi. lia.
  - rewrite len_cons in Hi. cbn [for_enumerate].
    destruct (Z.eq_dec i 32) as [->|Hne].
    + destruct (kc_entry_32 st cap) as (e & He & _). rewrite He. now exists e.
    + destruct (kc_entry st i cap) as [st'|e]; cbn [rbind].
      * apply IH. lia.
      * now exists e.
Qed.

Lemma main_fails_with_kc (contents : json) :
  (exists e, write_kc contents = Err e) -> exists e, main contents = Err e.
Proof.
  intros (e & He). unfold main.
  destruct (write_sac contents) as [sac|e']; cbn [rbind].
  - rewrite He. now exists e.
  - now exists e'.
Qed.

Lemma main_fails_with_sac (contents : json) :
  (exists e, write_sac contents = Err e) -> exists e, main contents = Err e.
Proof. intros (e & He). unfold main. rewrite He. now exists e. Qed.

Lemma write_kc_fails_with_entry (contents : json) (caps : list json)
    (cap : json) :
  json_read_list contents ["kernel_capabilities"%string] None = Ok caps ->
  In cap caps ->
  (forall st idx, exists e, kc_entry st idx cap = Err e) ->
  exists e, write_kc contents = Err e.
Proof.
  intros Hc Hin Hcap. unfold write_kc. rewrite Hc. cbn [rbind].
  destruct (for_enumerate_fails kc_entry cap caps Hin Hcap 0
              (mkLocals new_writer None None)) as (e & He).
  rewrite He. now exists e.
Qed.

Lemma kc_debug_flags_both (st : kc_locals) (cap : json)
    (value : list (string * json)) :
  json_read_dict cap ["value"%string] None = Ok value ->
  json_read_bool (JDict value) ["allow_debug"%string] (Some (JBool false))
  = Ok true ->
  json_read_bool (JDict value) ["force_debug"%string] (Some (JBool false))
  = Ok true ->
  exists e,
    kc_debug_flags st cap = Err e
    /\ ((exists b, json_read_bool (JDict value) ["force_debug_prod"%string]
                     (Some (JBool false)) = Ok b) ->
        e = Abort debug_flags_msg).
Proof.
  intros Hv Ha Hf. unfold kc_debug_flags. rewrite Hv. cbn [rbind].
  rewrite Ha. cbn [rbind]. rewrite Hf. cbn [rbind].
  destruct (json_read_bool (JDict value) ["force_debug_prod"%string]
              (Some (JBool false))) as [b|e]; cbn [rbind].
  - exists (Abort debug_flags_msg). split; [|reflexivity].
    destruct b; reflexivity.
  - exists e. split; [reflexivity|]. intros (b & Hb). discriminate.
Qed.

Lemma kc_entry_debug_flags_both (st : kc_locals) (idx : Z) (cap : json)
    (value : list (string * json)) :
  json_read_str cap ["type"%string] (-1) None = Ok "debug_flags"%string ->
  json_read_dict cap ["value"%string] None = Ok value ->
  json_read_bool (JDict value) ["allow_debug"%string] (Some (JBool false))
  = Ok true ->
  json_read_bool (JDict value) ["force_debug"%string] (Some (JBool false))
  = Ok true ->
  exists e,
    kc_entry st idx cap = Err e
    /\ (is_dict cap = true -> idx < 32 ->
        (exists b, json_read_bool (JDict value) ["force_debug_prod"%string]
                     (Some (JBool false)) = Ok b) ->
        e = Abort debug_flags_msg).
Proof.
  intros Ht Hv Ha Hf. unfold kc_entry. fold (is_dict cap).
  destruct (is_dict cap); cbn [abort_unless rbind];
    [|eexists; split; [reflexivity | discriminate]].
  destruct (Z.ltb_spec idx 32) as [Hidx|Hidx]; cbn [abort_unless rbind];
    [|eexists; split; [reflexivity | lia]].
  rewrite Ht. cbn [rbind].
  change (exists e, kc_debug_flags st cap = Err e
                    /\ (true = true -> idx < 32 ->
                        (exists b, json_read_bool (JDict value)
                                     ["force_debug_prod"%string]
                                     (Some (JBool false)) = Ok b) ->
                        e = Abort debug_flags_msg)).
  destruct (kc_debug_flags_both st cap value Hv Ha Hf) as (e & He & Hmsg).
  exists e. split; [exact He | auto].
Qed.

Lemma sac_entries_too_long (writer : BinaryWriter) (name : string) :
  strlen name = 9 ->
  sac_host_entry writer (JStr name) = Err (Abort services_len_msg)
  /\ sac_access_entry writer (JStr name) = Err (Abort services_len_msg).
Proof.
  intros H. unfold sac_host_entry, sac_access_entry. rewrite H.
  split; reflexivity.
Qed.

Lemma write_sac_fails_with_name (contents : json) (names : list json)
    (name : string) :
  json_read_list contents ["service_host"%string] None = Ok names
  \/ json_read_list contents ["service_access"%string] None = Ok names ->
  In (JStr name) names -> strlen name = 9 ->
  exists e, write_sac contents = Err e.
Proof.
  intros Hread Hin Hlen. unfold write_sac.
  destruct Hread as [Hh|Ha].
  - rewrite Hh. cbn [rbind].
    destruct (json_read_list contents ["service_access"%string] None)
      as [acc|e]; cbn [rbind]; [|now exists e].
    destruct (for_each_fails sac_host_entry (JStr name) names Hin
                (fun w => ex_intro _ _ (proj1 (sac_entries_too_long w name Hlen)))
                new_writer) as (e & He).
    rewrite He. now exists e.
  - destruct (json_read_list contents ["service_host"%string] None)
      as [hosted|e]; cbn [rbind]; [|now exists e].
    rewrite Ha. cbn [rbind].
    destruct (for_each sac_host_entry new_writer hosted) as [w|e];
      cbn [rbind]; [|now exists e].
    destruct (for_each_fails sac_access_entry (JStr name) names Hin
                (fun w => ex_intro _ _ (proj2 (sac_entries_too_long w name Hlen)))
                w) as (e & He).
    rewrite He. now exists e.
Qed.

(** C8: the build stops with an error, before anything is saved, on a
    list of 33 kernel capabilities (the message of the entry count, when the
    first 32 entries encode and the last is a dict), on a [debug_flags] entry
    with both [allow_debug] and [force_debug] set (the message of the
    exclusive flags, when the entry is reached within the first 32 and
    [force_debug_prod] reads as a boolean), and on a service name of 9
    characters in either list (the message of the name length, from the
    entry itself). *)
Theorem build_rejects :
  (forall (contents : json) (caps : list json),
      json_read_list contents ["kernel_capabilities"%string] None = Ok caps ->
      len caps = 33 ->
      (exists e, main contents = Err e)
      /\ (forall st d,
             for_enumerate kc_entry 0 (mkLocals new_writer None None)
               (firstn 32 caps) = Ok st ->
             nth 32 caps JNull = JDict d ->
             write_kc contents = Err (Abort too_many_msg)))
  /\ (forall (contents : json) (caps : list json) (cap : json)
             (value : list (string * json)),
         json_read_list contents ["kernel_capabilities"%string] None
         = Ok caps ->
         In cap caps ->
         json_read_str cap ["type"%string] (-1) None
         = Ok "debug_flags"%string ->
         json_read_dict cap ["value"%string] None = Ok value ->
         json_read_bool (JDict value) ["allow_debug"%string]
           (Some (JBool false)) = Ok true ->
         json_read_bool (JDict value) ["force_debug"%string]
           (Some (JBool false)) = Ok true ->
         (exists e, main contents = Err e)
         /\ (forall st idx,
                is_dict cap = true -> idx < 32 ->
                (exists b, json_read_bool (JDict value)
                             ["force_debug_prod"%string]
                             (Some (JBool false)) = Ok b) ->
                kc_entry st idx cap = Err (Abort debug_flags_msg)))
  /\ (forall (contents : json) (names : list json) (name : string),
         json_read_list contents ["service_host"%string] None = Ok names
         \/ json_read_list contents ["service_access"%string] None
            = Ok names ->
         In (JStr name) names ->
         strlen name = 9 ->
         (exists e, main contents = Err e)
         /\ (forall writer,
                sac_host_entry writer (JStr name)
                = Err (Abort services_len_msg)
                /\ sac_access_entry writer (JStr name)
                   = Err (Abort services_len_msg))).
Proof.
  split; [|split].
  - intros contents caps Hc Hlen. split.
    + apply main_fails_with_kc. unfold write_kc. rewrite Hc. cbn [rbind].
      destruct (kc_entries_too_many caps 0 (mkLocals new_writer None None))
        as (e & He); [lia|].
      rewrite He. now exists e.
    + intros st d Hfirst Hlast. unfold write_kc. rewrite Hc. cbn [rbind].
      rewrite <- (firstn_skipn 32 caps) at 1.
      rewrite for_enumerate_app, Hfirst. cbn [rbind].
      assert (Hl : len (firstn 32 caps) = 32).
      { unfold len in *. rewrite length_firstn. lia. }
      rewrite Hl.
      destruct (skipn 32 caps) as [|cap rest] eqn:Hs.
      * apply (f_equal (@List.length json)) in Hs.
        rewrite length_skipn in Hs. unfold len in Hlen. cbn in Hs. lia.
      * assert (Hcap : cap = JDict d).
        { rewrite <- Hlast, <- (firstn_skipn 32 caps), Hs.
          rewrite app_nth2; unfold len in Hl;
            [|rewrite length_firstn in *; lia].
          replace (32 - List.length (firstn 32 caps))%nat with 0%nat by lia.
          reflexivity. }
        subst cap. reflexivity.
  - intros contents caps cap value Hc Hin Ht Hv Ha Hf. split.
    + apply main_fails_with_kc.
      apply (write_kc_fails_with_entry contents caps cap Hc Hin).
      intros st idx.
      destruct (kc_entry_debug_flags_both st idx cap value Ht Hv Ha Hf)
        as (e & He & _).
      now exists e.
    + intros st idx Hd Hidx Hb.
      destruct (kc_entry_debug_flags_both st idx cap value Ht Hv Ha Hf)
        as (e & He & Hmsg).
      rewrite He. f_equal. now apply Hmsg.
  - intros contents names name Hread Hin Hlen. split.
    + apply main_fails_with_sac.
      exact (write_sac_fails_with_name contents names name Hread Hin Hlen).
    + intros writer. now apply sac_entries_too_long.
Qed.

Lemma build_rejects_witness :
  (exists e,
      main (example_config (repeat handle_table_cap 33) []
              [JStr "fsp-srv"] [JStr "hid"]) = Err e)
  /\ (exists e,
         main (example_config
                 [debug_flags_cap [("allow_debug"%string, JBool true);
                                   ("force_debug"%string, JBool true)]]
                 [] [JStr "fsp-srv"] [JStr "hid"]) = Err e)
  /\ (exists e,
         main (example_config [] [] [JStr "fsp-srv"] [JStr "123456789"])
         = Err e).
Proof.
  split; [|split].
  - refine (proj1 (proj1 build_rejects
                     (example_config (repeat handle_table_cap 33) []
                        [JStr "fsp-srv"] [JStr "hid"])
                     (repeat handle_table_cap 33) _ _)).
    + reflexivity.
    + reflexivity.
  - refine (proj1 (proj1 (proj2 build_rejects)
                     (example_config
                        [debug_flags_cap [("allow_debug"%string, JBool true);
                                          ("force_debug"%string, JBool true)]]
                        [] [JStr "fsp-srv"] [JStr "hid"])
                     [debug_flags_cap [("allow_debug"%string, JBool true);
                                       ("force_debug"%string, JBool true)]]
                     (debug_flags_cap [("allow_debug"%string, JBool true);
                                       ("force_debug"%string, JBool true)])
                     [("allow_debug"%string, JBool true);
                      ("force_debug"%string, JBool true)]
                     _ _ _ _ _ _)).
    + reflexivity.
    + now left.
    + reflexivity.
    + reflexivity.
    + reflexivity.
    + reflexivity.
  - refine (proj1 (proj2 (proj2 build_rejects)
                     (example_config [] [] [JStr "fsp-srv"]
                        [JStr "123456789"])
                     [JStr "123456789"] "123456789"%string _ _ _)).
    + right. reflexivity.
    + now left.
    + reflexivity.
Defined.

(** ** Resolving patches *)

Lemma len_zeros_max (n : Z) : len (zeros n) = Z.max 0 n.
Proof. unfold len, zeros. rewrite repeat_length. lia. Qed.

(** Two writes one after the other are one write of both. *)
Lemma patch_patch (s : list Z) (p q : Z) (a b : list Z) :
  0 <= p -> q = p + len a -> q + len b <= len s ->
  patch (patch s p a) q b = patch s p (a ++ b).
Proof.
  intros Hp -> Hin.
  pose proof (len_nonneg a) as Ha. pose proof (len_nonneg b) as Hb.
  set (a0 := firstn (Z.to_nat p) s).
  set (r0 := skipn (Z.to_nat p) s).
  set (oa := firstn (Z.to_nat (len a)) r0).
  set (r1 := skipn (Z.to_nat (len a)) r0).
  set (ob := firstn (Z.to_nat (len b)) r1).
  set (r := skipn (Z.to_nat (len b)) r1).
  assert (Hs : s = a0 ++ oa ++ ob ++ r).
  { unfold a0, oa, ob, r, r1, r0. now rewrite !firstn_skipn. }
  assert (Ha0 : len a0 = p) by (apply len_firstn; lia).
  assert (Hr0 : len r0 = len s - p) by (apply len_skipn; lia).
  assert (Hoa : len oa = len a) by (apply len_firstn; lia).
  assert (Hr1 : len r1 = len s - p - len a)
    by (unfold r1; rewrite len_skipn; lia).
  assert (Hob : len ob = len b) by (apply len_firstn; lia).
  rewrite (patch_mid s a0 oa (ob ++ r) a p Hs Ha0 Hoa).
  rewrite (patch_mid (a0 ++ a ++ ob ++ r) (a0 ++ a) ob r b (p + len a)).
  - rewrite (patch_mid s a0 (oa ++ ob) r (a ++ b) p).
    + now rewrite <- !app_assoc.
    + now rewrite <- !app_assoc.
    + exact Ha0.
    + rewrite !len_app. lia.
  - now rewrite <- !app_assoc.
  - rewrite len_app. lia.
  - exact Hob.
Qed.

Lemma write_u32_at_end_Ok (s : list Z) (v : Z) (w : BinaryWriter) :
  write_u32 (at_end s) v = Ok w ->
  w = at_end (s ++ le_bytes 4 v) /\ 0 <= v < 2 ^ 32.
Proof. apply _write_at_end_Ok. Qed.

Lemma write_u64_at_end_Ok (s : list Z) (v : Z) (w : BinaryWriter) :
  write_u64 (at_end s) v = Ok w ->
  w = at_end (s ++ le_bytes 8 v) /\ 0 <= v < 2 ^ 64.
Proof. apply _write_at_end_Ok. Qed.

Lemma write_u8_at_end_Ok (s : list Z) (v : Z) (w : BinaryWriter) :
  write_u8 (at_end s) v = Ok w ->
  w = at_end (s ++ le_bytes 1 v) /\ 0 <= v < 2 ^ 8.
Proof. apply _write_at_end_Ok. Qed.

Lemma write_u32_inside_Ok (s : list Z) (p v : Z) (w : BinaryWriter) :
  0 <= p -> p + 4 <= len s ->
  write_u32 (mkWriter s p) v = Ok w ->
  w = mkWriter (patch s p (le_bytes 4 v)) (p + 4) /\ 0 <= v < 2 ^ 32.
Proof. intros Hp Hin. now apply _write_inside_Ok. Qed.

Lemma write_bytes_at_end_Ok (s raw : list Z) (w : BinaryWriter) :
  write_bytes (at_end s) raw = Ok w -> w = at_end (s ++ raw).
Proof.
  unfold write_bytes. rewrite write_at_end. now intros [= <-].
Qed.

Lemma write_sub_at_end_Ok (s : list Z) (other w : BinaryWriter) :
  write_sub (at_end s) other = Ok w -> w = at_end (s ++ stream other).
Proof. apply write_bytes_at_end_Ok. Qed.

Lemma write_string_at_end_Ok (s : list Z) (value : string) (w : BinaryWriter) :
  is_ascii value = true ->
  write_string (at_end s) value (-1) = Ok w ->
  w = at_end (s ++ ascii_codes value).
Proof. intros Ha. rewrite write_string_at_end by exact Ha. now intros [= <-]. Qed.

Lemma align_at_end_Ok (s : list Z) (a : Z) (w : BinaryWriter) :
  0 < a -> align (at_end s) a = Ok w ->
  w = at_end (s ++ zeros (padding a (len s))).
Proof. intros Ha. rewrite align_at_end by exact Ha. now intros [= <-]. Qed.

Lemma seek_at_end_inside (s : list Z) (off : Z) :
  off <= len s -> seek (at_end s) off false = mkWriter s off.
Proof. apply seek_inside. Qed.

Lemma seek_to_end (s : list Z) (p off : Z) :
  off = len s -> seek (mkWriter s p) off false = at_end s.
Proof. intros ->. rewrite seek_inside by lia. reflexivity. Qed.

(** Lengths of concatenations, and one step through a bind that
    succeeded. *)
Ltac len_norm :=
  rewrite ?len_app, ?len_zeros_max, ?len_le_bytes, ?len_cons, ?len_nil.

Ltac bind_step H x Hx :=
  apply rbind_Ok in H; destruct H as (x & Hx & H); cbv beta in H.

Ltac fields_eq :=
  repeat (apply f_equal2; [apply (f_equal (le_bytes 4)); lia|]);
  apply (f_equal (le_bytes 4)); lia.

(** ** Slices *)

Lemma slice_mid (s a m b : list Z) (off n : Z) :
  s = a ++ m ++ b -> len a = off -> len m = n -> slice s off n = m.
Proof.
  intros -> <- <-. unfold slice, len. rewrite !Nat2Z.id.
  rewrite skipn_app, skipn_all, Nat.sub_diag. cbn [skipn app].
  rewrite firstn_app, firstn_all, Nat.sub_diag. cbn [firstn].
  apply app_nil_r.
Qed.

(** ** Dicts *)

Lemma assoc_dict_put (key k : string) (v : json) (d : list (string * json)) :
  assoc k (dict_put key v d) = if String.eqb key k then Some v else assoc k d.
Proof.
  induction d as [|[k0 x] d IH]; cbn [dict_put assoc].
  - destruct (String.eqb_spec key k); reflexivity.
  - destruct (String.eqb_spec k0 key) as [->|Hne]; cbn [assoc].
    + destruct (String.eqb_spec key k); reflexivity.
    + destruct (String.eqb_spec k0 k) as [->|Hne'].
      * destruct (String.eqb_spec key k); [congruence | reflexivity].
      * exact IH.
Qed.

Lemma find_key_dict_put (key : string) (v : json) (d : list (string * json))
    (keys : list string) :
  forallb (fun k => negb (String.eqb key k)) keys = true ->
  find_key (JDict (dict_put key v d)) keys = find_key (JDict d) keys.
Proof.
  induction keys as [|k keys IH]; cbn [forallb find_key]; intros H.
  - reflexivity.
  - apply andb_prop in H as [Hk Hrest].
    unfold contains, getitem. rewrite assoc_dict_put.
    destruct (String.eqb key k); [discriminate|].
    now rewrite (IH Hrest).
Qed.

Lemma json_read_value_dict_put (key : string) (v : json)
    (d : list (string * json)) (keys : list string) (default : option json) :
  forallb (fun k => negb (String.eqb key k)) keys = true ->
  json_read_value (JDict (dict_put key v d)) keys default
  = json_read_value (JDict d) keys default.
Proof.
  intros H. unfold json_read_value. now rewrite find_key_dict_put.
Qed.

Lemma json_read_dict_put_same (key : string) (fs : list (string * json))
    (d : list (string * json)) :
  json_read_dict (JDict (dict_put key (JDict fs) d)) [key] None = Ok fs.
Proof.
  unfold json_read_dict, json_read_value. cbn [find_key contains getitem].
  rewrite assoc_dict_put, String.eqb_refl. reflexivity.
Qed.

Lemma json_read_dict_assoc (key : string) (fs : list (string * json))
    (d : list (string * json)) :
  assoc key d = Some (JDict fs) -> json_read_dict (JDict d) [key] None = Ok fs.
Proof.
  intros H. unfold json_read_dict, json_read_value.
  cbn [find_key contains getitem]. rewrite H. reflexivity.
Qed.

Lemma write_acid_owner_lists (d : list (string * json)) (coi sdoi : json)
    (sac kc : BinaryWriter) :
  write_acid (with_owner_lists d coi sdoi) sac kc = write_acid (JDict d) sac kc.
Proof.
  unfold with_owner_lists.
  destruct (assoc "filesystem_access" d) as [[| | | | | |fs]|] eqn:Hfs;
    try reflexivity.
  unfold write_acid, json_read_u64, json_read_bool, json_read_int.
  rewrite !json_read_value_dict_put by reflexivity.
  rewrite json_read_dict_put_same, (json_read_dict_assoc _ fs d Hfs).
  cbn [rbind].
  rewrite !json_read_value_dict_put by reflexivity.
  reflexivity.
Qed.

(** ** The ACID region *)

Lemma len_ACID : len (ascii_codes "ACID") = 4.
Proof. reflexivity. Qed.

Lemma write_acid_layout (contents : json) (sac kc w : BinaryWriter) :
  write_acid contents sac kc = Ok w ->
  exists flags pmin pmax perm,
    stream w = acid_image flags pmin pmax perm (stream sac) (stream kc).
Proof.
  intros H. unfold write_acid in H. cbv zeta in H.
  rewrite new_writer_at_end in H.
  bind_step H x Hx. apply write_bytes_at_end_Ok in Hx. subst x.
  bind_step H x Hx. apply write_bytes_at_end_Ok in Hx. subst x.
  bind_step H x Hx. apply write_string_at_end_Ok in Hx; [|reflexivity]. subst x.
  rewrite !seek_rel_at_end in H by lia.
  bind_step H is_retail Hretail.
  bind_step H unq Hunq.
  bind_step H pool Hpool.
  match type of H with
  | context [write_u32 _ ?f] => remember f as flags eqn:Hflags
  end.
  bind_step H x Hx. apply write_u32_at_end_Ok in Hx as [-> _].
  bind_step H pmin Hpmin.
  bind_step H x Hx. apply write_u64_at_end_Ok in Hx as [-> _].
  bind_step H pmax Hpmax.
  bind_step H x Hx. apply write_u64_at_end_Ok in Hx as [-> _].
  rewrite !seek_rel_at_end in H by lia.
  bind_step H fs Hfs.
  bind_step H perm Hperm.
  exists flags, pmin, pmax, perm.
  match type of H with
  | context [write_u8 (at_end ?s) 1] => remember s as hdr eqn:Hhdr
  end.
  assert (Lhdr : len hdr = 0x240).
  { subst hdr. len_norm. rewrite len_ACID. reflexivity. }
  rewrite !position_at_end, Lhdr in H.
  bind_step H x Hx. apply write_u8_at_end_Ok in Hx as [-> _].
  bind_step H x Hx. apply write_u8_at_end_Ok in Hx as [-> _].
  bind_step H x Hx. apply write_u8_at_end_Ok in Hx as [-> _].
  rewrite seek_at_end in H by (len_norm; lia).
  match type of H with
  | context [zeros (?a + 4 - ?l)] =>
      replace (a + 4 - l) with 1 in H by (len_norm; lia)
  end.
  bind_step H x Hx. apply write_u64_at_end_Ok in Hx as [-> _].
  bind_step H x Hx. apply write_u64_at_end_Ok in Hx as [-> _].
  bind_step H x Hx. apply write_u64_at_end_Ok in Hx as [-> _].
  bind_step H x Hx. apply write_u64_at_end_Ok in Hx as [-> _].
  bind_step H x Hx. apply write_u64_at_end_Ok in Hx as [-> _].
  match type of H with
  | context [align (at_end ?s) _] => remember s as fac eqn:Hfac
  end.
  assert (Lfac : len fac = 0x26c).
  { subst fac. len_norm. lia. }
  rewrite !position_at_end, Lfac in H.
  bind_step H x Hx. apply align_at_end_Ok in Hx; [|lia]. subst x.
  rewrite Lfac in H. change (padding 16 620) with 4 in H.
  rewrite !position_at_end in H.
  rewrite seek_at_end in H by lia. rewrite Z.sub_diag, zeros_0, app_nil_r in H.
  bind_step H x Hx. apply write_sub_at_end_Ok in Hx. subst x.
  assert (Lsac : len ((fac ++ zeros 4) ++ stream sac) = 0x270 + len (stream sac)).
  { len_norm. lia. }
  bind_step H x Hx. apply align_at_end_Ok in Hx; [|lia]. subst x.
  rewrite Lsac in H.
  rewrite !position_at_end in H.
  rewrite seek_at_end in H by lia. rewrite Z.sub_diag, zeros_0, app_nil_r in H.
  bind_step H x Hx. apply write_sub_at_end_Ok in Hx. subst x.
  pose proof (padding_range 16 (624 + len (stream sac)) ltac:(lia)) as Hpad.
  pose proof (len_nonneg (stream sac)) as Hsac0.
  pose proof (len_nonneg (stream kc)) as Hkc0.
  match type of H with
  | context [seek (at_end ?s) 516 false] => remember s as body eqn:Hbody
  end.
  assert (Lbody : len body = acid_kc_offset (stream sac) + len (stream kc)).
  { subst body. unfold acid_kc_offset. len_norm. rewrite Lfac. lia. }
  assert (Ebody : body = acid_layout (zeros 4) (zeros 24) flags pmin pmax perm
                           (stream sac) (stream kc)).
  { subst body fac hdr. unfold acid_layout, acid_fac.
    change (zeros 32) with (zeros 24 ++ zeros 8).
    rewrite <- !app_assoc. reflexivity. }
  assert (Lkco : len (((fac ++ zeros 4) ++ stream sac)
                      ++ zeros (padding 16 (624 + len (stream sac))))
                 = acid_kc_offset (stream sac)).
  { unfold acid_kc_offset. len_norm. rewrite Lfac. lia. }
  rewrite !position_at_end, ?Lbody, ?Lkco, ?Lfac, ?Lsac in H.
  unfold acid_kc_offset in Lbody.
  rewrite seek_at_end_inside in H by lia.
  bind_step H x Hx. apply write_u32_inside_Ok in Hx as [-> _]; [|lia|lia].
  rewrite seek_inside in H by (rewrite len_patch; len_norm; lia).
  replace (len (fac ++ zeros 4)) with 624 in H by (len_norm; lia).
  change (620 - 576) with 44 in H.
  match type of H with
  | context [patch body 516 ?raw] =>
      rewrite (patch_mid body
                 (zeros 0x100 ++ zeros 0x100 ++ ascii_codes "ACID") (zeros 4)
                 (zeros 4 ++ le_bytes 4 flags ++ le_bytes 8 pmin
                  ++ le_bytes 8 pmax ++ (zeros 24) ++ zeros 8
                  ++ acid_fac perm ++ zeros 4 ++ stream sac
                  ++ zeros (padding 0x10 (0x270 + len (stream sac)))
                  ++ stream kc) raw 516) in H;
      [ remember raw as size_field eqn:Hsize
      | rewrite Ebody; unfold acid_layout; now rewrite <- !app_assoc
      | reflexivity
      | reflexivity ]
  end.
  match type of H with
  | context [write_u32 (mkWriter ?s 544) _] => remember s as b1 eqn:Hb1
  end.
  assert (Lb1 : len b1 = len body).
  { subst b1 size_field. rewrite Ebody. unfold acid_layout, acid_fac.
    len_norm. lia. }
  rewrite Lbody in Lb1.
  bind_step H x Hx. apply write_u32_inside_Ok in Hx as [-> _]; [|lia|lia].
  bind_step H x Hx.
  apply write_u32_inside_Ok in Hx as [-> _];
    [|lia|rewrite len_patch; len_norm; lia].
  rewrite patch_patch in H by (len_norm; lia).
  bind_step H x Hx.
  apply write_u32_inside_Ok in Hx as [-> _];
    [|lia|rewrite len_patch; len_norm; lia].
  rewrite patch_patch in H by (len_norm; lia).
  bind_step H x Hx.
  apply write_u32_inside_Ok in Hx as [-> _];
    [|lia|rewrite len_patch; len_norm; lia].
  rewrite patch_patch in H by (len_norm; lia).
  bind_step H x Hx.
  apply write_u32_inside_Ok in Hx as [-> _];
    [|lia|rewrite len_patch; len_norm; lia].
  rewrite patch_patch in H by (len_norm; lia).
  bind_step H x Hx.
  apply write_u32_inside_Ok in Hx as [-> _];
    [|lia|rewrite len_patch; len_norm; lia].
  rewrite patch_patch in H by (len_norm; lia).
  injection H as <-. cbn [stream].
  change (patch b1 544 (acid_table (stream sac) (stream kc))
          = acid_image flags pmin pmax perm (stream sac) (stream kc)).
  rewrite (patch_mid b1
             (zeros 0x100 ++ zeros 0x100 ++ ascii_codes "ACID" ++ size_field
              ++ zeros 4 ++ le_bytes 4 flags ++ le_bytes 8 pmin
              ++ le_bytes 8 pmax)
             (zeros 24)
             (zeros 8 ++ acid_fac perm ++ zeros 4 ++ stream sac
              ++ zeros (padding 0x10 (0x270 + len (stream sac)))
              ++ stream kc)
             (acid_table (stream sac) (stream kc)) 544).
  - subst size_field. unfold acid_image, acid_layout.
    now rewrite <- !app_assoc.
  - subst b1. now rewrite <- !app_assoc.
  - subst size_field. len_norm. reflexivity.
  - reflexivity.
Qed.

(** C10: whatever the configuration holds, the filesystem access control
    block of the ACID region (at 0x240) is the version byte 1, a content
    owner id count of 0, a save data owner id count of 0 and a padding byte,
    and after the permissions its four 64-bit minimum and maximum id fields
    (at 0x24c) are zero; and the region does not change when the owner lists
    of the configuration are replaced by any others: they only reach the
    ACI0 region. *)
Theorem acid_owner_fields_zero :
  (forall (contents : json) (sac kc w : BinaryWriter),
      write_acid contents sac kc = Ok w ->
      slice (stream w) 0x240 4 = [1; 0; 0; 0]
      /\ slice (stream w) 0x24c 0x20 = zeros 0x20)
  /\ (forall (d : list (string * json)) (coi sdoi : json)
             (sac kc : BinaryWriter),
         write_acid (with_owner_lists d coi sdoi) sac kc
         = write_acid (JDict d) sac kc).
Proof.
  split; [|exact write_acid_owner_lists].
  intros contents sac kc w H.
  destruct (write_acid_layout contents sac kc w H)
    as (flags & pmin & pmax & perm & ->).
  unfold acid_image, acid_layout, acid_fac. split.
  - apply (slice_mid _
             (zeros 0x100 ++ zeros 0x100 ++ ascii_codes "ACID"
              ++ le_bytes 4 (acid_kc_offset (stream sac) + len (stream kc)
                             - 0x100)
              ++ zeros 4 ++ le_bytes 4 flags ++ le_bytes 8 pmin
              ++ le_bytes 8 pmax ++ acid_table (stream sac) (stream kc)
              ++ zeros 8)
             (le_bytes 1 1 ++ le_bytes 1 0 ++ le_bytes 1 0 ++ zeros 1)
             (le_bytes 8 perm ++ le_bytes 8 0 ++ le_bytes 8 0 ++ le_bytes 8 0
              ++ le_bytes 8 0 ++ zeros 4 ++ stream sac
              ++ zeros (padding 0x10 (0x270 + len (stream sac)))
              ++ stream kc)).
    + now rewrite <- !app_assoc.
    + unfold acid_table. len_norm. reflexivity.
    + reflexivity.
  - apply (slice_mid _
             (zeros 0x100 ++ zeros 0x100 ++ ascii_codes "ACID"
              ++ le_bytes 4 (acid_kc_offset (stream sac) + len (stream kc)
                             - 0x100)
              ++ zeros 4 ++ le_bytes 4 flags ++ le_bytes 8 pmin
              ++ le_bytes 8 pmax ++ acid_table (stream sac) (stream kc)
              ++ zeros 8
              ++ le_bytes 1 1 ++ le_bytes 1 0 ++ le_bytes 1 0 ++ zeros 1
              ++ le_bytes 8 perm)
             (le_bytes 8 0 ++ le_bytes 8 0 ++ le_bytes 8 0 ++ le_bytes 8 0)
             (zeros 4 ++ stream sac
              ++ zeros (padding 0x10 (0x270 + len (stream sac)))
              ++ stream kc)).
    + now rewrite <- !app_assoc.
    + unfold acid_table. len_norm. reflexivity.
    + reflexivity.
Qed.

(** ** The ACI0 region *)

Lemma count_prefix_Ok (s : list Z) (n : Z) (w : BinaryWriter) :
  (if n =? 0 then Ok (at_end s) else write_u32 (at_end s) n) = Ok w ->
  w = at_end (s ++ count_prefix n).
Proof.
  unfold count_prefix. destruct (n =? 0).
  - intros [= <-]. now rewrite app_nil_r.
  - intros H. now apply write_u32_at_end_Ok in H as [-> _].
Qed.

Lemma for_each_coi_Ok (l : list json) :
  forall s w,
    for_each aci_coi_entry (at_end s) l = Ok w ->
    exists vals,
      Forall2 (fun c v => int_of_json c = Ok v) l vals
      /\ w = at_end (s ++ flat_map (le_bytes 8) vals).
Proof.
  induction l as [|c l IH]; intros s w H.
  - injection H as <-. exists []. split; [constructor|].
    cbn. now rewrite app_nil_r.
  - cbn [for_each] in H. apply rbind_Ok in H as (x & Hx & H).
    unfold aci_coi_entry in Hx. apply rbind_Ok in Hx as (v & Hv & Hx).
    apply rbind_Ok in Hx as (u & _ & Hx).
    apply write_u64_at_end_Ok in Hx as [-> _].
    destruct (IH _ _ H) as (vals & Hvals & ->).
    exists (v :: vals). split; [now constructor|].
    cbn [flat_map]. now rewrite <- app_assoc.
Qed.

Lemma for_each_write_u8_Ok (l : list Z) :
  forall s w,
    for_each write_u8 (at_end s) l = Ok w ->
    w = at_end (s ++ flat_map (le_bytes 1) l).
Proof.
  induction l as [|v l IH]; intros s w H.
  - injection H as <-. cbn. now rewrite app_nil_r.
  - cbn [for_each] in H. apply rbind_Ok in H as (x & Hx & H).
    apply write_u8_at_end_Ok in Hx as [-> _].
    rewrite (IH _ _ H). cbn [flat_map]. now rewrite <- app_assoc.
Qed.

Lemma for_each_write_u64_Ok (l : list Z) :
  forall s w,
    for_each write_u64 (at_end s) l = Ok w ->
    w = at_end (s ++ flat_map (le_bytes 8) l).
Proof.
  induction l as [|v l IH]; intros s w H.
  - injection H as <-. cbn. now rewrite app_nil_r.
  - cbn [for_each] in H. apply rbind_Ok in H as (x & Hx & H).
    apply write_u64_at_end_Ok in Hx as [-> _].
    rewrite (IH _ _ H). cbn [flat_map]. now rewrite <- app_assoc.
Qed.

Lemma len_ACI0 : len (ascii_codes "ACI0") = 4.
Proof. reflexivity. Qed.

Lemma Forall2_len {A B : Type} (R : A -> B -> Prop) (l : list A)
    (l' : list B) :
  Forall2 R l l' -> len l = len l'.
Proof. intros H. unfold len. now rewrite (Forall2_length H). Qed.

Lemma write_aci_layout (contents : json) (sac kc w : BinaryWriter) :
  write_aci contents sac kc = Ok w ->
  exists fs coi vals pid perm sdoi,
    json_read_dict contents ["filesystem_access"%string] None = Ok fs
    /\ json_read_list (JDict fs) ["content_owner_ids"%string]
         (Some (JList [])) = Ok coi
    /\ Forall2 (fun c v => int_of_json c = Ok v) coi vals
    /\ stream w
       = aci_image pid perm (coi_table vals) sdoi (stream sac) (stream kc).
Proof.
  intros H. unfold write_aci in H. cbv zeta in H.
  rewrite new_writer_at_end in H.
  bind_step H fs Hfs.
  bind_step H coi Hcoi.
  bind_step H sdoi_list Hsdoi.
  bind_step H perm Hperm.
  bind_step H x Hx. apply write_string_at_end_Ok in Hx; [|reflexivity]. subst x.
  rewrite !seek_rel_at_end in H by lia.
  bind_step H pid Hpid.
  bind_step H x Hx. apply write_u64_at_end_Ok in Hx as [-> _].
  rewrite !seek_rel_at_end in H by lia.
  match type of H with
  | context [write_u32 (at_end ?s) 1] => remember s as hdr eqn:Hhdr
  end.
  assert (Lhdr : len hdr = 0x40).
  { subst hdr. len_norm. rewrite len_ACI0. reflexivity. }
  rewrite !position_at_end, Lhdr in H.
  bind_step H x Hx. apply write_u32_at_end_Ok in Hx as [-> _].
  bind_step H x Hx. apply write_u64_at_end_Ok in Hx as [-> _].
  rewrite !seek_rel_at_end in H by lia.
  match type of H with
  | context [write_u32 (at_end ?s) (len coi)] => remember s as fah eqn:Hfah
  end.
  assert (Lfah : len fah = 0x5c).
  { subst fah. len_norm. lia. }
  rewrite !position_at_end, Lfah in H.
  bind_step H x Hx. apply count_prefix_Ok in Hx. subst x.
  bind_step H x Hx. apply for_each_coi_Ok in Hx as (vals & Hvals & ->).
  rewrite (Forall2_len _ _ _ Hvals) in H.
  rewrite <- app_assoc in H. fold (coi_table vals) in H.
  exists fs, coi, vals, pid, perm.
  bind_step H x Hx. apply count_prefix_Ok in Hx. subst x.
  bind_step H lists Hlists. destruct lists as [accs ids].
  bind_step H x Hx. apply for_each_write_u8_Ok in Hx. subst x.
  bind_step H x Hx. apply align_at_end_Ok in Hx; [|lia]. subst x.
  bind_step H x Hx. apply for_each_write_u64_Ok in Hx. subst x.
  rewrite <- !(app_assoc (fah ++ coi_table vals)) in H.
  match type of H with
  | context [at_end ((fah ++ coi_table vals) ++ ?b)] =>
      remember b as sdoi eqn:Hsdoi_bytes
  end.
  clear Hsdoi_bytes. exists sdoi.
  split; [exact Hfs|]. split; [exact Hcoi|]. split; [exact Hvals|].
  set (cb := coi_table vals) in *.
  pose proof (len_nonneg cb) as Hcb0.
  pose proof (len_nonneg sdoi) as Hsd0.
  pose proof (len_nonneg (stream sac)) as Hsac0.
  pose proof (len_nonneg (stream kc)) as Hkc0.
  assert (Lpre : len ((fah ++ cb) ++ sdoi) = 0x5c + len cb + len sdoi).
  { len_norm. lia. }
  rewrite !position_at_end, ?Lpre in H.
  replace (len (fah ++ cb)) with (0x5c + len cb) in H by (len_norm; lia).
  rewrite seek_at_end_inside in H by lia.
  assert (Epre : (fah ++ cb) ++ sdoi
                 = (ascii_codes "ACI0" ++ zeros 0xc ++ le_bytes 8 pid
                    ++ zeros 8 ++ zeros 24 ++ zeros 8
                    ++ le_bytes 4 1 ++ le_bytes 8 perm)
                   ++ zeros 16 ++ cb ++ sdoi).
  { subst fah hdr. change (zeros 32) with (zeros 24 ++ zeros 8).
    now rewrite <- !app_assoc. }
  remember ((fah ++ cb) ++ sdoi) as pre eqn:Hpre.
  bind_step H x Hx. apply write_u32_inside_Ok in Hx as [-> _]; [|lia|lia].
  bind_step H x Hx.
  apply write_u32_inside_Ok in Hx as [-> _];
    [|lia|rewrite len_patch; len_norm; lia].
  rewrite patch_patch in H by (len_norm; lia).
  bind_step H x Hx.
  apply write_u32_inside_Ok in Hx as [-> _];
    [|lia|rewrite len_patch; len_norm; lia].
  rewrite patch_patch in H by (len_norm; lia).
  bind_step H x Hx.
  apply write_u32_inside_Ok in Hx as [-> _];
    [|lia|rewrite len_patch; len_norm; lia].
  rewrite patch_patch in H by (len_norm; lia).
  match type of H with
  | context [patch pre _ ?raw] =>
      replace raw with (aci_fah_fields cb sdoi) in H
        by (unfold aci_fah_fields; rewrite <- !app_assoc; fields_eq)
  end.
  rewrite (patch_mid pre _ _ _ (aci_fah_fields cb sdoi) _ Epre) in H
    by reflexivity.
  match type of H with
  | context [seek (mkWriter ?s _) _ false] => remember s as fahs eqn:Hfahs
  end.
  assert (Lfahs : len fahs = 0x5c + len cb + len sdoi).
  { subst fahs. rewrite <- Lpre, Epre. unfold aci_fah_fields. len_norm. lia. }
  rewrite seek_to_end in H by lia.
  bind_step H x Hx. apply align_at_end_Ok in Hx; [|lia]. subst x.
  rewrite Lfahs in H.
  bind_step H x Hx. apply write_sub_at_end_Ok in Hx. subst x.
  bind_step H x Hx. apply align_at_end_Ok in Hx; [|lia]. subst x.
  bind_step H x Hx. apply write_sub_at_end_Ok in Hx. subst x.
  pose proof (padding_range 16 (92 + len cb + len sdoi) ltac:(lia)) as Hpad1.
  assert (Lsaco : len (fahs ++ zeros (padding 16 (92 + len cb + len sdoi)))
                  = aci_sac_offset cb sdoi).
  { unfold aci_sac_offset. len_norm. lia. }
  assert (Lsace : len ((fahs ++ zeros (padding 16 (92 + len cb + len sdoi)))
                       ++ stream sac)
                  = aci_sac_offset cb sdoi + len (stream sac)).
  { rewrite len_app, Lsaco. reflexivity. }
  rewrite !position_at_end, ?Lsace, ?Lsaco in H.
  pose proof (padding_range 16 (aci_sac_offset cb sdoi + len (stream sac))
                ltac:(lia)) as Hpad2.
  match type of H with
  | context [seek (at_end ?s) 32 false] => remember s as body eqn:Hbody
  end.
  assert (Lbody : len body = aci_kc_offset cb sdoi (stream sac)
                             + len (stream kc)).
  { subst body. unfold aci_kc_offset. rewrite len_app, len_app, Lsace.
    len_norm. lia. }
  assert (Lkco : len (((fahs ++ zeros (padding 16 (92 + len cb + len sdoi)))
                       ++ stream sac)
                      ++ zeros (padding 16 (aci_sac_offset cb sdoi
                                            + len (stream sac))))
                 = aci_kc_offset cb sdoi (stream sac)).
  { unfold aci_kc_offset. rewrite len_app, Lsace. len_norm. lia. }
  rewrite ?Lbody, ?Lkco in H.
  replace (92 + len cb + len sdoi - 64) with (0x1c + len cb + len sdoi) in H
    by lia.
  assert (Hge : 0x5c <= len body).
  { assert (0x5c <= aci_sac_offset cb sdoi)
      by (unfold aci_sac_offset; lia).
    rewrite Lbody. unfold aci_kc_offset. lia. }
  rewrite seek_at_end_inside in H by lia.
  bind_step H x Hx. apply write_u32_inside_Ok in Hx as [-> _]; [|lia|lia].
  bind_step H x Hx.
  apply write_u32_inside_Ok in Hx as [-> _];
    [|lia|rewrite len_patch; len_norm; lia].
  rewrite patch_patch in H by (len_norm; lia).
  bind_step H x Hx.
  apply write_u32_inside_Ok in Hx as [-> _];
    [|lia|rewrite len_patch; len_norm; lia].
  rewrite patch_patch in H by (len_norm; lia).
  bind_step H x Hx.
  apply write_u32_inside_Ok in Hx as [-> _];
    [|lia|rewrite len_patch; len_norm; lia].
  rewrite patch_patch in H by (len_norm; lia).
  bind_step H x Hx.
  apply write_u32_inside_Ok in Hx as [-> _];
    [|lia|rewrite len_patch; len_norm; lia].
  rewrite patch_patch in H by (len_norm; lia).
  bind_step H x Hx.
  apply write_u32_inside_Ok in Hx as [-> _];
    [|lia|rewrite len_patch; len_norm; lia].
  rewrite patch_patch in H by (len_norm; lia).
  injection H as <-. cbn [stream].
  change (patch body 32 (aci_table cb sdoi (stream sac) (stream kc))
          = aci_image pid perm cb sdoi (stream sac) (stream kc)).
  rewrite (patch_mid body
             (ascii_codes "ACI0" ++ zeros 12 ++ le_bytes 8 pid ++ zeros 8)
             (zeros 24)
             (zeros 8 ++ le_bytes 4 1 ++ le_bytes 8 perm
              ++ aci_fah_fields cb sdoi ++ cb ++ sdoi
              ++ zeros (padding 0x10 (0x5c + len cb + len sdoi))
              ++ stream sac
              ++ zeros (padding 0x10 (aci_sac_offset cb sdoi
                                      + len (stream sac)))
              ++ stream kc)
             (aci_table cb sdoi (stream sac) (stream kc)) 32).
  - unfold aci_image, aci_layout. now rewrite <- !app_assoc.
  - subst body fahs. now rewrite <- !app_assoc.
  - len_norm. reflexivity.
  - reflexivity.
Qed.

(** C9: in the filesystem access header of the ACI0 region the content
    owner id table starts at 0x5c (offset 0x1c in the header, recorded at
    0x4c), its recorded size (at 0x50) is the number of bytes written for it,
    and the save data owner id table starts right behind it (offset recorded
    at 0x54).  An empty list writes nothing at all, not even a count; a list
    of one id writes the 32-bit count 1 and the 64-bit id, 12 bytes. *)
Theorem aci_content_owner_table :
  forall (contents : json) (sac kc w : BinaryWriter),
    write_aci contents sac kc = Ok w ->
    exists fs coi vals,
      json_read_dict contents ["filesystem_access"%string] None = Ok fs
      /\ json_read_list (JDict fs) ["content_owner_ids"%string]
           (Some (JList [])) = Ok coi
      /\ Forall2 (fun c v => int_of_json c = Ok v) coi vals
      /\ slice (stream w) 0x5c (len (coi_table vals)) = coi_table vals
      /\ slice (stream w) 0x4c 4 = le_bytes 4 0x1c
      /\ slice (stream w) 0x50 4 = le_bytes 4 (len (coi_table vals))
      /\ slice (stream w) 0x54 4 = le_bytes 4 (0x1c + len (coi_table vals))
      /\ (coi = [] -> coi_table vals = [])
      /\ (forall c, coi = [c] ->
            exists v, int_of_json c = Ok v
                      /\ coi_table vals = le_bytes 4 1 ++ le_bytes 8 v
                      /\ len (coi_table vals) = 12).
Proof.
  intros contents sac kc w H.
  destruct (write_aci_layout contents sac kc w H)
    as (fs & coi & vals & pid & perm & sdoi & Hfs & Hcoi & Hvals & ->).
  exists fs, coi, vals. do 3 (split; [assumption|]).
  set (cb := coi_table vals).
  set (head := ascii_codes "ACI0" ++ zeros 0xc ++ le_bytes 8 pid ++ zeros 8
               ++ aci_table cb sdoi (stream sac) (stream kc) ++ zeros 8
               ++ le_bytes 4 1 ++ le_bytes 8 perm).
  set (tail := sdoi ++ zeros (padding 0x10 (0x5c + len cb + len sdoi))
               ++ stream sac
               ++ zeros (padding 0x10 (aci_sac_offset cb sdoi
                                       + len (stream sac)))
               ++ stream kc).
  assert (Lhead : len head = 0x4c).
  { unfold head, aci_table. len_norm. reflexivity. }
  assert (E : aci_image pid perm cb sdoi (stream sac) (stream kc)
              = head ++ aci_fah_fields cb sdoi ++ cb ++ tail).
  { unfold aci_image, aci_layout, head, tail. now rewrite <- !app_assoc. }
  rewrite E. unfold aci_fah_fields.
  split; [|split; [|split; [|split; [|split]]]].
  - apply (slice_mid _ (head ++ le_bytes 4 0x1c ++ le_bytes 4 (len cb)
                        ++ le_bytes 4 (0x1c + len cb) ++ le_bytes 4 (len sdoi))
             cb tail).
    + now rewrite <- !app_assoc.
    + len_norm. lia.
    + reflexivity.
  - apply (slice_mid _ head (le_bytes 4 0x1c)
             (le_bytes 4 (len cb) ++ le_bytes 4 (0x1c + len cb)
              ++ le_bytes 4 (len sdoi) ++ cb ++ tail)).
    + now rewrite <- !app_assoc.
    + exact Lhead.
    + reflexivity.
  - apply (slice_mid _ (head ++ le_bytes 4 0x1c) (le_bytes 4 (len cb))
             (le_bytes 4 (0x1c + len cb) ++ le_bytes 4 (len sdoi)
              ++ cb ++ tail)).
    + now rewrite <- !app_assoc.
    + len_norm. lia.
    + reflexivity.
  - apply (slice_mid _ (head ++ le_bytes 4 0x1c ++ le_bytes 4 (len cb))
             (le_bytes 4 (0x1c + len cb))
             (le_bytes 4 (len sdoi) ++ cb ++ tail)).
    + now rewrite <- !app_assoc.
    + len_norm. lia.
    + reflexivity.
  - intros ->. inversion Hvals; subst. reflexivity.
  - intros c ->. inversion Hvals as [|? v ? vs Hv Hrest]; subst.
    inversion Hrest; subst. exists v. split; [exact Hv|].
    split; [|reflexivity]. unfold cb, coi_table. cbn [flat_map].
    now rewrite app_nil_r.
Qed.

Lemma Ok_inj {A : Type} (a b : A) : Ok a = Ok b -> a = b.
Proof. now intros [= ->]. Qed.

(** ** The META header *)

Lemma json_read_str_len (j : json) (keys : list string) (max_len : Z)
    (default : option json) (s : string) :
  0 < max_len -> json_read_str j keys max_len default = Ok s ->
  strlen s <= max_len.
Proof.
  intros Hm H. unfold json_read_str in H.
  apply rbind_Ok in H as ([key data] & _ & H).
  destruct data; try discriminate.
  apply rbind_Ok in H as (u & Hu & H). injection H as <-.
  apply abort_unless_Ok in Hu. apply orb_prop in Hu as [Hu|Hu].
  - apply Z.leb_le in Hu. lia.
  - now apply Z.leb_le in Hu.
Qed.

Lemma len_META : len (ascii_codes "META") = 4.
Proof. reflexivity. Qed.

(** The META header is 0x80 bytes long. *)
Lemma write_meta_len (contents : json) (w : BinaryWriter) :
  write_meta contents = Ok w -> len (stream w) = 0x80.
Proof.
  intros H. unfold write_meta in H. cbv zeta in H.
  rewrite new_writer_at_end in H.
  bind_step H x Hx. apply write_string_at_end_Ok in Hx; [|reflexivity]. subst x.
  bind_step H skg Hskg.
  bind_step H x Hx. apply write_u32_at_end_Ok in Hx as [-> _].
  rewrite !seek_rel_at_end in H by lia.
  bind_step H b1 Hb1. bind_step H ast Hast. bind_step H b2 Hb2.
  bind_step H b3 Hb3. bind_step H b4 Hb4. bind_step H b5 Hb5.
  bind_step H x Hx. apply write_u8_at_end_Ok in Hx as [-> _].
  rewrite seek_at_end in H by (len_norm; rewrite len_META; lia).
  match type of H with
  | context [zeros (14 - ?l)] =>
      replace (14 - l) with 1 in H by (len_norm; rewrite len_META; lia)
  end.
  bind_step H prio Hprio.
  bind_step H x Hx. apply write_u8_at_end_Ok in Hx as [-> _].
  bind_step H cpu Hcpu.
  bind_step H x Hx. apply write_u8_at_end_Ok in Hx as [-> _].
  rewrite seek_at_end in H by (len_norm; rewrite len_META; lia).
  match type of H with
  | context [zeros (20 - ?l)] =>
      replace (20 - l) with 4 in H by (len_norm; rewrite len_META; lia)
  end.
  bind_step H srs Hsrs.
  bind_step H x Hx. apply write_u32_at_end_Ok in Hx as [-> _].
  bind_step H ver Hver.
  bind_step H x Hx. apply write_u32_at_end_Ok in Hx as [-> _].
  bind_step H stack Hstack.
  bind_step H u Hu.
  bind_step H x Hx. apply write_u32_at_end_Ok in Hx as [-> _].
  bind_step H name Hname.
  apply json_read_str_len in Hname; [|lia].
  bind_step H x Hx.
  apply write_string_fixed in Hx as (raw & -> & Hraw); [|lia|exact Hname].
  bind_step H x Hx. apply write_bytes_at_end_Ok in Hx. subst x.
  rewrite !seek_rel_at_end in H by lia.
  apply Ok_inj in H. subst w. rewrite stream_at_end. len_norm.
  rewrite len_META, Hraw. reflexivity.
Qed.

(** ** The whole file *)

Lemma main_layout (contents : json) (out : list Z) :
  main contents = Ok out ->
  exists sac kc meta acid aci,
    write_sac contents = Ok sac
    /\ write_kc contents = Ok kc
    /\ write_meta contents = Ok meta
    /\ write_acid contents sac kc = Ok acid
    /\ write_aci contents sac kc = Ok aci
    /\ out = main_image (stream meta) (stream acid) (stream aci)
    /\ 0 <= main_aci_offset (stream acid) < 2 ^ 32
    /\ 0 <= len (stream aci) < 2 ^ 32
    /\ 0 <= len (stream acid) < 2 ^ 32.
Proof.
  intros H. unfold main in H. cbv zeta in H.
  bind_step H sac Hsac. bind_step H kc Hkc. bind_step H meta Hmeta.
  pose proof (write_meta_len contents meta Hmeta) as Lmeta.
  rewrite new_writer_at_end in H.
  bind_step H x Hx. apply write_sub_at_end_Ok in Hx. subst x.
  cbn [app] in H.
  rewrite seek_at_end in H by lia.
  rewrite Z.sub_diag, zeros_0, app_nil_r in H.
  bind_step H x Hx. apply align_at_end_Ok in Hx; [|lia]. subst x.
  rewrite Lmeta in H. change (padding 16 128) with 0 in H.
  rewrite zeros_0, app_nil_r, !position_at_end, Lmeta in H.
  bind_step H acid Hacid.
  bind_step H x Hx. apply write_sub_at_end_Ok in Hx. subst x.
  bind_step H x Hx. apply align_at_end_Ok in Hx; [|lia]. subst x.
  rewrite len_app, Lmeta in H.
  bind_step H aci Haci.
  bind_step H x Hx. apply write_sub_at_end_Ok in Hx. subst x.
  exists sac, kc, meta, acid, aci. do 5 (split; [assumption|]).
  pose proof (len_nonneg (stream acid)) as Ha0.
  pose proof (len_nonneg (stream aci)) as Hi0.
  pose proof (padding_range 16 (128 + len (stream acid)) ltac:(lia)) as Hpad.
  rewrite !position_at_end in H.
  replace (len ((stream meta ++ stream acid)
                ++ zeros (padding 16 (128 + len (stream acid)))))
    with (main_aci_offset (stream acid)) in H
    by (unfold main_aci_offset; len_norm; lia).
  match type of H with
  | context [seek (at_end ?s) 112 false] => remember s as body eqn:Hbody
  end.
  assert (Lbody : len body = main_aci_offset (stream acid) + len (stream aci)).
  { subst body. unfold main_aci_offset. len_norm. lia. }
  unfold main_aci_offset in Lbody.
  rewrite seek_at_end_inside in H by lia.
  bind_step H x Hx. apply write_u32_inside_Ok in Hx as [-> R1]; [|lia|lia].
  bind_step H x Hx.
  apply write_u32_inside_Ok in Hx as [-> R2];
    [|lia|rewrite len_patch; len_norm; lia].
  rewrite patch_patch in H by (len_norm; lia).
  bind_step H x Hx.
  apply write_u32_inside_Ok in Hx as [-> _];
    [|lia|rewrite len_patch; len_norm; lia].
  rewrite patch_patch in H by (len_norm; lia).
  bind_step H x Hx.
  apply write_u32_inside_Ok in Hx as [-> R4];
    [|lia|rewrite len_patch; len_norm; lia].
  rewrite patch_patch in H by (len_norm; lia).
  split; [|split; [exact R1|split; [exact R2|exact R4]]].
  apply Ok_inj in H. subst out. cbn [stream].
  rewrite <- !app_assoc. fold (main_fields (stream acid) (stream aci)).
  unfold main_image.
  apply (patch_mid body (firstn (Z.to_nat 0x70) (stream meta))
           (skipn (Z.to_nat 0x70) (stream meta))).
  - subst body.
    rewrite <- (firstn_skipn (Z.to_nat 0x70) (stream meta)) at 1.
    now rewrite <- !app_assoc.
  - apply len_firstn. lia.
  - rewrite len_skipn by lia. unfold main_fields. len_norm. lia.
Qed.

Ltac bind_all H :=
  repeat (let x := fresh "x" in
          let Hx := fresh "Hx" in
          apply rbind_Ok in H; destruct H as (x & Hx & H); cbv beta in H).

(** ** Words of the kernel capability table *)

Lemma appends_one_word (st : kc_locals) (cap : Z) (w : BinaryWriter) :
  write_u32 (kc_writer st) cap = Ok w -> appends_words st (with_writer st w).
Proof.
  intros H s Hs. rewrite Hs in H. apply write_u32_at_end_Ok in H as [-> _].
  exists [cap]. cbn [with_writer kc_writer flat_map]. now rewrite app_nil_r.
Qed.

Lemma syscall_items_writer (value : list (string * json)) :
  forall groups st groups' st',
    for_each syscall_item (groups, st) value = Ok (groups', st') ->
    kc_writer st' = kc_writer st.
Proof.
  induction value as [|item value IH]; intros groups st groups' st' H.
  - now injection H as _ <-.
  - cbn [for_each] in H. apply rbind_Ok in H as ([g1 st1] & Hitem & H).
    rewrite (IH _ _ _ _ H). unfold syscall_item in Hitem.
    apply rbind_Ok in Hitem as (val & _ & Hitem).
    apply rbind_Ok in Hitem as (u & _ & Hitem).
    apply rbind_Ok in Hitem as (g & _ & Hitem).
    now injection Hitem as _ <-.
Qed.

Lemma syscall_groups_words (groups : list Z) :
  forall idx s w,
    for_enumerate syscall_group idx (at_end s) groups = Ok w ->
    exists ws, w = at_end (s ++ flat_map (le_bytes 4) ws).
Proof.
  induction groups as [|g groups IH]; intros idx s w H.
  - injection H as <-. exists []. cbn. now rewrite app_nil_r.
  - cbn [for_enumerate] in H. apply rbind_Ok in H as (x & Hx & H).
    unfold syscall_group in Hx. destruct (g =? 0).
    + injection Hx as <-. exact (IH _ _ _ H).
    + apply write_u32_at_end_Ok in Hx as [-> _].
      destruct (IH _ _ _ H) as (ws & ->).
      eexists (_ :: ws). cbn [flat_map]. now rewrite <- !app_assoc.
Qed.

Lemma kc_entry_words (st : kc_locals) (idx : Z) (cap : json)
    (st' : kc_locals) :
  kc_entry st idx cap = Ok st' -> appends_words st st'.
Proof.
  intros H. unfold kc_entry in H.
  bind_step H ok1 Hok1. bind_step H ok2 Hok2. bind_step H ty Hty.
  repeat match type of H with
         | (if ?c then _ else _) = _ => destruct c
         end; try discriminate.
  (* the [map_page] branch and the unknown type are failures *)
  - unfold kc_kernel_flags in H. bind_all H.
    apply Ok_inj in H. subst st'. eapply appends_one_word; eassumption.
  - unfold kc_syscalls in H. bind_step H mapping Hmapping.
    bind_step H acc Hacc. destruct acc as [groups st1].
    bind_step H w Hw. apply Ok_inj in H. subst st'.
    intros s Hs. apply syscall_items_writer in Hacc.
    rewrite Hacc, Hs in Hw. exact (syscall_groups_words _ _ _ _ Hw).
  - unfold kc_map in H. cbv zeta in H.
    bind_step H mapping Hmapping. bind_step H v1 Hv1. bind_step H b1 Hb1.
    bind_step H w1 Hw1. bind_step H v2 Hv2. bind_step H b2 Hb2.
    bind_step H w2 Hw2. apply Ok_inj in H. subst st'.
    intros s Hs. rewrite Hs in Hw1.
    apply write_u32_at_end_Ok in Hw1 as [-> _].
    apply write_u32_at_end_Ok in Hw2 as [-> _].
    eexists [_; _]. cbn [with_writer kc_writer flat_map].
    now rewrite app_nil_r, <- app_assoc.
  - unfold kc_map_region in H. bind_all H.
    apply Ok_inj in H. subst st'. eapply appends_one_word; eassumption.
  - unfold kc_irq_pair in H. bind_all H.
    apply Ok_inj in H. subst st'. eapply appends_one_word; eassumption.
  - unfold kc_application_type in H. bind_all H.
    apply Ok_inj in H. subst st'. eapply appends_one_word; eassumption.
  - unfold kc_min_kernel_version in H. bind_all H.
    apply Ok_inj in H. subst st'. eapply appends_one_word; eassumption.
  - unfold kc_handle_table_size in H. bind_all H.
    apply Ok_inj in H. subst st'. eapply appends_one_word; eassumption.
  - unfold kc_debug_flags in H. bind_all H.
    apply Ok_inj in H. subst st'. eapply appends_one_word; eassumption.
Qed.

Lemma kc_entries_words (caps : list json) :
  forall idx st st',
    for_enumerate kc_entry idx st caps = Ok st' -> appends_words st st'.
Proof.
  induction caps as [|cap caps IH]; intros idx st st' H.
  - apply Ok_inj in H. subst st'. intros s Hs. exists [].
    cbn. now rewrite app_nil_r.
  - cbn [for_enumerate] in H. apply rbind_Ok in H as (st1 & H1 & H).
    intros s Hs.
    destruct (kc_entry_words _ _ _ _ H1 s Hs) as (ws1 & Hs1).
    destruct (IH _ _ _ H _ Hs1) as (ws2 & Hs2).
    exists (ws1 ++ ws2). now rewrite Hs2, flat_map_app, app_assoc.
Qed.

Lemma len_words (ws : list Z) :
  len (flat_map (le_bytes 4) ws) = 4 * len ws.
Proof.
  induction ws as [|w ws IH]; [reflexivity|].
  cbn [flat_map]. rewrite len_app, len_le_bytes, len_cons, IH. lia.
Qed.

(** The kernel capability table is a sequence of 32-bit words. *)
Lemma write_kc_words (contents : json) (kc : BinaryWriter) :
  write_kc contents = Ok kc ->
  exists ws, stream kc = flat_map (le_bytes 4) ws.
Proof.
  intros H. unfold write_kc in H. bind_step H caps Hcaps.
  bind_step H st Hst. apply Ok_inj in H. subst kc.
  destruct (kc_entries_words _ _ _ _ Hst [] eq_refl) as (ws & Hws).
  exists ws. now rewrite Hws.
Qed.

(** ** Length and cross references of the file *)

Lemma mod_0x10_shift (a n : Z) : a mod 0x10 = 0 -> (a + n) mod 0x10 = n mod 0x10.
Proof.
  intros H. rewrite (Z.add_mod a n 0x10) by lia.
  rewrite H, Z.add_0_l, Z.mod_mod by lia. reflexivity.
Qed.

Lemma len_aci_image (pid perm : Z) (coi sdoi sac kc : list Z) :
  len (aci_image pid perm coi sdoi sac kc)
  = aci_kc_offset coi sdoi sac + len kc.
Proof.
  pose proof (padding_range 0x10 (0x5c + len coi + len sdoi) ltac:(lia)).
  pose proof (padding_range 0x10 (aci_sac_offset coi sdoi + len sac)
                ltac:(lia)).
  unfold aci_image, aci_layout, aci_table, aci_fah_fields, aci_kc_offset.
  len_norm. rewrite len_ACI0. unfold aci_sac_offset in *. lia.
Qed.

Lemma aci_kc_offset_aligned (coi sdoi sac : list Z) :
  aci_kc_offset coi sdoi sac mod 0x10 = 0.
Proof. unfold aci_kc_offset. apply padding_aligned. lia. Qed.

Lemma main_aci_offset_aligned (acid : list Z) : main_aci_offset acid mod 0x10 = 0.
Proof. unfold main_aci_offset. apply padding_aligned. lia. Qed.

Lemma len_main_image (meta acid aci : list Z) :
  len meta = 0x80 ->
  len (main_image meta acid aci) = main_aci_offset acid + len aci.
Proof.
  intros Hm.
  pose proof (padding_range 0x10 (0x80 + len acid) ltac:(lia)).
  unfold main_image, main_fields, main_aci_offset.
  len_norm. rewrite len_firstn by lia. lia.
Qed.

(** The ACI0 region ends with the kernel capability table, at the offset
    its table of offsets records at 0x30. *)
Lemma aci_image_tail (pid perm : Z) (coi sdoi sac kc : list Z) :
  exists head,
    aci_image pid perm coi sdoi sac kc = head ++ kc
    /\ len head = aci_kc_offset coi sdoi sac
    /\ slice (aci_image pid perm coi sdoi sac kc) 0x30 4
       = le_bytes 4 (aci_kc_offset coi sdoi sac).
Proof.
  pose proof (len_nonneg coi) as Hcoi.
  pose proof (len_nonneg sdoi) as Hsdoi.
  pose proof (len_nonneg sac) as Hsac.
  pose proof (padding_range 0x10 (0x5c + len coi + len sdoi) ltac:(lia))
    as Hpad1.
  pose proof (padding_range 0x10 (aci_sac_offset coi sdoi + len sac)
                ltac:(lia)) as Hpad2.
  exists (ascii_codes "ACI0" ++ zeros 0xc ++ le_bytes 8 pid ++ zeros 8
          ++ aci_table coi sdoi sac kc ++ zeros 8
          ++ le_bytes 4 1 ++ le_bytes 8 perm ++ aci_fah_fields coi sdoi
          ++ coi ++ sdoi
          ++ zeros (padding 0x10 (0x5c + len coi + len sdoi))
          ++ sac
          ++ zeros (padding 0x10 (aci_sac_offset coi sdoi + len sac))).
  split; [|split].
  - unfold aci_image, aci_layout. now rewrite <- !app_assoc.
  - unfold aci_kc_offset, aci_sac_offset, aci_table, aci_fah_fields in *.
    len_norm. rewrite len_ACI0. lia.
  - apply (slice_mid _
             (ascii_codes "ACI0" ++ zeros 0xc ++ le_bytes 8 pid ++ zeros 8
              ++ le_bytes 4 0x40 ++ le_bytes 4 (0x1c + len coi + len sdoi)
              ++ le_bytes 4 (aci_sac_offset coi sdoi)
              ++ le_bytes 4 (len sac))
             _
             (le_bytes 4 (len kc) ++ zeros 8
              ++ le_bytes 4 1 ++ le_bytes 8 perm ++ aci_fah_fields coi sdoi
              ++ coi ++ sdoi
              ++ zeros (padding 0x10 (0x5c + len coi + len sdoi))
              ++ sac
              ++ zeros (padding 0x10 (aci_sac_offset coi sdoi + len sac))
              ++ kc)).
    + unfold aci_image, aci_layout, aci_table. now rewrite <- !app_assoc.
    + len_norm. rewrite len_ACI0. reflexivity.
    + apply len_le_bytes.
Qed.

(** The file ends with the ACI0 region. *)
Lemma main_image_tail (meta acid aci : list Z) :
  len meta = 0x80 ->
  exists head,
    main_image meta acid aci = head ++ aci
    /\ len head = main_aci_offset acid.
Proof.
  intros Lmeta.
  pose proof (len_nonneg acid) as Hacid.
  pose proof (padding_range 0x10 (0x80 + len acid) ltac:(lia)) as Hpad.
  exists (firstn (Z.to_nat 0x70) meta ++ main_fields acid aci
          ++ acid ++ zeros (padding 0x10 (0x80 + len acid))).
  split.
  - unfold main_image. now rewrite <- !app_assoc.
  - unfold main_aci_offset, main_fields. len_norm.
    rewrite len_firstn by lia. lia.
Qed.

(** C4, as the code has it: nothing pads the end of the file.  For every
    configuration that builds, the file ends with the ACI0 region, at the
    offset a multiple of 0x10 that the header records at 0x70, and the ACI0
    region ends with the kernel capability table, at the offset a multiple of
    0x10 that the region records at 0x30, with no byte behind the table.
    That table is 4 bytes for each capability word, so the length of the file
    minus 0x80 is congruent modulo 0x10 to 4 times the number of words: it is
    a multiple of 4, and a multiple of 0x10 exactly when the number of
    capability words is a multiple of 4. *)
Theorem build_length_follows_kc :
  forall (contents : json) (out : list Z),
    main contents = Ok out ->
    exists kc ws,
      write_kc contents = Ok kc
      /\ stream kc = flat_map (le_bytes 4) ws
      /\ len (stream kc) = 4 * len ws
      /\ (exists sac aci head region_head,
             write_sac contents = Ok sac
             /\ write_aci contents sac kc = Ok aci
             /\ out = head ++ stream aci
             /\ stream aci = region_head ++ stream kc
             /\ len head mod 0x10 = 0
             /\ len region_head mod 0x10 = 0
             /\ slice out 0x70 4 = le_bytes 4 (len head)
             /\ slice (stream aci) 0x30 4 = le_bytes 4 (len region_head)
             /\ len out = len head + len region_head + len (stream kc))
      /\ slice out (len out - len (stream kc)) (len (stream kc)) = stream kc
      /\ (len out - 0x80) mod 0x10 = (4 * len ws) mod 0x10
      /\ (len out - 0x80) mod 4 = 0
      /\ ((len out - 0x80) mod 0x10 = 0 <-> len ws mod 4 = 0).
Proof.
  intros contents out H.
  destruct (main_layout contents out H)
    as (sac & kc & meta & acid & aci & Hsac & Hkc & Hmeta & Hacid & Haci
        & -> & _).
  destruct (write_kc_words contents kc Hkc) as (ws & Hws).
  destruct (write_aci_layout contents sac kc aci Haci)
    as (fs & coi & vals & pid & perm & sdoi & _ & _ & _ & Himg).
  pose proof (write_meta_len contents meta Hmeta) as Lmeta.
  destruct (main_image_tail (stream meta) (stream acid) (stream aci) Lmeta)
    as (head & Ehead & Lhead).
  destruct (aci_image_tail pid perm (coi_table vals) sdoi (stream sac)
              (stream kc)) as (region_head & Eregion & Lregion & Sregion).
  rewrite <- Himg in Eregion, Sregion.
  assert (Lkc : len (stream kc) = 4 * len ws) by (rewrite Hws; apply len_words).
  assert (Lout : len (main_image (stream meta) (stream acid) (stream aci))
                 = len head + len region_head + len (stream kc)).
  { rewrite Ehead, len_app. rewrite Eregion at 1. rewrite len_app. lia. }
  exists kc, ws. split; [exact Hkc|]. split; [exact Hws|].
  split; [exact Lkc|]. split.
  { exists sac, aci, head, region_head.
    split; [exact Hsac|]. split; [exact Haci|]. split; [exact Ehead|].
    split; [exact Eregion|].
    split; [rewrite Lhead; apply main_aci_offset_aligned|].
    split; [rewrite Lregion; apply aci_kc_offset_aligned|].
    split.
    - rewrite Lhead.
      apply (slice_mid _ (firstn (Z.to_nat 0x70) (stream meta)) _
               (le_bytes 4 (len (stream aci)) ++ le_bytes 4 0x80
                ++ le_bytes 4 (len (stream acid)) ++ stream acid
                ++ zeros (padding 0x10 (0x80 + len (stream acid)))
                ++ stream aci)).
      + unfold main_image, main_fields. now rewrite <- !app_assoc.
      + apply len_firstn. lia.
      + apply len_le_bytes.
    - split; [|exact Lout]. rewrite Lregion. exact Sregion. }
  split.
  { apply (slice_mid _ (head ++ region_head) _ []).
    - rewrite app_nil_r, <- app_assoc, <- Eregion. exact Ehead.
    - rewrite Lout, len_app. lia.
    - reflexivity. }
  rewrite Lout, Lhead, Lregion, Lkc.
  set (n := len ws).
  set (a := main_aci_offset (stream acid)).
  set (b := aci_kc_offset (coi_table vals) sdoi (stream sac)).
  assert (Ha : a mod 0x10 = 0) by apply main_aci_offset_aligned.
  assert (Hb : b mod 0x10 = 0) by apply aci_kc_offset_aligned.
  assert (E : (a + b + 4 * n - 0x80) mod 0x10 = (4 * n) mod 0x10).
  { replace (a + b + 4 * n - 0x80) with ((a + b - 0x80) + 4 * n) by lia.
    apply mod_0x10_shift.
    apply Z.mod_divide in Ha; [|lia]. apply Z.mod_divide in Hb; [|lia].
    destruct Ha as (x & ->). destruct Hb as (y & ->).
    apply Z.mod_divide; [lia|]. exists (x + y - 8). lia. }
  split; [exact E|]. split.
  - apply Z.mod_divide in Ha; [|lia]. apply Z.mod_divide in Hb; [|lia].
    destruct Ha as (x & ->). destruct Hb as (y & ->).
    apply Z.mod_divide; [lia|]. exists (4 * x + 4 * y + n - 32). lia.
  - rewrite E. split; intros Hm.
    + apply Z.mod_divide in Hm; [|lia]. destruct Hm as (k & Hk).
      apply Z.mod_divide; [lia|]. exists k. lia.
    + apply Z.mod_divide in Hm; [|lia]. destruct Hm as (k & Hk).
      apply Z.mod_divide; [lia|]. exists k. lia.
Qed.

Lemma one_cap_builds : main one_cap_config = Ok one_cap_npdm.
Proof. vm_compute. reflexivity. Qed.

Lemma build_length_follows_kc_witness :
  exists kc ws,
    write_kc one_cap_config = Ok kc
    /\ stream kc = flat_map (le_bytes 4) ws
    /\ len (stream kc) = 4 * len ws
    /\ (exists sac aci head region_head,
           write_sac one_cap_config = Ok sac
           /\ write_aci one_cap_config sac kc = Ok aci
           /\ one_cap_npdm = head ++ stream aci
           /\ stream aci = region_head ++ stream kc
           /\ len head mod 0x10 = 0
           /\ len region_head mod 0x10 = 0
           /\ slice one_cap_npdm 0x70 4 = le_bytes 4 (len head)
           /\ slice (stream aci) 0x30 4 = le_bytes 4 (len region_head)
           /\ len one_cap_npdm
              = len head + len region_head + len (stream kc))
    /\ slice one_cap_npdm (len one_cap_npdm - len (stream kc))
         (len (stream kc)) = stream kc
    /\ (len one_cap_npdm - 0x80) mod 0x10 = (4 * len ws) mod 0x10
    /\ (len one_cap_npdm - 0x80) mod 4 = 0
    /\ ((len one_cap_npdm - 0x80) mod 0x10 = 0 <-> len ws mod 4 = 0).
Proof.
  apply (build_length_follows_kc one_cap_config one_cap_npdm).
  vm_compute. reflexivity.
Defined.

(** A configuration that builds into a file whose length minus 0x80 is not
    a multiple of 0x10. *)
Lemma build_length_not_aligned :
  main one_cap_config = Ok one_cap_npdm
  /\ (len one_cap_npdm - 0x80) mod 0x10 <> 0.
Proof. split; [exact one_cap_builds | vm_compute; discriminate]. Qed.

(** C5: in the file, the four 32-bit fields at 0x70 are the ACI0 offset,
    the ACI0 size, the ACID offset and the ACID size; the ACID region is the
    bytes at 0x80, which is the end of the META header and a multiple of
    0x10; the ACI0 region is the bytes at the first multiple of 0x10 at or
    past the end of the ACID region, and the file ends with it; the rest of
    the META header is as [write_meta] left it. *)
Theorem meta_tail_matches_regions :
  forall (contents : json) (out : list Z),
    main contents = Ok out ->
    exists sac kc meta acid aci,
      write_sac contents = Ok sac
      /\ write_kc contents = Ok kc
      /\ write_meta contents = Ok meta
      /\ write_acid contents sac kc = Ok acid
      /\ write_aci contents sac kc = Ok aci
      /\ let acid_offset := len (stream meta) in
         let acid_size := len (stream acid) in
         let aci_offset := main_aci_offset (stream acid) in
         let aci_size := len (stream aci) in
         acid_offset = 0x80
         /\ slice out 0x70 4 = le_bytes 4 aci_offset
         /\ slice out 0x74 4 = le_bytes 4 aci_size
         /\ slice out 0x78 4 = le_bytes 4 acid_offset
         /\ slice out 0x7c 4 = le_bytes 4 acid_size
         /\ 0 <= aci_offset < 2 ^ 32
         /\ 0 <= aci_size < 2 ^ 32
         /\ 0 <= acid_size < 2 ^ 32
         /\ slice out acid_offset acid_size = stream acid
         /\ slice out aci_offset aci_size = stream aci
         /\ len out = aci_offset + aci_size
         /\ acid_offset mod 0x10 = 0
         /\ aci_offset mod 0x10 = 0
         /\ acid_offset + acid_size <= aci_offset
            < acid_offset + acid_size + 0x10
         /\ slice out 0 0x70 = slice (stream meta) 0 0x70.
Proof.
  intros contents out H.
  destruct (main_layout contents out H)
    as (sac & kc & meta & acid & aci & Hsac & Hkc & Hmeta & Hacid & Haci
        & -> & R1 & R2 & R4).
  exists sac, kc, meta, acid, aci. do 5 (split; [assumption|]).
  pose proof (write_meta_len contents meta Hmeta) as Lmeta.
  cbv zeta. rewrite Lmeta.
  set (M := firstn (Z.to_nat 0x70) (stream meta)).
  set (A := stream acid) in *. set (I := stream aci) in *.
  set (pad := zeros (padding 0x10 (0x80 + len A))).
  pose proof (padding_range 0x10 (0x80 + len A) ltac:(lia)) as Hpad.
  pose proof (len_nonneg A) as HA. pose proof (len_nonneg I) as HI.
  assert (LM : len M = 0x70) by (apply len_firstn; lia).
  assert (E : main_image (stream meta) A I
              = M ++ le_bytes 4 (main_aci_offset A) ++ le_bytes 4 (len I)
                ++ le_bytes 4 0x80 ++ le_bytes 4 (len A)
                ++ A ++ pad ++ I).
  { unfold main_image, main_fields. now rewrite <- !app_assoc. }
  split; [reflexivity|].
  split; [|split; [|split; [|split]]].
  - rewrite E. apply (slice_mid _ M _ (le_bytes 4 (len I) ++ le_bytes 4 0x80
                                       ++ le_bytes 4 (len A) ++ A ++ pad ++ I));
      [reflexivity | exact LM | reflexivity].
  - rewrite E. apply (slice_mid _ (M ++ le_bytes 4 (main_aci_offset A)) _
                        (le_bytes 4 0x80 ++ le_bytes 4 (len A)
                         ++ A ++ pad ++ I));
      [now rewrite <- !app_assoc | len_norm; lia | reflexivity].
  - rewrite E. apply (slice_mid _ (M ++ le_bytes 4 (main_aci_offset A)
                                   ++ le_bytes 4 (len I)) _
                        (le_bytes 4 (len A) ++ A ++ pad ++ I));
      [now rewrite <- !app_assoc | len_norm; lia | reflexivity].
  - rewrite E. apply (slice_mid _ (M ++ le_bytes 4 (main_aci_offset A)
                                   ++ le_bytes 4 (len I) ++ le_bytes 4 0x80) _
                        (A ++ pad ++ I));
      [now rewrite <- !app_assoc | len_norm; lia | reflexivity].
  - do 3 (split; [assumption|]).
    split; [|split; [|split; [|split; [|split; [|split]]]]].
    + rewrite E. apply (slice_mid _ (M ++ le_bytes 4 (main_aci_offset A)
                                     ++ le_bytes 4 (len I) ++ le_bytes 4 0x80
                                     ++ le_bytes 4 (len A)) _ (pad ++ I));
        [now rewrite <- !app_assoc | len_norm; lia | reflexivity].
    + rewrite E. apply (slice_mid _ (M ++ le_bytes 4 (main_aci_offset A)
                                     ++ le_bytes 4 (len I) ++ le_bytes 4 0x80
                                     ++ le_bytes 4 (len A) ++ A ++ pad) _ []);
        [now rewrite <- !app_assoc, app_nil_r
        | unfold pad, main_aci_offset; len_norm; lia | reflexivity].
    + apply len_main_image, Lmeta.
    + reflexivity.
    + apply main_aci_offset_aligned.
    + unfold main_aci_offset. lia.
    + rewrite E.
      eapply (slice_mid _ [] M); [reflexivity | reflexivity | exact LM].
Qed.

Lemma meta_tail_matches_regions_witness :
  exists sac kc meta acid aci,
    write_sac one_cap_config = Ok sac
    /\ write_kc one_cap_config = Ok kc
    /\ write_meta one_cap_config = Ok meta
    /\ write_acid one_cap_config sac kc = Ok acid
    /\ write_aci one_cap_config sac kc = Ok aci
    /\ let acid_offset := len (stream meta) in
       let acid_size := len (stream acid) in
       let aci_offset := main_aci_offset (stream acid) in
       let aci_size := len (stream aci) in
       acid_offset = 0x80
       /\ slice one_cap_npdm 0x70 4 = le_bytes 4 aci_offset
       /\ slice one_cap_npdm 0x74 4 = le_bytes 4 aci_size
       /\ slice one_cap_npdm 0x78 4 = le_bytes 4 acid_offset
       /\ slice one_cap_npdm 0x7c 4 = le_bytes 4 acid_size
       /\ 0 <= aci_offset < 2 ^ 32
       /\ 0 <= aci_size < 2 ^ 32
       /\ 0 <= acid_size < 2 ^ 32
       /\ slice one_cap_npdm acid_offset acid_size = stream acid
       /\ slice one_cap_npdm aci_offset aci_size = stream aci
       /\ len one_cap_npdm = aci_offset + aci_size
       /\ acid_offset mod 0x10 = 0
       /\ aci_offset mod 0x10 = 0
       /\ acid_offset + acid_size <= aci_offset
          < acid_offset + acid_size + 0x10
       /\ slice one_cap_npdm 0 0x70 = slice (stream meta) 0 0x70.
Proof.
  apply (meta_tail_matches_regions one_cap_config one_cap_npdm).
  vm_compute. reflexivity.
Defined.

(** ** The examples of the two regions *)

Lemma acid_owner_fields_zero_witness :
  slice (stream one_cap_acid) 0x240 4 = [1; 0; 0; 0]
  /\ slice (stream one_cap_acid) 0x24c 0x20 = zeros 0x20.
Proof.
  apply (proj1 acid_owner_fields_zero one_cap_config new_writer new_writer
           one_cap_acid).
  vm_compute. reflexivity.
Defined.

Lemma aci_content_owner_table_witness :
  exists fs coi vals,
    json_read_dict one_cap_config ["filesystem_access"%string] None = Ok fs
    /\ json_read_list (JDict fs) ["content_owner_ids"%string]
         (Some (JList [])) = Ok coi
    /\ Forall2 (fun c v => int_of_json c = Ok v) coi vals
    /\ slice (stream one_cap_aci) 0x5c (len (coi_table vals)) = coi_table vals
    /\ slice (stream one_cap_aci) 0x4c 4 = le_bytes 4 0x1c
    /\ slice (stream one_cap_aci) 0x50 4 = le_bytes 4 (len (coi_table vals))
    /\ slice (stream one_cap_aci) 0x54 4
       = le_bytes 4 (0x1c + len (coi_table vals))
    /\ (coi = [] -> coi_table vals = [])
    /\ (forall c, coi = [c] ->
          exists v, int_of_json c = Ok v
                    /\ coi_table vals = le_bytes 4 1 ++ le_bytes 8 v
                    /\ len (coi_table vals) = 12).
Proof.
  apply (aci_content_owner_table one_cap_config new_writer new_writer
           one_cap_aci).
  vm_compute. reflexivity.
Defined.

(** * Further properties *)

(** ** The writer on any buffer *)

Lemma byte_at_app_zeros (s : list Z) (n i : Z) :
  byte_at (s ++ zeros n) i = byte_at s i.
Proof.
  unfold byte_at.
  destruct (Nat.lt_ge_cases (Z.to_nat i) (List.length s)) as [Hlt|Hge].
  - now rewrite app_nth1.
  - rewrite app_nth2 by exact Hge. unfold zeros. rewrite nth_repeat.
    now rewrite nth_overflow.
Qed.

Lemma byte_at_patch (s : list Z) (p : Z) (raw : list Z) (i : Z) :
  0 <= p -> p + len raw <= len s -> 0 <= i ->
  byte_at (patch s p raw) i
  = if (p <=? i) && (i <? p + len raw) then byte_at raw (i - p)
    else byte_at s i.
Proof.
  intros Hp Hin Hi. pose proof (len_nonneg raw) as Hr.
  unfold byte_at, patch.
  assert (Lf : List.length (firstn (Z.to_nat p) s) = Z.to_nat p).
  { rewrite length_firstn. unfold len in *. lia. }
  destruct (Z.leb_spec p i) as [Hpi|Hpi]; cbn [andb].
  - rewrite app_nth2 by lia. rewrite Lf.
    destruct (Z.ltb_spec i (p + len raw)) as [Hir|Hir].
    + rewrite app_nth1 by (unfold len in *; lia). f_equal. lia.
    + rewrite app_nth2 by (unfold len in *; lia).
      rewrite nth_skipn. f_equal. unfold len in *. lia.
  - rewrite app_nth1 by lia. rewrite nth_firstn.
    destruct (Nat.ltb_spec (Z.to_nat i) (Z.to_nat p)); [reflexivity | lia].
Qed.

Lemma fill_then_write (w : BinaryWriter) (raw : list Z) :
  0 <= position w ->
  write w raw
  = Ok (mkWriter
          (patch (stream w
                  ++ zeros (position w + len raw - len (stream w)))
             (position w) raw)
          (position w + len raw)).
Proof.
  intros Hp. pose proof (len_nonneg raw) as Hr.
  set (s1 := stream w ++ zeros (position w + len raw - len (stream w))).
  assert (L1 : position w + len raw <= len s1).
  { unfold s1. rewrite len_app, len_zeros_max. lia. }
  rewrite <- (write_inside s1 (position w) raw Hp L1).
  unfold write, _fill_bytes. cbn [stream position].
  destruct (0 <? len raw - len s1 + position w) eqn:E1;
    [apply Z.ltb_lt in E1; lia|].
  destruct (0 <? len raw - len (stream w) + position w) eqn:E2.
  - unfold s1.
    now replace (position w + len raw - len (stream w))
      with (len raw - len (stream w) + position w) by lia.
  - apply Z.ltb_ge in E2. unfold s1, zeros.
    replace (Z.to_nat (position w + len raw - len (stream w))) with 0%nat
      by lia.
    cbn [repeat]. rewrite app_nil_r. now destruct w.
Qed.

(** X1.  A write with the cursor at a non-negative position never fails:
    the cursor moves on by the bytes written, the buffer grows to the cursor
    when it was shorter and keeps its length otherwise, the bytes written are
    found where the cursor was, and every other byte is as before, a gap
    between the old end and the cursor reading as zeros. *)
Theorem write_frame :
  forall (w : BinaryWriter) (raw : list Z),
    0 <= position w ->
    exists w',
      write w raw = Ok w'
      /\ position w' = position w + len raw
      /\ len (stream w') = Z.max (len (stream w)) (position w + len raw)
      /\ forall i, 0 <= i ->
           byte_at (stream w') i
           = if (position w <=? i) && (i <? position w + len raw)
             then byte_at raw (i - position w)
             else byte_at (stream w) i.
Proof.
  intros w raw Hp. pose proof (len_nonneg raw) as Hr.
  eexists. split; [apply fill_then_write, Hp|].
  cbn [stream position].
  set (s1 := stream w ++ zeros (position w + len raw - len (stream w))).
  assert (L1 : len s1 = Z.max (len (stream w)) (position w + len raw)).
  { unfold s1. rewrite len_app, len_zeros_max. lia. }
  split; [reflexivity|]. split.
  - rewrite len_patch by lia. exact L1.
  - intros i Hi. rewrite byte_at_patch by lia.
    unfold s1. now rewrite byte_at_app_zeros.
Qed.

Lemma write_frame_witness :
  exists w',
    write (mkWriter [1; 2] 4) [9] = Ok w'
    /\ position w' = 4 + len [9]
    /\ len (stream w') = Z.max (len [1; 2]) (4 + len [9])
    /\ forall i, 0 <= i ->
         byte_at (stream w') i
         = if (4 <=? i) && (i <? 4 + len [9])
           then byte_at [9] (i - 4)
           else byte_at [1; 2] i.
Proof. apply (write_frame (mkWriter [1; 2] 4) [9]). cbn. lia. Defined.

(** X2.  Seeking never shortens the buffer: the cursor goes to the target,
    and a target past the end appends the zeros that reach it.  [align] with
    a positive alignment moves the cursor to the least multiple of the
    alignment at or after it, appending only zeros past the end, and stays in
    place on a multiple; an alignment of 0 is a division by zero. *)
Theorem seek_align_spec :
  (forall (w : BinaryWriter) (off : Z) (relative : bool),
      let target := if relative then position w + off else off in
      seek w off relative
      = mkWriter (stream w ++ zeros (target - len (stream w))) target)
  /\ (forall (w : BinaryWriter) (a : Z),
         0 < a ->
         exists w',
           align w a = Ok w'
           /\ position w' mod a = 0
           /\ position w <= position w' < position w + a
           /\ stream w'
              = stream w ++ zeros (position w' - len (stream w))
           /\ (position w mod a = 0 -> position w' = position w))
  /\ (forall w, align w 0 = Err (Raised ZeroDivisionError)).
Proof.
  split; [|split].
  - intros w off relative target. unfold seek, _fill_bytes.
    destruct relative; cbn [stream position]; fold target.
    all: destruct (0 <? 0 - len (stream w) + target) eqn:E.
    all: try (now replace (0 - len (stream w) + target)
                with (target - len (stream w)) by lia).
    all: apply Z.ltb_ge in E; unfold zeros;
      replace (Z.to_nat (target - len (stream w))) with 0%nat by lia;
      cbn [repeat]; now rewrite app_nil_r.
  - intros w a Ha. unfold align.
    destruct (a =? 0) eqn:E; [apply Z.eqb_eq in E; lia|].
    fold (padding a (position w)).
    pose proof (padding_range a (position w) Ha) as Hpad.
    eexists. split; [reflexivity|].
    unfold seek, _fill_bytes. cbn [stream position].
    assert (Hmod : (position w + padding a (position w)) mod a = 0)
      by (apply padding_aligned, Ha).
    assert (Hsame : position w mod a = 0 ->
                    position w + padding a (position w) = position w).
    { intros H0. unfold padding.
      rewrite Z.mod_opp_l_z by lia. rewrite Z.add_0_l, Z_mod_same_full. lia. }
    destruct (0 <? 0 - len (stream w)
                   + (position w + padding a (position w))) eqn:E2;
      cbn [stream position].
    + repeat split; try lia; try assumption.
      now replace (0 - len (stream w) + (position w + padding a (position w)))
        with (position w + padding a (position w) - len (stream w)) by lia.
    + apply Z.ltb_ge in E2. repeat split; try lia; try assumption.
      unfold zeros.
      replace (Z.to_nat (position w + padding a (position w)
                         - len (stream w))) with 0%nat by lia.
      cbn [repeat]. now rewrite app_nil_r.
  - reflexivity.
Qed.

Lemma seek_align_spec_witness :
  exists w',
    align (mkWriter [1; 2; 3] 3) 4 = Ok w'
    /\ position w' mod 4 = 0
    /\ 3 <= position w' < 3 + 4
    /\ stream w' = [1; 2; 3] ++ zeros (position w' - len [1; 2; 3])
    /\ (3 mod 4 = 0 -> position w' = 3).
Proof.
  apply (proj1 (proj2 seek_align_spec) (mkWriter [1; 2; 3] 3) 4). lia.
Defined.

(** ** Packed integers read back *)

Lemma le_bytes_decode (size : nat) (v : Z) :
  le_decode (le_bytes size v) = v mod 2 ^ (8 * Z.of_nat size).
Proof.
  revert v. induction size as [|k IH]; intros v.
  - cbn. now rewrite Z.mod_1_r.
  - cbn [le_bytes le_decode]. rewrite IH.
    replace (8 * Z.of_nat (S k)) with (8 + 8 * Z.of_nat k) by lia.
    rewrite Z.pow_add_r by lia. change (2 ^ 8) with 256.
    rewrite (Z.rem_mul_r v 256 (2 ^ (8 * Z.of_nat k)))
      by (try lia; apply Z.pow_pos_nonneg; lia).
    reflexivity.
Qed.

Lemma le_bytes_range (size : nat) (v : Z) :
  Forall (fun b => 0 <= b < 256) (le_bytes size v).
Proof.
  revert v. induction size as [|k IH]; intros v; cbn [le_bytes].
  - constructor.
  - constructor; [apply Z.mod_pos_bound; lia | apply IH].
Qed.

(** X3.  [struct.pack] of an unsigned format succeeds exactly on the
    values that fit; the bytes are [size] bytes in [0, 256), least significant
    first, and read back to the value. *)
Theorem pack_round_trip :
  forall (size : nat) (v : Z),
    (0 <= v < 2 ^ (8 * Z.of_nat size) ->
     exists raw,
       pack size v = Ok raw
       /\ len raw = Z.of_nat size
       /\ Forall (fun b => 0 <= b < 256) raw
       /\ le_decode raw = v)
    /\ (~ 0 <= v < 2 ^ (8 * Z.of_nat size) ->
        pack size v = Err (Raised StructError)).
Proof.
  intros size v. split.
  - intros Hv. exists (le_bytes size v).
    split; [apply pack_in_range, Hv|].
    split; [apply len_le_bytes|]. split; [apply le_bytes_range|].
    rewrite le_bytes_decode. apply Z.mod_small, Hv.
  - intros Hv. unfold pack.
    destruct (Z.leb_spec 0 v); cbn [andb]; [|reflexivity].
    destruct (Z.ltb_spec v (2 ^ (8 * Z.of_nat size))); [lia | reflexivity].
Qed.

Lemma pack_round_trip_witness :
  (exists raw,
      pack 4 0x12345678 = Ok raw
      /\ len raw = Z.of_nat 4
      /\ Forall (fun b => 0 <= b < 256) raw
      /\ le_decode raw = 0x12345678)
  /\ pack 1 256 = Err (Raised StructError).
Proof.
  split.
  - apply (proj1 (pack_round_trip 4 0x12345678)). cbn. lia.
  - apply (proj2 (pack_round_trip 1 256)). cbn. lia.
Defined.

(** X4.  [write_u24] is bounded by the 32-bit format it packs with, not by
    24 bits: a value below 2^32 is written as its three low bytes, so a value
    of 2^24 or more loses its high byte without an error. *)
Theorem write_u24_truncates :
  forall (s : list Z) (v : Z),
    0 <= v < 2 ^ 32 ->
    write_u24 (at_end s) v = Ok (at_end (s ++ le_bytes 3 v))
    /\ le_decode (le_bytes 3 v) = v mod 2 ^ 24.
Proof.
  intros s v Hv. split; [|apply le_bytes_decode].
  unfold write_u24. rewrite pack_in_range by exact Hv. cbn [rbind].
  change (firstn 3 (le_bytes 4 v)) with (le_bytes 3 v).
  apply write_at_end.
Qed.

Lemma write_u24_truncates_witness :
  write_u24 (at_end []) 0x1000001 = Ok (at_end ([] ++ le_bytes 3 0x1000001))
  /\ le_decode (le_bytes 3 0x1000001) = 0x1000001 mod 2 ^ 24.
Proof. apply (write_u24_truncates [] 0x1000001). cbn. lia. Defined.

(** ** Strings of fixed width *)

Lemma is_ascii_substring_0 (n : nat) (s : string) :
  is_ascii s = true -> is_ascii (substring 0 n s) = true.
Proof.
  revert n. induction s as [|c r IH]; intros [|n] H;
    cbn [substring is_ascii] in *; try reflexivity.
  apply andb_prop in H as [Hc Hr]. now rewrite Hc, (IH n Hr).
Qed.

Lemma encode_ascii_pad (s : string) (k : nat) :
  is_ascii s = true ->
  encode_ascii (s ++ nuls k) = Ok (ascii_codes s ++ repeat 0 k).
Proof.
  intros H. induction s as [|c r IH].
  - cbn [append ascii_codes list_ascii_of_string map app].
    induction k as [|k IHk]; [reflexivity|].
    cbn [nuls encode_ascii repeat]. rewrite IHk. reflexivity.
  - cbn [is_ascii] in H. apply andb_prop in H as [Hc Hr].
    cbn [append encode_ascii]. rewrite Hc, (IH Hr). reflexivity.
Qed.

Lemma encode_ascii_non_ascii (s : string) :
  is_ascii s = false -> encode_ascii s = Err (Raised UnicodeEncodeError).
Proof.
  induction s as [|c r IH]; cbn [is_ascii encode_ascii]; intros H.
  - discriminate.
  - destruct (Z.of_N (N_of_ascii c) <? 128); [|reflexivity].
    cbn [andb] in H. now rewrite (IH H).
Qed.

Lemma len_ascii_codes (s : string) : len (ascii_codes s) = strlen s.
Proof.
  unfold len, strlen, ascii_codes. rewrite length_map.
  induction s as [|c r IH]; cbn [list_ascii_of_string List.length String.length];
    lia.
Qed.

(** X5.  [write_string] with a positive [max_len] always writes exactly
    [max_len] bytes of an ASCII text: its first [max_len] characters, then
    NUL bytes up to the width.  Without a width, a text that is not ASCII
    raises [UnicodeEncodeError] and nothing is written. *)
Theorem write_string_width :
  (forall (s : list Z) (value : string) (max_len : Z),
      0 < max_len -> is_ascii value = true ->
      let text := substring 0 (Z.to_nat max_len) value in
      write_string (at_end s) value max_len
      = Ok (at_end (s ++ ascii_codes text ++ zeros (max_len - strlen text)))
      /\ len (ascii_codes text ++ zeros (max_len - strlen text)) = max_len
      /\ (strlen value <= max_len -> text = value))
  /\ (forall (w : BinaryWriter) (value : string) (max_len : Z),
         max_len <= 0 -> is_ascii value = false ->
         write_string w value max_len = Err (Raised UnicodeEncodeError)).
Proof.
  split.
  - intros s value max_len Hm Ha text.
    assert (Ht : strlen text = Z.min max_len (strlen value)).
    { unfold text. rewrite strlen_substring_0. lia. }
    assert (H0 : 0 <= strlen value) by (unfold strlen; lia).
    split; [|split].
    + unfold write_string. apply Z.ltb_lt in Hm. rewrite Hm. fold text.
      unfold pad_nul.
      rewrite encode_ascii_pad by (apply is_ascii_substring_0, Ha).
      cbn [rbind]. apply write_at_end.
    + rewrite len_app, len_ascii_codes, len_zeros_max. lia.
    + intros Hle. unfold text.
      assert (Hn : (String.length value <= Z.to_nat max_len)%nat)
        by (unfold strlen in *; lia).
      clear - Hn. revert Hn. generalize (Z.to_nat max_len) as n.
      induction value as [|c r IH]; intros [|n] Hn; cbn [substring] in *;
        try reflexivity; cbn [String.length] in Hn; try lia.
      f_equal. apply IH. lia.
  - intros w value max_len Hm Ha. unfold write_string.
    destruct (0 <? max_len) eqn:E; [apply Z.ltb_lt in E; lia|].
    now rewrite encode_ascii_non_ascii.
Qed.

Lemma write_string_width_witness :
  (let text := substring 0 (Z.to_nat 4) "abcdef" in
   write_string (at_end []) "abcdef" 4
   = Ok (at_end ([] ++ ascii_codes text ++ zeros (4 - strlen text)))
   /\ len (ascii_codes text ++ zeros (4 - strlen text)) = 4
   /\ (strlen "abcdef" <= 4 -> text = "abcdef"%string))
  /\ write_string new_writer (String (ascii_of_nat 233) "t") (-1)
     = Err (Raised UnicodeEncodeError).
Proof.
  split.
  - apply (proj1 write_string_width [] "abcdef"%string 4);
      [lia | reflexivity].
  - apply (proj2 write_string_width new_writer
             (String (ascii_of_nat 233) "t") (-1)); [lia | reflexivity].
Defined.

(** ** Reading a key *)

Lemma find_key_absent (d : list (string * json)) (keys : list string) :
  Forall (fun k => assoc k d = None) keys ->
  find_key (JDict d) keys = Ok None.
Proof.
  induction 1 as [|k keys Hk _ IH]; [reflexivity|].
  cbn [find_key contains]. rewrite Hk. cbn [rbind]. exact IH.
Qed.

Lemma find_key_first (d : list (string * json)) (before after : list string)
    (k : string) (v : json) :
  Forall (fun k' => assoc k' d = None) before ->
  assoc k d = Some v ->
  find_key (JDict d) (before ++ k :: after) = Ok (Some (k, v)).
Proof.
  intros Hb Hk. induction Hb as [|k' before Hk' _ IH].
  - cbn [app find_key contains getitem]. rewrite Hk. reflexivity.
  - cbn [app find_key contains]. rewrite Hk'. cbn [rbind]. exact IH.
Qed.

(** X6.  On a dict, [json_read_value] returns the value of the first of
    its keys that the dict holds, with that key.  When the dict holds none of
    them it returns the default, or aborts when there is none; the key it
    then names, in the pair and in the message, is only the first character
    of the last key. *)
Theorem json_read_value_dict :
  forall (d : list (string * json)) (default : option json),
    (forall before k after v,
        Forall (fun k' => assoc k' d = None) before ->
        assoc k d = Some v ->
        json_read_value (JDict d) (before ++ k :: after) default = Ok (k, v))
    /\ (forall before c rest,
           Forall (fun k' => assoc k' d = None)
             (before ++ [String c rest]) ->
           json_read_value (JDict d) (before ++ [String c rest]) default
           = match default with
             | Some dv => Ok (String c EmptyString, dv)
             | None => Err (Abort (missing_key_msg c))
             end).
Proof.
  intros d default. split.
  - intros before k after v Hb Hk. unfold json_read_value.
    now rewrite (find_key_first d before after k v Hb Hk).
  - intros before c rest Habs. unfold json_read_value.
    rewrite (find_key_absent d _ Habs). cbn [rbind]. unfold key0.
    rewrite rev_app_distr. cbn [rev app]. destruct default; reflexivity.
Qed.

Lemma json_read_value_dict_witness :
  json_read_value (JDict [("title_id"%string, JInt 5)])
    (["program_id"%string] ++ "title_id"%string :: []) None
  = Ok ("title_id"%string, JInt 5)
  /\ json_read_value (JDict [("title_id"%string, JInt 5)])
       ([] ++ ["permissions"%string]) None
     = Err (Abort (missing_key_msg "p")).
Proof.
  split.
  - apply (proj1 (json_read_value_dict [("title_id"%string, JInt 5)] None)
             ["program_id"%string] "title_id"%string [] (JInt 5)).
    + repeat constructor.
    + reflexivity.
  - apply (proj2 (json_read_value_dict [("title_id"%string, JInt 5)] None)
             [] "p"%char "ermissions"%string).
    repeat constructor.
Defined.

(** ** Reading an integer *)

Lemma json_read_int_range (j : json) (keys : list string) (lo hi : Z)
    (default : option json) (v : Z) :
  json_read_int j keys lo hi default = Ok v -> lo <= v <= hi.
Proof.
  unfold json_read_int. intros H.
  apply rbind_Ok in H as ([key data] & _ & H).
  apply rbind_Ok in H as (val & _ & H).
  apply rbind_Ok in H as (u & Hu & H). apply Ok_inj in H. subst val.
  apply abort_unless_Ok in Hu. apply andb_prop in Hu as [H1 H2].
  apply Z.leb_le in H1. apply Z.leb_le in H2. lia.
Qed.

(** ** Hexadecimal literals *)

Lemma hex_digit_char (c : ascii) (d : Z) :
  hex_digit c = Some d ->
  (0 <=? d) && (d <? 16) && negb (is_space c) && negb (Ascii.eqb c "-")
  && negb (Ascii.eqb c "+") && negb (Ascii.eqb c "_")
  && negb (Ascii.eqb c "x") && negb (Ascii.eqb c "X") = true.
Proof.
  destruct c as [[] [] [] [] [] [] [] []]; cbv; intros H;
    try discriminate H; injection H as <-; reflexivity.
Qed.

Lemma scan_hex_digits (cs : list ascii) (ds : list Z) :
  Forall2 (fun c d => hex_digit c = Some d) cs ds ->
  forall acc seen, seen = true \/ cs <> [] ->
    scan_digits (string_of_list_ascii cs) acc seen false
    = Some (fold_left (fun a d => 16 * a + d) ds acc).
Proof.
  induction 1 as [|c d cs ds Hc _ IH]; intros acc seen Hseen.
  - destruct Hseen as [-> | Hne]; [reflexivity | congruence].
  - cbn [string_of_list_ascii scan_digits fold_left].
    pose proof (hex_digit_char c d Hc) as Hchar.
    repeat (apply andb_prop in Hchar as [Hchar ?]).
    destruct (Ascii.eqb c "_"); [discriminate|].
    rewrite Hc. apply IH. now left.
Qed.

Lemma int16_literal (neg pre : bool) (cs : list ascii) (ds : list Z) :
  cs <> [] -> Forall2 (fun c d => hex_digit c = Some d) cs ds ->
  int16 (hex_literal neg pre cs) = Ok (signed neg (hex_value ds)).
Proof.
  intros Hne HF. destruct HF as [|c0 d0 cs ds Hc0 HF]; [congruence|].
  clear Hne. pose proof (scan_hex_digits cs ds HF) as Hscan.
  assert (Hc1 : match cs with
                | [] => True
                | c1 :: _ => Ascii.eqb c1 "x" || Ascii.eqb c1 "X" = false
                end).
  { destruct HF as [|c1 d1 cs ds H1 _]; [exact I|].
    pose proof (hex_digit_char c1 d1 H1) as Hchar.
    repeat (apply andb_prop in Hchar as [Hchar ?]).
    destruct (Ascii.eqb c1 "x"), (Ascii.eqb c1 "X"); try discriminate.
    reflexivity. }
  unfold hex_literal, hex_value, signed. cbn [fold_left string_of_list_ascii].
  destruct c0 as [[] [] [] [] [] [] [] []]; cbv in Hc0; try discriminate Hc0;
    injection Hc0 as <-; destruct neg, pre; unfold int16;
    cbn -[scan_digits Z.mul Z.add Z.opp fold_left];
    try (destruct cs as [|c1 cs];
         [|cbn [string_of_list_ascii skip_prefix]; rewrite Hc1];
         cbn -[scan_digits Z.mul Z.add Z.opp fold_left]);
    cbn [scan_digits]; cbn -[scan_digits Z.mul Z.add Z.opp fold_left];
    try (rewrite Hscan by (now left); reflexivity);
    try reflexivity.
  all: try (inversion HF; subst; reflexivity).
  all: specialize (Hscan 0 true (or_introl eq_refl));
    match goal with
    | |- match ?X with Some _ => _ | None => _ end = _ =>
        replace X with (Some (fold_left (fun a d => 16 * a + d) ds 0))
          by (rewrite <- Hscan; reflexivity)
    end;
    reflexivity.
Qed.

Lemma int16_fails (s : string) (e : failure) :
  int16 s = Err e -> e = Raised ValueError.
Proof.
  unfold int16.
  destruct (match lstrip s with
            | String "-" r => (true, r)
            | String "+" r => (false, r)
            | _ => (false, lstrip s)
            end) as [neg body].
  destruct (skip_prefix body) as [|c r].
  - destruct (scan_digits _ _ _ _); [discriminate | now intros [= <-]].
  - destruct c as [[] [] [] [] [] [] [] []];
      try (destruct (scan_digits _ _ _ _); [discriminate|]);
      now intros [= <-].
Qed.

Lemma int_of_json_fails (data : json) (e : failure) :
  int_of_json data = Err e ->
  match data with
  | JStr _ => e = Raised ValueError
  | _ => e = Raised TypeError
  end.
Proof.
  destruct data; cbn; try discriminate; try (now intros [= <-]).
  apply int16_fails.
Qed.

(** X7.  [json_read_int] on the value found for its key.  An integer is
    taken as it is and a boolean as 1 or 0.  A string that is a hexadecimal
    literal (an optional minus sign, an optional [0x], one or more digits
    [0-9a-fA-F]) is taken as the number it denotes, the first digit the most
    significant; any string that does not read is a [ValueError].  The number
    is returned when it lies within [min_val, max_val], and otherwise the
    build aborts with the key and the two bounds in hexadecimal; a returned
    value is always within the bounds.  [null], a float, a list or a dict
    never reach the message meant for them: [abort] is called with two
    arguments, which is a [TypeError]. *)
Theorem json_read_int_cases :
  forall (j : json) (keys : list string) (lo hi : Z) (default : option json)
         (key : string) (data : json),
    json_read_value j keys default = Ok (key, data) ->
    (forall n, data = JInt n ->
       json_read_int j keys lo hi default = ranged key lo hi n)
    /\ (forall b, data = JBool b ->
          json_read_int j keys lo hi default = ranged key lo hi (Z.b2z b))
    /\ (forall neg pre cs ds,
          cs <> [] ->
          Forall2 (fun c d => hex_digit c = Some d) cs ds ->
          data = JStr (hex_literal neg pre cs) ->
          json_read_int j keys lo hi default
          = ranged key lo hi (signed neg (hex_value ds)))
    /\ (forall s e,
          data = JStr s ->
          json_read_int j keys lo hi default = Err e ->
          e = Raised ValueError \/ e = Abort (int_range_msg key lo hi))
    /\ (match data with
        | JNull | JFloat _ | JList _ | JDict _ =>
            json_read_int j keys lo hi default = Err (Raised TypeError)
        | _ => True
        end)
    /\ (forall v, json_read_int j keys lo hi default = Ok v -> lo <= v <= hi)
    /\ (forall c d, hex_digit c = Some d ->
          0 <= d < 16
          /\ (d < 10 -> Z.of_N (N_of_ascii c) = 48 + d)
          /\ (10 <= d -> Z.of_N (N_of_ascii c) = 87 + d
                         \/ Z.of_N (N_of_ascii c) = 55 + d)).
Proof.
  intros j keys lo hi default key data Hread.
  assert (Hnum : forall n, int_of_json data = Ok n ->
                   json_read_int j keys lo hi default = ranged key lo hi n).
  { intros n Hn. unfold json_read_int, ranged. rewrite Hread. cbn [rbind].
    rewrite Hn. cbn [rbind]. fold (int_range_msg key lo hi).
    destruct ((lo <=? n) && (n <=? hi)); reflexivity. }
  split; [|split; [|split; [|split; [|split; [|split]]]]].
  - intros n ->. now apply Hnum.
  - intros b ->. apply Hnum. now destruct b.
  - intros neg pre cs ds Hne Hds ->. apply Hnum. cbn [int_of_json as_int].
    now apply int16_literal.
  - intros s e -> He. destruct (int16 s) as [n|e'] eqn:E.
    + right. rewrite (Hnum n) in He by exact E. unfold ranged in He.
      destruct ((lo <=? n) && (n <=? hi)); [discriminate|].
      now injection He as <-.
    + left. unfold json_read_int in He. rewrite Hread in He.
      cbn [rbind int_of_json as_int] in He. rewrite E in He.
      cbn [rbind] in He. injection He as <-. exact (int16_fails s e' E).
  - destruct data; try exact I; unfold json_read_int; rewrite Hread;
      reflexivity.
  - intros v Hv. exact (json_read_int_range _ _ _ _ _ _ Hv).
  - intros c d H. destruct c as [[] [] [] [] [] [] [] []]; cbv in H;
      try discriminate H; injection H as <-;
      match goal with
      | |- context [Z.of_N ?x] =>
          let v := eval vm_compute in (Z.of_N x) in
          change (Z.of_N x) with v
      end; lia.
Qed.

Lemma json_read_int_cases_witness :
  json_read_int (JDict [("main_thread_stack_size"%string, JStr "0x4000")])
    ["main_thread_stack_size"%string] 0 0xffffffff None
  = Ok 0x4000
  /\ json_read_int (JDict [("pool_partition"%string, JStr "-1F")])
       ["pool_partition"%string] 0 3 None
     = Err (Abort (int_range_msg "pool_partition" 0 3))
  /\ json_read_int (JDict [("pool_partition"%string, JBool true)])
       ["pool_partition"%string] 0 3 None
     = Ok 1.
Proof.
  split; [|split].
  - apply (proj1 (proj2 (proj2
             (json_read_int_cases
                (JDict [("main_thread_stack_size"%string, JStr "0x4000")])
                ["main_thread_stack_size"%string] 0 0xffffffff None
                "main_thread_stack_size"%string (JStr "0x4000") eq_refl)))
             false true ["4"; "0"; "0"; "0"]%char [4; 0; 0; 0]).
    + discriminate.
    + repeat constructor.
    + reflexivity.
  - apply (proj1 (proj2 (proj2
             (json_read_int_cases
                (JDict [("pool_partition"%string, JStr "-1F")])
                ["pool_partition"%string] 0 3 None
                "pool_partition"%string (JStr "-1F") eq_refl)))
             true false ["1"; "F"]%char [1; 15]).
    + discriminate.
    + repeat constructor.
    + reflexivity.
  - apply (proj1 (proj2
             (json_read_int_cases
                (JDict [("pool_partition"%string, JBool true)])
                ["pool_partition"%string] 0 3 None
                "pool_partition"%string (JBool true) eq_refl))
             true).
    reflexivity.
Defined.

(** ** Fields of the capability words *)

Lemma lor_flag_add (a k : Z) (b : bool) :
  0 <= k -> 0 <= a < 2 ^ k ->
  Z.lor a (if b then Z.shiftl 1 k else 0) = a + Z.b2z b * 2 ^ k.
Proof.
  intros Hk Ha. destruct b; cbn [Z.b2z].
  - now apply lor_shiftl_add.
  - rewrite Z.lor_0_r. lia.
Qed.

Ltac pow_consts :=
  repeat match goal with
         | |- context [2 ^ Zpos ?k] =>
             let v := eval vm_compute in (2 ^ Zpos k) in
             change (2 ^ Zpos k) with v
         | H : context [2 ^ Zpos ?k] |- _ =>
             let v := eval vm_compute in (2 ^ Zpos k) in
             change (2 ^ Zpos k) with v in H
         end.

(** Reads a field off a word given as the sum of its shifted fields. *)
Ltac read_field :=
  unfold bits; rewrite Z.shiftr_div_pow2, Z.land_ones by lia;
  pow_consts; Z.div_mod_to_equations; lia.

Ltac b2z_bounds :=
  repeat match goal with
         | b : bool |- _ =>
             lazymatch goal with
             | H : 0 <= Z.b2z b <= 1 |- _ => fail
             | _ => assert (0 <= Z.b2z b <= 1) by (destruct b; cbn; lia)
             end
         end.

(** X8.  A [kernel_flags] entry whose four fields read within their bounds
    is one word: tag 0b0111 in bits 0..3, [highest_thread_priority] in bits
    4..9, [lowest_thread_priority] in bits 10..15, [lowest_cpu_id] in bits
    16..23 and [highest_cpu_id] in bits 24..31, each read back unchanged. *)
Theorem kernel_flags_word :
  forall (s : list Z) (data : option json) (val : option Z) (cap : json)
         (value : list (string * json)) (hp lp lc hc : Z),
    json_read_dict cap ["value"%string] None = Ok value ->
    json_read_int (JDict value) ["highest_thread_priority"%string] 0 63 None
    = Ok hp ->
    json_read_int (JDict value) ["lowest_thread_priority"%string] 0 63 None
    = Ok lp ->
    json_read_u8 (JDict value) ["lowest_cpu_id"%string] None = Ok lc ->
    json_read_u8 (JDict value) ["highest_cpu_id"%string] None = Ok hc ->
    exists word,
      kc_kernel_flags (mkLocals (at_end s) data val) cap
      = Ok (mkLocals (at_end (s ++ le_bytes 4 word)) data val)
      /\ bits word 0 4 = 7
      /\ bits word 4 6 = hp
      /\ bits word 10 6 = lp
      /\ bits word 16 8 = lc
      /\ bits word 24 8 = hc.
Proof.
  intros s data val cap value hp lp lc hc Hv Hhp Hlp Hlc Hhc.
  pose proof (json_read_int_range _ _ _ _ _ _ Hhp) as Rhp.
  pose proof (json_read_int_range _ _ _ _ _ _ Hlp) as Rlp.
  pose proof (json_read_int_range _ _ _ _ _ _ Hlc) as Rlc.
  pose proof (json_read_int_range _ _ _ _ _ _ Hhc) as Rhc.
  change (Z.shiftl 1 8 - 1) with 255 in Rlc, Rhc.
  set (word := 7 + hp * 2 ^ 4 + lp * 2 ^ 10 + lc * 2 ^ 16 + hc * 2 ^ 24).
  assert (E : Z.lor (Z.lor (Z.lor (Z.lor (Z.shiftl 1 3 - 1) (Z.shiftl hp 4))
                              (Z.shiftl lp 10)) (Z.shiftl lc 16))
                (Z.shiftl hc 24) = word).
  { change (Z.shiftl 1 3 - 1) with 7. unfold word.
    rewrite (lor_shiftl_add 7 hp 4) by (pow_consts; lia).
    rewrite (lor_shiftl_add _ lp 10) by (pow_consts; lia).
    rewrite (lor_shiftl_add _ lc 16) by (pow_consts; lia).
    rewrite (lor_shiftl_add _ hc 24) by (pow_consts; lia).
    reflexivity. }
  exists word. split.
  - unfold kc_kernel_flags. rewrite Hv. cbn [rbind].
    rewrite Hhp. cbn [rbind]. rewrite Hlp. cbn [rbind].
    rewrite Hlc. cbn [rbind]. rewrite Hhc. cbn [rbind kc_writer].
    rewrite E. unfold write_u32.
    rewrite _write_at_end
      by (change (2 ^ (8 * Z.of_nat 4)) with 4294967296; unfold word;
          pow_consts; lia).
    reflexivity.
  - unfold word. repeat split; read_field.
Qed.

Ltac u32_range :=
  change (2 ^ (8 * Z.of_nat 4)) with 4294967296; pow_consts; lia.

(** X9.  A [map] entry is two words, both with tag 0b0111111 in bits 0..6:
    the first carries [address] in bits 7..30 and [is_ro] in bit 31, the
    second [size] in bits 7..26, zeros in bits 27..30 and [is_io] in bit
    31. *)
Theorem map_words :
  forall (s : list Z) (data : option json) (val : option Z) (cap : json)
         (value : list (string * json)) (address size : Z)
         (is_ro is_io : bool),
    json_read_dict cap ["value"%string] None = Ok value ->
    json_read_int (JDict value) ["address"%string] 0 (Z.shiftl 1 24 - 1) None
    = Ok address ->
    json_read_bool (JDict value) ["is_ro"%string] None = Ok is_ro ->
    json_read_int (JDict value) ["size"%string] 0 (Z.shiftl 1 20 - 1) None
    = Ok size ->
    json_read_bool (JDict value) ["is_io"%string] None = Ok is_io ->
    exists w1 w2,
      kc_map (mkLocals (at_end s) data val) cap
      = Ok (mkLocals (at_end (s ++ le_bytes 4 w1 ++ le_bytes 4 w2)) data val)
      /\ bits w1 0 7 = 63
      /\ bits w1 7 24 = address
      /\ bits w1 31 1 = Z.b2z is_ro
      /\ bits w2 0 7 = 63
      /\ bits w2 7 20 = size
      /\ bits w2 27 4 = 0
      /\ bits w2 31 1 = Z.b2z is_io.
Proof.
  intros s data val cap value address size is_ro is_io Hv Ha Hro Hs Hio.
  pose proof (json_read_int_range _ _ _ _ _ _ Ha) as Ra.
  pose proof (json_read_int_range _ _ _ _ _ _ Hs) as Rs.
  change (Z.shiftl 1 24 - 1) with 16777215 in Ra.
  change (Z.shiftl 1 20 - 1) with 1048575 in Rs.
  b2z_bounds.
  set (w1 := 63 + address * 2 ^ 7 + Z.b2z is_ro * 2 ^ 31).
  set (w2 := 63 + size * 2 ^ 7 + Z.b2z is_io * 2 ^ 31).
  assert (E1 : Z.lor (Z.lor (Z.shiftl 1 6 - 1) (Z.shiftl address 7))
                 (if is_ro then Z.shiftl 1 31 else 0) = w1).
  { change (Z.shiftl 1 6 - 1) with 63. unfold w1.
    rewrite (lor_shiftl_add 63 address 7) by (pow_consts; lia).
    rewrite lor_flag_add by (pow_consts; lia). reflexivity. }
  assert (E2 : Z.lor (Z.lor (Z.shiftl 1 6 - 1) (Z.shiftl size 7))
                 (if is_io then Z.shiftl 1 31 else 0) = w2).
  { change (Z.shiftl 1 6 - 1) with 63. unfold w2.
    rewrite (lor_shiftl_add 63 size 7) by (pow_consts; lia).
    rewrite lor_flag_add by (pow_consts; lia). reflexivity. }
  exists w1, w2. split.
  - unfold kc_map. rewrite Hv. cbn [rbind].
    rewrite Ha. cbn [rbind]. rewrite Hro. cbn [rbind kc_writer].
    rewrite E1. unfold write_u32.
    rewrite _write_at_end by (unfold w1; u32_range). cbn [rbind].
    rewrite Hs. cbn [rbind]. rewrite Hio. cbn [rbind].
    rewrite E2.
    rewrite _write_at_end by (unfold w2; u32_range). cbn [rbind].
    now rewrite <- app_assoc.
  - unfold w1, w2. repeat split; read_field.
Qed.

Lemma map_words_witness :
  exists w1 w2,
    kc_map (mkLocals (at_end [1]) None None) (map_cap 0x1234 0x10 true false)
    = Ok (mkLocals (at_end ([1] ++ le_bytes 4 w1 ++ le_bytes 4 w2)) None None)
    /\ bits w1 0 7 = 63
    /\ bits w1 7 24 = 0x1234
    /\ bits w1 31 1 = Z.b2z true
    /\ bits w2 0 7 = 63
    /\ bits w2 7 20 = 0x10
    /\ bits w2 27 4 = 0
    /\ bits w2 31 1 = Z.b2z false.
Proof.
  apply (map_words [1] None None (map_cap 0x1234 0x10 true false)
           [("address", JInt 0x1234); ("is_ro", JBool true);
            ("size", JInt 0x10); ("is_io", JBool false)]%string);
    reflexivity.
Defined.

Lemma kernel_flags_word_witness :
  exists word,
    kc_kernel_flags (mkLocals (at_end []) None None)
      (kernel_flags_cap 63 24 0 3)
    = Ok (mkLocals (at_end ([] ++ le_bytes 4 word)) None None)
    /\ bits word 0 4 = 7
    /\ bits word 4 6 = 63
    /\ bits word 10 6 = 24
    /\ bits word 16 8 = 0
    /\ bits word 24 8 = 3.
Proof.
  apply (kernel_flags_word [] None None (kernel_flags_cap 63 24 0 3)
           [("highest_thread_priority", JInt 63);
            ("lowest_thread_priority", JInt 24);
            ("lowest_cpu_id", JInt 0);
            ("highest_cpu_id", JInt 3)]%string);
    reflexivity.
Defined.

(** X10.  The three entries of one number: [application_type] (0..2, 0 when
    the entry has no [value]) under a tag of 13 ones, in bits 14..31;
    [min_kernel_version] (16 bits) under a tag of 14 ones, in bits 15..30;
    [handle_table_size] (0..1023) under a tag of 15 ones, in bits 16..25.
    Each tag ends in a zero bit and every bit above the field is zero. *)
Theorem scalar_capability_words :
  forall (s : list Z) (data : option json) (val : option Z) (cap : json)
         (v : Z),
    (json_read_int cap ["value"%string] 0 2 (Some (JInt 0)) = Ok v ->
     exists word,
       kc_application_type (mkLocals (at_end s) data val) cap
       = Ok (mkLocals (at_end (s ++ le_bytes 4 word)) data val)
       /\ bits word 0 14 = 2 ^ 13 - 1 /\ bits word 14 18 = v)
    /\ (json_read_u16 cap ["value"%string] None = Ok v ->
        exists word,
          kc_min_kernel_version (mkLocals (at_end s) data val) cap
          = Ok (mkLocals (at_end (s ++ le_bytes 4 word)) data val)
          /\ bits word 0 15 = 2 ^ 14 - 1 /\ bits word 15 17 = v)
    /\ (json_read_int cap ["value"%string] 0 (Z.shiftl 1 10 - 1) None = Ok v ->
        exists word,
          kc_handle_table_size (mkLocals (at_end s) data val) cap
          = Ok (mkLocals (at_end (s ++ le_bytes 4 word)) data val)
          /\ bits word 0 16 = 2 ^ 15 - 1 /\ bits word 16 16 = v).
Proof.
  intros s data val cap v. split; [|split]; intros Hv;
    pose proof (json_read_int_range _ _ _ _ _ _ Hv) as Rv.
  - exists (8191 + v * 2 ^ 14). split.
    + unfold kc_application_type. rewrite Hv. cbn [rbind kc_writer].
      change (Z.shiftl 1 13 - 1) with 8191.
      rewrite (lor_shiftl_add 8191 v 14) by (pow_consts; lia).
      unfold write_u32. rewrite _write_at_end by u32_range. reflexivity.
    + split; read_field.
  - change (Z.shiftl 1 16 - 1) with 65535 in Rv.
    exists (16383 + v * 2 ^ 15). split.
    + unfold kc_min_kernel_version. rewrite Hv. cbn [rbind kc_writer].
      change (Z.shiftl 1 14 - 1) with 16383.
      rewrite (lor_shiftl_add 16383 v 15) by (pow_consts; lia).
      unfold write_u32. rewrite _write_at_end by u32_range. reflexivity.
    + split; read_field.
  - change (Z.shiftl 1 10 - 1) with 1023 in Rv.
    exists (32767 + v * 2 ^ 16). split.
    + unfold kc_handle_table_size. rewrite Hv. cbn [rbind kc_writer].
      change (Z.shiftl 1 15 - 1) with 32767.
      rewrite (lor_shiftl_add 32767 v 16) by (pow_consts; lia).
      unfold write_u32. rewrite _write_at_end by u32_range. reflexivity.
    + split; read_field.
Qed.

Lemma scalar_capability_words_witness :
  (exists word,
      kc_application_type (mkLocals (at_end [9]) None None)
        (JDict [("type", JStr "application_type")]%string)
      = Ok (mkLocals (at_end ([9] ++ le_bytes 4 word)) None None)
      /\ bits word 0 14 = 2 ^ 13 - 1 /\ bits word 14 18 = 0)
  /\ (exists word,
         kc_min_kernel_version (mkLocals (at_end [9]) None None)
           (scalar_cap "min_kernel_version" 0x30)
         = Ok (mkLocals (at_end ([9] ++ le_bytes 4 word)) None None)
         /\ bits word 0 15 = 2 ^ 14 - 1 /\ bits word 15 17 = 0x30)
  /\ (exists word,
         kc_handle_table_size (mkLocals (at_end [9]) None None)
           (scalar_cap "handle_table_size" 0x30)
         = Ok (mkLocals (at_end ([9] ++ le_bytes 4 word)) None None)
         /\ bits word 0 16 = 2 ^ 15 - 1 /\ bits word 16 16 = 0x30).
Proof.
  split; [|split].
  - apply (scalar_capability_words [9] None None
             (JDict [("type", JStr "application_type")]%string) 0).
    reflexivity.
  - apply (scalar_capability_words [9] None None
             (scalar_cap "min_kernel_version" 0x30) 0x30).
    reflexivity.
  - apply (scalar_capability_words [9] None None
             (scalar_cap "handle_table_size" 0x30) 0x30).
    reflexivity.
Defined.

Lemma map_region_item_ok (cap i : Z) (region : json) (f : Z * bool) :
  region_fields region f -> 0 <= i -> 0 <= cap < 2 ^ (11 + 7 * i) ->
  map_region_item cap i region
  = Ok (cap + fst f * 2 ^ (11 + 7 * i) + Z.b2z (snd f) * 2 ^ (17 + 7 * i)).
Proof.
  intros (Hd & Ht & Hro) Hi Hcap.
  pose proof (json_read_int_range _ _ _ _ _ _ Ht) as Rt.
  destruct region; try discriminate. unfold map_region_item.
  rewrite Ht. cbn [rbind]. rewrite Hro. cbn [rbind].
  rewrite lor_shiftl_add by lia.
  assert (E : 2 ^ (17 + 7 * i) = 2 ^ (11 + 7 * i) * 64).
  { replace (17 + 7 * i) with (11 + 7 * i + 6) by lia.
    rewrite Z.pow_add_r by lia. reflexivity. }
  rewrite lor_flag_add; [reflexivity | lia |].
  rewrite E. nia.
Qed.

Ltac region_index :=
  try change (Z.to_nat 0) with 0%nat; try change (Z.to_nat 1) with 1%nat;
  try change (Z.to_nat 2) with 2%nat; cbn [nth_error];
  try change (11 + 7 * 0) with 11; try change (11 + 7 * 1) with 18;
  try change (11 + 7 * 2) with 25.

(** X11.  A [map_region] entry of at most three regions is one word: tag
    of ten ones and a zero in bits 0..10, then seven bits a region from bit
    11 on: [region_type] in the low two, [is_ro] in the seventh, zeros
    between, and zeros for the regions the entry does not list. *)
Theorem map_region_word :
  forall (s : list Z) (data : option json) (val : option Z) (cap : json)
         (value : list json) (fields : list (Z * bool)),
    json_read_list cap ["value"%string] None = Ok value ->
    Forall2 region_fields value fields ->
    len value <= 3 ->
    exists word,
      kc_map_region (mkLocals (at_end s) data val) cap
      = Ok (mkLocals (at_end (s ++ le_bytes 4 word)) data val)
      /\ bits word 0 11 = 1023
      /\ forall i, 0 <= i < 3 ->
           bits word (11 + 7 * i) 7
           = match nth_error fields (Z.to_nat i) with
             | Some (t, ro) => t + 64 * Z.b2z ro
             | None => 0
             end.
Proof.
  intros s data val cap value fields Hv HF Hlen.
  assert (Hcases : forall i, 0 <= i < 3 -> i = 0 \/ i = 1 \/ i = 2)
    by (intros; lia).
  assert (R : forall region f, region_fields region f ->
                0 <= fst f <= 3 /\ 0 <= Z.b2z (snd f) <= 1).
  { intros region f (_ & Ht & _). split.
    - exact (json_read_int_range _ _ _ _ _ _ Ht).
    - destruct (snd f); cbn; lia. }
  unfold kc_map_region. rewrite Hv. cbn [rbind].
  apply Z.leb_le in Hlen as Hle. rewrite Hle. cbn [abort_unless rbind].
  clear Hle Hv. change (Z.shiftl 1 10 - 1) with 1023.
  inversion HF as [|r0 f0 v0 fs0 H0 HF0]; subst.
  { exists 1023. cbn [for_enumerate rbind kc_writer]. unfold write_u32.
    rewrite _write_at_end by u32_range. split; [reflexivity|].
    split; [read_field|]. intros i Hi.
    destruct (Hcases i Hi) as [-> | [-> | ->]]; region_index; read_field. }
  pose proof (R _ _ H0) as [Rt0 Rb0]. destruct f0 as [t0 b0]. cbn [fst snd] in *.
  cbn [for_enumerate].
  rewrite (map_region_item_ok _ _ _ _ H0) by (pow_consts; cbn; lia).
  cbn [rbind fst snd]. change (11 + 7 * 0) with 11. change (17 + 7 * 0) with 17.
  inversion HF0 as [|r1 f1 v1 fs1 H1 HF1]; subst.
  { eexists. cbn [for_enumerate rbind kc_writer]. unfold write_u32.
    rewrite _write_at_end by u32_range. split; [reflexivity|].
    split; [read_field|]. intros i Hi.
    destruct (Hcases i Hi) as [-> | [-> | ->]];
      region_index; read_field. }
  pose proof (R _ _ H1) as [Rt1 Rb1]. destruct f1 as [t1 b1]. cbn [fst snd] in *.
  cbn [for_enumerate]. change (0 + 1) with 1.
  rewrite (map_region_item_ok _ _ _ _ H1)
    by (change (11 + 7 * 1) with 18; pow_consts; lia).
  cbn [rbind fst snd]. change (11 + 7 * 1) with 18. change (17 + 7 * 1) with 24.
  inversion HF1 as [|r2 f2 v2 fs2 H2 HF2]; subst.
  { eexists. cbn [for_enumerate rbind kc_writer]. unfold write_u32.
    rewrite _write_at_end by u32_range. split; [reflexivity|].
    split; [read_field|]. intros i Hi.
    destruct (Hcases i Hi) as [-> | [-> | ->]];
      region_index; read_field. }
  pose proof (R _ _ H2) as [Rt2 Rb2]. destruct f2 as [t2 b2]. cbn [fst snd] in *.
  cbn [for_enumerate]. change (1 + 1) with 2.
  rewrite (map_region_item_ok _ _ _ _ H2)
    by (change (11 + 7 * 2) with 25; pow_consts; lia).
  cbn [rbind fst snd]. change (11 + 7 * 2) with 25. change (17 + 7 * 2) with 31.
  inversion HF2 as [|r3 f3 v3 fs3 H3 HF3]; subst.
  { eexists. cbn [for_enumerate rbind kc_writer]. unfold write_u32.
    rewrite _write_at_end by u32_range. split; [reflexivity|].
    split; [read_field|]. intros i Hi.
    destruct (Hcases i Hi) as [-> | [-> | ->]];
      region_index; read_field. }
  rewrite !len_cons in Hlen. pose proof (len_nonneg v3). lia.
Qed.

Lemma map_region_word_witness :
  exists word,
    kc_map_region (mkLocals (at_end [5]) None None)
      (map_region_cap [region 1 false; region 3 true])
    = Ok (mkLocals (at_end ([5] ++ le_bytes 4 word)) None None)
    /\ bits word 0 11 = 1023
    /\ forall i, 0 <= i < 3 ->
         bits word (11 + 7 * i) 7
         = match nth_error [(1, false); (3, true)] (Z.to_nat i) with
           | Some (t, ro) => t + 64 * Z.b2z ro
           | None => 0
           end.
Proof.
  apply (map_region_word [5] None None
           (map_region_cap [region 1 false; region 3 true])
           [region 1 false; region 3 true] [(1, false); (3, true)]).
  - reflexivity.
  - repeat constructor.
  - vm_compute. discriminate.
Defined.

(** X12.  A [debug_flags] entry whose three flags read as booleans (each
    false when absent): with at most one of them set it is one word, tag of
    sixteen ones and a zero in bits 0..16, [allow_debug] in bit 17,
    [force_debug_prod] in bit 18, [force_debug] in bit 19 and zeros above;
    with two or three set the build aborts and nothing is written. *)
Theorem debug_flags_word :
  forall (s : list Z) (data : option json) (val : option Z) (cap : json)
         (value : list (string * json))
         (allow_debug force_debug force_debug_prod : bool),
    json_read_dict cap ["value"%string] None = Ok value ->
    json_read_bool (JDict value) ["allow_debug"%string] (Some (JBool false))
    = Ok allow_debug ->
    json_read_bool (JDict value) ["force_debug"%string] (Some (JBool false))
    = Ok force_debug ->
    json_read_bool (JDict value) ["force_debug_prod"%string]
      (Some (JBool false)) = Ok force_debug_prod ->
    if Z.b2z allow_debug + Z.b2z force_debug + Z.b2z force_debug_prod <=? 1
    then
      exists word,
        kc_debug_flags (mkLocals (at_end s) data val) cap
        = Ok (mkLocals (at_end (s ++ le_bytes 4 word)) data val)
        /\ bits word 0 17 = 2 ^ 16 - 1
        /\ bits word 17 1 = Z.b2z allow_debug
        /\ bits word 18 1 = Z.b2z force_debug_prod
        /\ bits word 19 1 = Z.b2z force_debug
        /\ bits word 20 12 = 0
    else
      kc_debug_flags (mkLocals (at_end s) data val) cap
      = Err (Abort debug_flags_msg).
Proof.
  intros s data val cap value a f fp Hv Ha Hf Hfp.
  destruct (Z.b2z a + Z.b2z f + Z.b2z fp <=? 1) eqn:E.
  - exists (65535 + Z.b2z a * 2 ^ 17 + Z.b2z fp * 2 ^ 18 + Z.b2z f * 2 ^ 19).
    b2z_bounds. split.
    + unfold kc_debug_flags. rewrite Hv. cbn [rbind].
      rewrite Ha. cbn [rbind]. rewrite Hf. cbn [rbind].
      rewrite Hfp. cbn [rbind]. rewrite E. cbn [abort_unless rbind kc_writer].
      change (Z.shiftl 1 16 - 1) with 65535.
      rewrite (lor_flag_add 65535 17 a) by (pow_consts; lia).
      rewrite (lor_flag_add _ 18 fp) by (pow_consts; lia).
      rewrite (lor_flag_add _ 19 f) by (pow_consts; lia).
      unfold write_u32. rewrite _write_at_end by u32_range. reflexivity.
    + repeat split; read_field.
  - unfold kc_debug_flags. rewrite Hv. cbn [rbind].
    rewrite Ha. cbn [rbind]. rewrite Hf. cbn [rbind].
    rewrite Hfp. cbn [rbind]. rewrite E. reflexivity.
Qed.

Lemma debug_flags_word_witness :
  exists word,
    kc_debug_flags (mkLocals (at_end [5]) None None)
      (JDict [("type", JStr "debug_flags");
              ("value", JDict [("force_debug", JBool true)])]%string)
    = Ok (mkLocals (at_end ([5] ++ le_bytes 4 word)) None None)
    /\ bits word 0 17 = 2 ^ 16 - 1
    /\ bits word 17 1 = Z.b2z false
    /\ bits word 18 1 = Z.b2z false
    /\ bits word 19 1 = Z.b2z true
    /\ bits word 20 12 = 0.
Proof.
  apply (debug_flags_word [5] None None
           (JDict [("type", JStr "debug_flags");
                   ("value", JDict [("force_debug", JBool true)])]%string)
           [("force_debug", JBool true)]%string false true false);
    reflexivity.
Defined.

(** X13.  The checks of an entry come in a fixed order: an entry that is
    not a dict is refused whatever its index; a dict at index 32 or later
    is refused for the count, whatever it holds; below 32 a failure to read
    [type] as a string is the failure of the entry, and a [type] outside
    the ten known names aborts with a message quoting it. *)
Theorem kc_entry_rejects :
  forall (st : kc_locals) (idx : Z) (cap : json),
    (is_dict cap = false ->
     kc_entry st idx cap = Err (Abort "kernel capabilities must be dicts"))
    /\ (is_dict cap = true -> 32 <= idx ->
        kc_entry st idx cap = Err (Abort too_many_msg))
    /\ (is_dict cap = true -> idx < 32 ->
        forall e, json_read_str cap ["type"%string] (-1) None = Err e ->
                  kc_entry st idx cap = Err e)
    /\ (is_dict cap = true -> idx < 32 ->
        forall type_,
          json_read_str cap ["type"%string] (-1) None = Ok type_ ->
          ~ In type_ kc_types ->
          kc_entry st idx cap = Err (Abort (unrecognised_msg type_))).
Proof.
  intros st idx cap. unfold kc_entry. fold (is_dict cap).
  split; [|split; [|split]].
  - intros ->. reflexivity.
  - intros -> Hidx. apply Z.ltb_ge in Hidx. rewrite Hidx. reflexivity.
  - intros -> Hidx e He. apply Z.ltb_lt in Hidx. rewrite Hidx, He. reflexivity.
  - intros -> Hidx type_ Ht Hnot. apply Z.ltb_lt in Hidx. rewrite Hidx, Ht.
    cbn [abort_unless rbind].
    repeat match goal with
           | |- (if String.eqb type_ ?n then _ else _) = _ =>
               destruct (String.eqb_spec type_ n) as [->|_];
               [exfalso; apply Hnot; unfold kc_types; cbn [In]; tauto|]
           end.
    reflexivity.
Qed.

Lemma kc_entry_rejects_witness :
  kc_entry (mkLocals new_writer None None) 40 (JInt 3)
  = Err (Abort "kernel capabilities must be dicts")
  /\ kc_entry (mkLocals new_writer None None) 32 (scalar_cap "bogus" 1)
     = Err (Abort too_many_msg)
  /\ kc_entry (mkLocals new_writer None None) 0
       (JDict [("type", JInt 1)]%string)
     = Err (Abort "`type` must be a string")
  /\ kc_entry (mkLocals new_writer None None) 31 (scalar_cap "bogus" 1)
     = Err (Abort (unrecognised_msg "bogus")).
Proof.
  split; [|split; [|split]].
  - apply (proj1 (kc_entry_rejects (mkLocals new_writer None None) 40
                    (JInt 3))).
    reflexivity.
  - apply (proj1 (proj2 (kc_entry_rejects (mkLocals new_writer None None) 32
                           (scalar_cap "bogus" 1)))); [reflexivity | lia].
  - apply (proj1 (proj2 (proj2
             (kc_entry_rejects (mkLocals new_writer None None) 0
                (JDict [("type", JInt 1)]%string)))));
      [reflexivity | lia | reflexivity].
  - apply (proj2 (proj2 (proj2
             (kc_entry_rejects (mkLocals new_writer None None) 31
                (scalar_cap "bogus" 1)))));
      [reflexivity | lia | reflexivity |].
    vm_compute. intuition discriminate.
Defined.

(** ** Size of the kernel capability table *)

Lemma appends_at_most_one (st : kc_locals) (cap : Z) (w : BinaryWriter) :
  write_u32 (kc_writer st) cap = Ok w ->
  appends_at_most 8 st (with_writer st w).
Proof.
  intros H s Hs. rewrite Hs in H. apply write_u32_at_end_Ok in H as [-> _].
  exists [cap]. cbn [with_writer kc_writer flat_map].
  rewrite app_nil_r. split; [reflexivity | cbn; lia].
Qed.

Lemma syscall_items_length (value : list (string * json)) :
  forall groups st groups' st',
    for_each syscall_item (groups, st) value = Ok (groups', st') ->
    List.length groups' = List.length groups.
Proof.
  induction value as [|item value IH]; intros groups st groups' st' H.
  - apply Ok_inj in H. now injection H as <- _.
  - cbn [for_each] in H. apply rbind_Ok in H as ([g1 st1] & Hitem & H).
    rewrite (IH _ _ _ _ H). unfold syscall_item in Hitem.
    apply rbind_Ok in Hitem as (val & _ & Hitem).
    apply rbind_Ok in Hitem as (u & _ & Hitem).
    apply rbind_Ok in Hitem as (g & Hg & Hitem).
    apply Ok_inj in Hitem. injection Hitem as <- _.
    unfold groups_or, setitem in Hg.
    repeat match type of Hg with
           | (if ?c then _ else _) = _ => destruct c
           end; try discriminate;
      apply Ok_inj in Hg; subst g; apply length_list_set.
Qed.

Lemma syscall_groups_at_most (groups : list Z) :
  forall idx s w,
    for_enumerate syscall_group idx (at_end s) groups = Ok w ->
    exists ws, w = at_end (s ++ flat_map (le_bytes 4) ws)
               /\ len ws <= len groups.
Proof.
  induction groups as [|g groups IH]; intros idx s w H.
  - apply Ok_inj in H. subst w. exists []. cbn. now rewrite app_nil_r.
  - cbn [for_enumerate] in H. apply rbind_Ok in H as (x & Hx & H).
    rewrite len_cons. unfold syscall_group in Hx. destruct (g =? 0).
    + apply Ok_inj in Hx. subst x.
      destruct (IH _ _ _ H) as (ws & -> & Hlen). exists ws. split; [easy | lia].
    + apply write_u32_at_end_Ok in Hx as [-> _].
      destruct (IH _ _ _ H) as (ws & -> & Hlen).
      exists (Z.lor (Z.lor (Z.shiftl 1 4 - 1) (Z.shiftl g 5)) (Z.shiftl idx 29)
              :: ws).
      cbn [flat_map]. rewrite <- !app_assoc, len_cons. split; [easy | lia].
Qed.

Lemma kc_entry_at_most (st : kc_locals) (idx : Z) (cap : json)
    (st' : kc_locals) :
  kc_entry st idx cap = Ok st' -> appends_at_most 8 st st'.
Proof.
  intros H. unfold kc_entry in H.
  bind_step H ok1 Hok1. bind_step H ok2 Hok2. bind_step H ty Hty.
  repeat match type of H with
         | (if ?c then _ else _) = _ => destruct c
         end; try discriminate.
  - unfold kc_kernel_flags in H. bind_all H.
    apply Ok_inj in H. subst st'. eapply appends_at_most_one; eassumption.
  - unfold kc_syscalls in H. bind_step H mapping Hmapping.
    bind_step H acc Hacc. destruct acc as [groups st1].
    bind_step H w Hw. apply Ok_inj in H. subst st'.
    intros s Hs. pose proof (syscall_items_length _ _ _ _ _ Hacc) as Hlen.
    apply syscall_items_writer in Hacc.
    rewrite Hacc, Hs in Hw.
    destruct (syscall_groups_at_most _ _ _ _ Hw) as (ws & -> & Hws).
    exists ws. split; [reflexivity|].
    unfold len in Hws at 2. rewrite Hlen in Hws. cbn in Hws. exact Hws.
  - unfold kc_map in H. cbv zeta in H.
    bind_step H mapping Hmapping. bind_step H v1 Hv1. bind_step H b1 Hb1.
    bind_step H w1 Hw1. bind_step H v2 Hv2. bind_step H b2 Hb2.
    bind_step H w2 Hw2. apply Ok_inj in H. subst st'.
    intros s Hs. rewrite Hs in Hw1.
    apply write_u32_at_end_Ok in Hw1 as [-> _].
    apply write_u32_at_end_Ok in Hw2 as [-> _].
    eexists [_; _]. cbn [with_writer kc_writer flat_map].
    rewrite app_nil_r, <- app_assoc. split; [reflexivity | cbn; lia].
  - unfold kc_map_region in H. bind_all H.
    apply Ok_inj in H. subst st'. eapply appends_at_most_one; eassumption.
  - unfold kc_irq_pair in H. bind_all H.
    apply Ok_inj in H. subst st'. eapply appends_at_most_one; eassumption.
  - unfold kc_application_type in H. bind_all H.
    apply Ok_inj in H. subst st'. eapply appends_at_most_one; eassumption.
  - unfold kc_min_kernel_version in H. bind_all H.
    apply Ok_inj in H. subst st'. eapply appends_at_most_one; eassumption.
  - unfold kc_handle_table_size in H. bind_all H.
    apply Ok_inj in H. subst st'. eapply appends_at_most_one; eassumption.
  - unfold kc_debug_flags in H. bind_all H.
    apply Ok_inj in H. subst st'. eapply appends_at_most_one; eassumption.
Qed.

Lemma kc_entries_at_most (caps : list json) :
  forall idx st st',
    for_enumerate kc_entry idx st caps = Ok st' ->
    appends_at_most (8 * len caps) st st'.
Proof.
  induction caps as [|cap caps IH]; intros idx st st' H.
  - apply Ok_inj in H. subst st'. intros s Hs. exists [].
    cbn. rewrite app_nil_r. split; [assumption | lia].
  - cbn [for_enumerate] in H. apply rbind_Ok in H as (st1 & H1 & H).
    intros s Hs.
    destruct (kc_entry_at_most _ _ _ _ H1 s Hs) as (ws1 & Hs1 & L1).
    destruct (IH _ _ _ H _ Hs1) as (ws2 & Hs2 & L2).
    exists (ws1 ++ ws2). rewrite Hs2, flat_map_app, app_assoc.
    split; [reflexivity|]. rewrite len_app, len_cons. lia.
Qed.

(** X14.  A kernel capability table that [write_kc] returns comes from at
    most 32 entries, is a whole number of 32-bit words with the cursor at
    its end, and holds at most eight words an entry: never more than 1024
    bytes. *)
Theorem write_kc_size :
  forall (contents : json) (kc : BinaryWriter),
    write_kc contents = Ok kc ->
    exists caps ws,
      json_read_list contents ["kernel_capabilities"%string] None = Ok caps
      /\ len caps <= 32
      /\ kc = at_end (flat_map (le_bytes 4) ws)
      /\ len ws <= 8 * len caps
      /\ len (stream kc) <= 1024.
Proof.
  intros contents kc H. unfold write_kc in H. bind_step H caps Hcaps.
  bind_step H st Hst. apply Ok_inj in H. subst kc.
  assert (Hcount : len caps <= 32).
  { destruct (Z.le_gt_cases (len caps) 32) as [Hle|Hgt]; [exact Hle|].
    destruct (kc_entries_too_many caps 0 (mkLocals new_writer None None))
      as (e & He); [lia|]. congruence. }
  destruct (kc_entries_at_most _ _ _ _ Hst [] eq_refl) as (ws & Hws & Hlen).
  exists caps, ws. cbn [app] in Hws. rewrite Hws.
  repeat split; try assumption.
  unfold at_end. cbn [stream]. rewrite len_words. lia.
Qed.

Lemma write_kc_size_witness :
  exists caps ws,
    json_read_list one_cap_config ["kernel_capabilities"%string] None
    = Ok caps
    /\ len caps <= 32
    /\ at_end one_cap_kc = at_end (flat_map (le_bytes 4) ws)
    /\ len ws <= 8 * len caps
    /\ len (stream (at_end one_cap_kc)) <= 1024.
Proof.
  apply (write_kc_size one_cap_config (at_end one_cap_kc)). reflexivity.
Defined.

(** ** Failures and decoding of the service access table *)

Lemma sac_entry_error (s : list Z) (bad : json) (e : failure) :
  service_error bad = Some e ->
  sac_host_entry (at_end s) bad = Err e
  /\ sac_access_entry (at_end s) bad = Err e.
Proof.
  unfold service_error, sac_host_entry, sac_access_entry.
  destruct bad as [| | | |name| |]; try (intros [= <-]; now split).
  destruct ((1 <=? strlen name) && (strlen name <=? 8)) eqn:E.
  - apply andb_prop in E as [E1 E2]. apply Z.leb_le in E1, E2.
    destruct (is_ascii name) eqn:A; [discriminate|]. intros [= <-].
    cbn [abort_unless rbind]. rewrite lor_0x80_small by lia.
    rewrite !write_u8_at_end by lia. cbn [rbind].
    unfold write_string. cbn [Z.ltb Z.compare].
    rewrite (encode_ascii_non_ascii _ A). now split.
  - intros [= <-]. now split.
Qed.

Lemma for_each_first_error (body : BinaryWriter -> json -> res BinaryWriter)
    (enc : string -> list Z) (good : list string) (bad : json)
    (rest : list json) (e : failure) :
  (forall s x, valid_service x ->
               body (at_end s) (JStr x) = Ok (at_end (s ++ enc x))) ->
  (forall s, body (at_end s) bad = Err e) ->
  Forall valid_service good ->
  forall s, for_each body (at_end s) (map JStr good ++ bad :: rest) = Err e.
Proof.
  intros Hok Hbad. induction 1 as [|x good Hx Hgood IH]; intros s.
  - cbn [map app for_each]. now rewrite Hbad.
  - cbn [map app for_each]. rewrite (Hok s x Hx). cbn [rbind]. apply IH.
Qed.

Lemma map_JStr_split (good : list string) (l1 l2 : list json) :
  map JStr good = l1 ++ l2 ->
  exists g1 g2, good = g1 ++ g2 /\ l1 = map JStr g1 /\ l2 = map JStr g2.
Proof.
  revert good. induction l1 as [|x l1 IH]; intros good H.
  - exists [], good. auto.
  - destruct good as [|g good]; [discriminate|]. cbn [map app] in H.
    injection H as <- H. destruct (IH _ H) as (g1 & g2 & -> & -> & ->).
    exists (g :: g1), g2. auto.
Qed.

(** X15.  [write_sac] stops at the first entry that does not encode, the
    hosted list before the accessible one: when every entry before it is a
    name of 1 to 8 ASCII characters, the failure is the one of that entry:
    the message of the strings for an entry that is not a string, the
    message of the length for a name that is empty or longer than 8, and
    an uncaught [UnicodeEncodeError] for a name with a character outside
    ASCII. *)
Theorem write_sac_first_error :
  forall (contents : json) (hosted accessible : list json)
         (good : list string) (bad : json) (rest : list json) (e : failure),
    json_read_list contents ["service_host"%string] None = Ok hosted ->
    json_read_list contents ["service_access"%string] None = Ok accessible ->
    hosted ++ accessible = map JStr good ++ bad :: rest ->
    Forall valid_service good ->
    service_error bad = Some e ->
    write_sac contents = Err e.
Proof.
  intros contents hosted accessible good bad rest e Hh Ha Hsplit Hgood Hbad.
  unfold write_sac. rewrite Hh, Ha. cbn [rbind]. rewrite new_writer_at_end.
  apply app_eq_app in Hsplit as (l & [[-> Hrest] | [Hgoodl ->]]).
  - (* the entry is the first accessible one, or a hosted one *)
    destruct l as [|x l].
    + rewrite app_nil_r. cbn [app] in Hrest. subst accessible.
      rewrite (for_each_appends sac_host_entry JStr hosted_bytes valid_service)
        by (auto using sac_host_entry_valid).
      cbn [rbind].
      rewrite (for_each_first_error sac_access_entry accessible_bytes []
                 bad rest e);
        [reflexivity | auto using sac_access_entry_valid
        | intros s; now apply sac_entry_error | constructor].
    + cbn [app] in Hrest. injection Hrest as <- ->.
      rewrite (for_each_first_error sac_host_entry hosted_bytes good bad l e);
        [reflexivity | auto using sac_host_entry_valid
        | intros s; now apply sac_entry_error | assumption].
  - (* every hosted entry encodes; the entry is accessible *)
    apply map_JStr_split in Hgoodl as (g1 & g2 & -> & -> & ->).
    apply Forall_app in Hgood as [Hg1 Hg2].
    rewrite (for_each_appends sac_host_entry JStr hosted_bytes valid_service)
      by (auto using sac_host_entry_valid).
    cbn [rbind].
    rewrite (for_each_first_error sac_access_entry accessible_bytes g2 bad
               rest e);
      [reflexivity | auto using sac_access_entry_valid
      | intros s; now apply sac_entry_error | assumption].
Qed.

Lemma write_sac_first_error_witness :
  write_sac (sac_config [JStr "fsp-srv"] [JStr "hid"; JInt 3; JStr ""])
  = Err (Abort "services must be strings").
Proof.
  apply (write_sac_first_error
           (sac_config [JStr "fsp-srv"] [JStr "hid"; JInt 3; JStr ""])
           [JStr "fsp-srv"] [JStr "hid"; JInt 3; JStr ""]
           ["fsp-srv"; "hid"]%string (JInt 3) [JStr ""]).
  - reflexivity.
  - reflexivity.
  - reflexivity.
  - repeat constructor; cbn; lia.
  - reflexivity.
Defined.

Lemma write_sac_valid (contents : json) (hosted accessible : list string) :
  json_read_list contents ["service_host"%string] None
  = Ok (map JStr hosted) ->
  json_read_list contents ["service_access"%string] None
  = Ok (map JStr accessible) ->
  Forall valid_service hosted -> Forall valid_service accessible ->
  write_sac contents
  = Ok (at_end (flat_map hosted_bytes hosted
                ++ flat_map accessible_bytes accessible)).
Proof.
  intros Hh Ha Vh Va. unfold write_sac. rewrite Hh, Ha. cbn [rbind].
  rewrite new_writer_at_end.
  rewrite (for_each_appends sac_host_entry JStr hosted_bytes valid_service)
    by (auto using sac_host_entry_valid).
  cbn [rbind].
  rewrite (for_each_appends sac_access_entry JStr accessible_bytes
             valid_service) by (auto using sac_access_entry_valid).
  reflexivity.
Qed.

Lemma cons_inj {A : Type} (a b : A) (l m : list A) :
  a :: l = b :: m -> a = b /\ l = m.
Proof. intros [= -> ->]. now split. Qed.

Lemma ascii_codes_split (n1 n2 : string) (r1 r2 : list Z) :
  strlen n1 = strlen n2 ->
  ascii_codes n1 ++ r1 = ascii_codes n2 ++ r2 -> n1 = n2 /\ r1 = r2.
Proof.
  revert n2. induction n1 as [|c1 n1 IH]; intros [|c2 n2] Hlen H;
    unfold strlen in Hlen; cbn [String.length] in Hlen; try lia.
  - now split.
  - unfold ascii_codes in H. cbn [list_ascii_of_string map app] in H.
    injection H as Hc H.
    destruct (IH n2) as [-> ->]; [unfold strlen; lia | exact H |].
    apply N2Z.inj in Hc. apply (f_equal ascii_of_N) in Hc.
    rewrite !ascii_N_embedding in Hc. now subst c2.
Qed.

Lemma accessible_bytes_inj (a1 a2 : list string) :
  Forall valid_service a1 -> Forall valid_service a2 ->
  flat_map accessible_bytes a1 = flat_map accessible_bytes a2 -> a1 = a2.
Proof.
  intros V1. revert a2. induction V1 as [|n1 a1 [L1 _] V1 IH];
    intros a2 V2 H; destruct V2 as [|n2 a2 [L2 _] V2];
    cbn [flat_map accessible_bytes app] in H; try discriminate.
  - reflexivity.
  - apply cons_inj in H as [Hlen H].
    destruct (ascii_codes_split n1 n2 _ _ ltac:(lia) H) as [-> H'].
    now rewrite (IH a2 V2 H').
Qed.

Lemma sac_bytes_inj (h1 : list string) :
  forall h2 a1 a2,
    Forall valid_service h1 -> Forall valid_service h2 ->
    Forall valid_service a1 -> Forall valid_service a2 ->
    flat_map hosted_bytes h1 ++ flat_map accessible_bytes a1
    = flat_map hosted_bytes h2 ++ flat_map accessible_bytes a2 ->
    h1 = h2 /\ a1 = a2.
Proof.
  induction h1 as [|n1 h1 IH]; intros h2 a1 a2 Vh1 Vh2 Va1 Va2 H.
  - destruct Vh2 as [|n2 h2 [L2 _] Vh2].
    + split; [reflexivity|]. now apply accessible_bytes_inj.
    + exfalso. destruct Va1 as [|m a1 [L1 _] Va1];
        cbn [flat_map hosted_bytes accessible_bytes app] in H;
        [discriminate|].
      apply cons_inj in H as [Hhead _]. rewrite lor_0x80_small in Hhead by lia. lia.
  - inversion Vh1 as [|? ? [L1 _] Vh1']; subst.
    destruct Vh2 as [|n2 h2 [L2 _] Vh2].
    + exfalso. destruct Va2 as [|m a2 [L _] Va2];
        cbn [flat_map hosted_bytes accessible_bytes app] in H;
        [discriminate|].
      apply cons_inj in H as [Hhead _]. rewrite lor_0x80_small in Hhead by lia. lia.
    + cbn [flat_map hosted_bytes app] in H. rewrite <- !app_assoc in H.
      apply cons_inj in H as [Hhead H]. rewrite !lor_0x80_small in Hhead by lia.
      destruct (ascii_codes_split n1 n2 _ _ ltac:(lia) H) as [-> H'].
      destruct (IH h2 a1 a2 Vh1' Vh2 Va1 Va2 H') as [-> ->]. now split.
Qed.

(** X16.  The service access table determines the two lists it was built
    from: two configurations whose service names encode (1 to 8 ASCII
    characters each) give the same table only if they host the same
    services in the same order and access the same services in the same
    order. *)
Theorem write_sac_injective :
  forall (c1 c2 : json) (h1 a1 h2 a2 : list string),
    json_read_list c1 ["service_host"%string] None = Ok (map JStr h1) ->
    json_read_list c1 ["service_access"%string] None = Ok (map JStr a1) ->
    json_read_list c2 ["service_host"%string] None = Ok (map JStr h2) ->
    json_read_list c2 ["service_access"%string] None = Ok (map JStr a2) ->
    Forall valid_service h1 -> Forall valid_service a1 ->
    Forall valid_service h2 -> Forall valid_service a2 ->
    write_sac c1 = write_sac c2 ->
    h1 = h2 /\ a1 = a2.
Proof.
  intros c1 c2 h1 a1 h2 a2 Hh1 Ha1 Hh2 Ha2 Vh1 Va1 Vh2 Va2 H.
  rewrite (write_sac_valid c1 h1 a1), (write_sac_valid c2 h2 a2) in H
    by assumption.
  apply Ok_inj in H. apply (f_equal stream) in H. cbn [at_end stream] in H.
  now apply sac_bytes_inj.
Qed.

Lemma write_sac_injective_witness :
  ["fsp-srv"]%string = ["fsp-srv"]%string
  /\ ["pm:shell"; "hid"]%string = ["pm:shell"; "hid"]%string.
Proof.
  apply (write_sac_injective sac_example
           (JDict [("service_access", JList [JStr "pm:shell"; JStr "hid"]);
                   ("name", JStr "other");
                   ("service_host", JList [JStr "fsp-srv"])]%string)
           ["fsp-srv"]%string ["pm:shell"; "hid"]%string
           ["fsp-srv"]%string ["pm:shell"; "hid"]%string);
    try reflexivity; repeat constructor; cbn; lia.
Defined.

(** ** The META header, field by field *)

Lemma write_u32_at_end (s : list Z) (v : Z) :
  0 <= v < 2 ^ 32 -> write_u32 (at_end s) v = Ok (at_end (s ++ le_bytes 4 v)).
Proof. intros H. apply _write_at_end. exact H. Qed.

Lemma write_u64_at_end (s : list Z) (v : Z) :
  0 <= v < 2 ^ 64 -> write_u64 (at_end s) v = Ok (at_end (s ++ le_bytes 8 v)).
Proof. intros H. apply _write_at_end. exact H. Qed.

Lemma json_read_u32_range (j : json) (keys : list string)
    (default : option json) (v : Z) :
  json_read_u32 j keys default = Ok v -> 0 <= v < 2 ^ 32.
Proof.
  intros H. apply json_read_int_range in H.
  change (Z.shiftl 1 32 - 1) with (2 ^ 32 - 1) in H. lia.
Qed.

Lemma json_read_u64_range (j : json) (keys : list string)
    (default : option json) (v : Z) :
  json_read_u64 j keys default = Ok v -> 0 <= v < 2 ^ 64.
Proof.
  intros H. apply json_read_int_range in H.
  change (Z.shiftl 1 64 - 1) with (2 ^ 64 - 1) in H. lia.
Qed.

Lemma substring_0_short (s : string) (n : nat) :
  (String.length s <= n)%nat -> substring 0 n s = s.
Proof.
  revert n. induction s as [|c r IH]; intros [|n] Hn; cbn [substring] in *;
    try reflexivity; cbn [String.length] in Hn; try lia.
  f_equal. apply IH. lia.
Qed.

Lemma is_ascii_append (a b : string) :
  is_ascii (a ++ b) = is_ascii a && is_ascii b.
Proof.
  induction a as [|c a IH]; [reflexivity|].
  cbn [append is_ascii]. now rewrite IH, andb_assoc.
Qed.

Lemma write_string_padded (s : list Z) (value : string) (max_len : Z) :
  0 < max_len -> strlen value <= max_len ->
  write_string (at_end s) value max_len
  = if is_ascii value
    then Ok (at_end (s ++ ascii_codes value
                     ++ zeros (max_len - strlen value)))
    else Err (Raised UnicodeEncodeError).
Proof.
  intros Hm Hlen. unfold write_string. apply Z.ltb_lt in Hm as Hm'.
  rewrite Hm'. rewrite substring_0_short by (unfold strlen in Hlen; lia).
  unfold pad_nul. destruct (is_ascii value) eqn:A.
  - rewrite encode_ascii_pad by exact A. cbn [rbind]. apply write_at_end.
  - rewrite encode_ascii_non_ascii; [reflexivity|].
    now rewrite is_ascii_append, A.
Qed.

Lemma meta_flags_lor (is_64_bit : bool) (ast : Z)
    (optimize merge extra prevent : bool) :
  0 <= ast <= 3 ->
  Z.lor (Z.lor (Z.lor (Z.lor (Z.lor (Z.lor 0 (if is_64_bit then 1 else 0))
                                (Z.shiftl ast 1))
                         (if optimize then 16 else 0))
                  (if merge then 32 else 0))
           (if extra then 64 else 0))
    (if prevent then 128 else 0)
  = meta_flags is_64_bit ast optimize merge extra prevent.
Proof.
  intros H.
  assert (Hast : ast = 0 \/ ast = 1 \/ ast = 2 \/ ast = 3) by lia.
  destruct Hast as [-> | [-> | [-> | ->]]];
    destruct is_64_bit, optimize, merge, extra, prevent; reflexivity.
Qed.

(** X17.  When the eleven numbers and flags of the header read, the rest
    of [write_meta] is decided by the stack size and the name: a stack size
    that is not a multiple of 0x1000 aborts; then a failure to read [name]
    (absent, not a string, longer than 16) is the failure of the header; a
    name outside ASCII is an uncaught [UnicodeEncodeError]; otherwise the
    header is the 0x80 bytes of [meta_image], the name taking 16 bytes with
    NUL padding (none for a name of exactly 16).  In the flags byte bit 0
    is [is_64_bit], bits 1..2 the address space type, bit 3 zero, bits 4..7
    the four optional flags. *)
Theorem write_meta_header :
  forall (contents : json) (skg ast prio cpu srs ver stack : Z)
         (is_64_bit optimize merge extra prevent : bool),
    json_read_u32 contents ["signature_key_generation"%string]
      (Some (JInt 0)) = Ok skg ->
    json_read_bool contents ["is_64_bit"%string] None = Ok is_64_bit ->
    json_read_int contents ["address_space_type"%string] 0 3 None = Ok ast ->
    json_read_bool contents ["optimize_memory_allocation"%string]
      (Some (JBool false)) = Ok optimize ->
    json_read_bool contents ["disable_device_address_space_merge"%string]
      (Some (JBool false)) = Ok merge ->
    json_read_bool contents ["enable_alias_region_extra_size"%string]
      (Some (JBool false)) = Ok extra ->
    json_read_bool contents ["prevent_code_reads"%string]
      (Some (JBool false)) = Ok prevent ->
    json_read_int contents ["main_thread_priority"%string] 0 0x3f None
    = Ok prio ->
    json_read_u8 contents ["default_cpu_id"%string] None = Ok cpu ->
    json_read_int contents ["system_resource_size"%string] 0 0x1fe00000
      (Some (JInt 0)) = Ok srs ->
    json_read_u32 contents ["version"%string] (Some (JInt 0)) = Ok ver ->
    json_read_u32 contents ["main_thread_stack_size"%string] None
    = Ok stack ->
    let flags := meta_flags is_64_bit ast optimize merge extra prevent in
    write_meta contents
    = (if stack mod 0x1000 =? 0 then
         match json_read_str contents ["name"%string] 0x10 None with
         | Ok name =>
             if is_ascii name
             then Ok (at_end (meta_image skg flags prio cpu srs ver stack
                                name))
             else Err (Raised UnicodeEncodeError)
         | Err e => Err e
         end
       else Err (Abort stack_size_msg))
    /\ (forall name, strlen name <= 0x10 ->
                      len (meta_image skg flags prio cpu srs ver stack name)
                      = 0x80)
    /\ bits flags 0 1 = Z.b2z is_64_bit
    /\ bits flags 1 2 = ast
    /\ bits flags 3 1 = 0
    /\ bits flags 4 1 = Z.b2z optimize
    /\ bits flags 5 1 = Z.b2z merge
    /\ bits flags 6 1 = Z.b2z extra
    /\ bits flags 7 1 = Z.b2z prevent.
Proof.
  intros contents skg ast prio cpu srs ver stack is_64_bit optimize merge
    extra prevent Hskg H64 Hast Hopt Hmerge Hextra Hprevent Hprio Hcpu Hsrs
    Hver Hstack flags.
  pose proof (json_read_u32_range _ _ _ _ Hskg) as Rskg.
  pose proof (json_read_int_range _ _ _ _ _ _ Hast) as Rast.
  pose proof (json_read_int_range _ _ _ _ _ _ Hprio) as Rprio.
  pose proof (json_read_int_range _ _ _ _ _ _ Hcpu) as Rcpu.
  change (Z.shiftl 1 8 - 1) with 255 in Rcpu.
  pose proof (json_read_int_range _ _ _ _ _ _ Hsrs) as Rsrs.
  pose proof (json_read_u32_range _ _ _ _ Hver) as Rver.
  pose proof (json_read_u32_range _ _ _ _ Hstack) as Rstack.
  b2z_bounds.
  assert (Rflags : 0 <= flags < 256) by (unfold flags, meta_flags; lia).
  split; [|split].
  - unfold write_meta. cbv zeta. rewrite new_writer_at_end.
    rewrite write_string_at_end by reflexivity. cbn [rbind].
    rewrite Hskg. cbn [rbind]. rewrite write_u32_at_end by exact Rskg.
    cbn [rbind]. rewrite seek_rel_at_end by lia.
    rewrite H64. cbn [rbind]. rewrite Hast. cbn [rbind].
    rewrite Hopt. cbn [rbind]. rewrite Hmerge. cbn [rbind].
    rewrite Hextra. cbn [rbind]. rewrite Hprevent. cbn [rbind].
    rewrite meta_flags_lor by exact Rast. fold flags.
    rewrite write_u8_at_end by exact Rflags. cbn [rbind].
    rewrite seek_at_end by (len_norm; rewrite len_META; lia).
    match goal with
    | |- context [zeros (14 - ?l)] =>
        replace (14 - l) with 1 by (len_norm; rewrite len_META; lia)
    end.
    rewrite Hprio. cbn [rbind]. rewrite write_u8_at_end by lia. cbn [rbind].
    rewrite Hcpu. cbn [rbind]. rewrite write_u8_at_end by lia. cbn [rbind].
    rewrite seek_at_end by (len_norm; rewrite len_META; lia).
    match goal with
    | |- context [zeros (20 - ?l)] =>
        replace (20 - l) with 4 by (len_norm; rewrite len_META; lia)
    end.
    rewrite Hsrs. cbn [rbind].
    rewrite write_u32_at_end by (change (2 ^ 32) with 4294967296; lia).
    cbn [rbind]. rewrite Hver. cbn [rbind].
    rewrite write_u32_at_end by exact Rver. cbn [rbind].
    rewrite Hstack. cbn [rbind].
    change 0xfff with (Z.ones 12). rewrite Z.land_ones by lia.
    change (2 ^ 12) with 0x1000.
    destruct (stack mod 0x1000 =? 0); [|reflexivity].
    cbn [abort_unless rbind].
    rewrite write_u32_at_end by exact Rstack. cbn [rbind].
    destruct (json_read_str contents ["name"%string] 0x10 None)
      as [name|e] eqn:Hname; [|reflexivity].
    cbn [rbind]. apply json_read_str_len in Hname; [|lia].
    rewrite write_string_padded by lia.
    destruct (is_ascii name); [|reflexivity]. cbn [rbind].
    unfold write_bytes. rewrite write_at_end. cbn [rbind].
    rewrite !seek_rel_at_end by lia.
    unfold meta_image. now rewrite <- !app_assoc.
  - intros name Hname. unfold meta_image. len_norm.
    rewrite len_META, len_ascii_codes.
    change (len (@nil Z)) with 0.
    assert (0 <= strlen name) by (unfold strlen; lia). lia.
  - unfold flags, meta_flags. repeat split; read_field.
Qed.

Lemma write_meta_header_witness :
  let flags := meta_flags true 3 false false false false in
  write_meta one_cap_config
  = Ok (at_end (meta_image 0 flags 44 0 0 0 0x4000 "demo"))
  /\ (forall name, strlen name <= 0x10 ->
                    len (meta_image 0 flags 44 0 0 0 0x4000 name) = 0x80)
  /\ bits flags 0 1 = Z.b2z true
  /\ bits flags 1 2 = 3
  /\ bits flags 3 1 = 0
  /\ bits flags 4 1 = Z.b2z false
  /\ bits flags 5 1 = Z.b2z false
  /\ bits flags 6 1 = Z.b2z false
  /\ bits flags 7 1 = Z.b2z false.
Proof.
  apply (write_meta_header one_cap_config 0 3 44 0 0 0 0x4000
           true false false false false); reflexivity.
Defined.

(** ** The ACID region from the configuration *)

Lemma write_u32_inside (s : list Z) (p v : Z) :
  0 <= p -> p + 4 <= len s -> 0 <= v < 2 ^ 32 ->
  write_u32 (mkWriter s p) v
  = Ok (mkWriter (patch s p (le_bytes 4 v)) (p + 4)).
Proof.
  intros Hp Hlen Hv. unfold write_u32, _write.
  rewrite pack_in_range by exact Hv. cbn [rbind].
  rewrite write_inside by (rewrite ?len_le_bytes; lia).
  now rewrite len_le_bytes.
Qed.

Lemma acid_flags_lor (is_retail unq : bool) (pool : Z) :
  0 <= pool <= 3 ->
  Z.lor (Z.lor (Z.lor 0 (if is_retail then 1 else 0)) (if unq then 2 else 0))
    (Z.shiftl pool 2)
  = acid_flags is_retail unq pool.
Proof.
  intros H. assert (Hp : pool = 0 \/ pool = 1 \/ pool = 2 \/ pool = 3) by lia.
  destruct Hp as [-> | [-> | [-> | ->]]]; destruct is_retail, unq;
    reflexivity.
Qed.

Ltac step := cbn [rbind].

(** X18.  When its seven values read and the region stays below 4 GiB,
    [write_acid] returns the region of [acid_image]: 0x200 zero bytes where
    signature and key would be, the magic, the size, the flags word (bit 0
    [is_retail], bit 1 [unqualified_approval], bits 2..3 the pool
    partition), the program id range, the table of offsets and sizes, the
    filesystem access control block, and the two tables it was handed, each
    at a multiple of 0x10; the cursor is left behind the table of offsets,
    at 0x238. *)
Theorem write_acid_image :
  forall (contents : json) (sac kc : BinaryWriter)
         (is_retail unq : bool) (pool pmin pmax perm : Z)
         (fs : list (string * json)),
    json_read_bool contents ["is_retail"%string] None = Ok is_retail ->
    json_read_bool contents ["unqualified_approval"%string]
      (Some (JBool false)) = Ok unq ->
    json_read_int contents ["pool_partition"%string] 0 3 None = Ok pool ->
    json_read_u64 contents
      ["program_id_range_min"; "title_id_range_min"]%string None = Ok pmin ->
    json_read_u64 contents
      ["program_id_range_max"; "title_id_range_max"]%string None = Ok pmax ->
    json_read_dict contents ["filesystem_access"%string] None = Ok fs ->
    json_read_u64 (JDict fs) ["permissions"%string] None = Ok perm ->
    acid_kc_offset (stream sac) + len (stream kc) < 2 ^ 32 ->
    write_acid contents sac kc
    = Ok (mkWriter (acid_image (acid_flags is_retail unq pool) pmin pmax perm
                      (stream sac) (stream kc)) 0x238).
Proof.
  intros contents sac kc is_retail unq pool pmin pmax perm fs
    Hretail Hunq Hpool Hpmin Hpmax Hfs Hperm Hsize.
  pose proof (json_read_int_range _ _ _ _ _ _ Hpool) as Rpool.
  pose proof (json_read_u64_range _ _ _ _ Hpmin) as Rpmin.
  pose proof (json_read_u64_range _ _ _ _ Hpmax) as Rpmax.
  pose proof (json_read_u64_range _ _ _ _ Hperm) as Rperm.
  pose proof (padding_range 16 (624 + len (stream sac)) ltac:(lia)) as Hpad.
  pose proof (len_nonneg (stream sac)) as Hsac0.
  pose proof (len_nonneg (stream kc)) as Hkc0.
  set (flags := acid_flags is_retail unq pool).
  assert (Rflags : 0 <= flags < 2 ^ 32).
  { unfold flags, acid_flags. b2z_bounds. change (2 ^ 32) with 4294967296.
    lia. }
  assert (R0 : 0 <= 0 < 2 ^ 64) by (change (2 ^ 64) with 18446744073709551616; lia).
  unfold write_acid. cbv zeta. rewrite new_writer_at_end.
  unfold write_bytes. rewrite write_at_end. step. rewrite write_at_end. step.
  rewrite write_string_at_end by reflexivity. step.
  rewrite !seek_rel_at_end by lia.
  rewrite Hretail. step. rewrite Hunq. step. rewrite Hpool. step.
  rewrite acid_flags_lor by exact Rpool. fold flags.
  rewrite write_u32_at_end by exact Rflags. step.
  rewrite Hpmin. step. rewrite write_u64_at_end by exact Rpmin. step.
  rewrite Hpmax. step. rewrite write_u64_at_end by exact Rpmax. step.
  rewrite !seek_rel_at_end by lia.
  rewrite Hfs. step. rewrite Hperm. step.
  match goal with
  | |- context [write_u8 (at_end ?s) 1] => remember s as hdr eqn:Hhdr
  end.
  assert (Lhdr : len hdr = 0x240).
  { subst hdr. len_norm. rewrite len_ACID. reflexivity. }
  rewrite !position_at_end, Lhdr.
  unfold write_u8.
  rewrite _write_at_end by (cbn; lia). step.
  rewrite _write_at_end by (cbn; lia). step.
  rewrite _write_at_end by (cbn; lia). step.
  rewrite seek_at_end by (len_norm; lia).
  match goal with
  | |- context [zeros (?a + 4 - ?l)] =>
      replace (a + 4 - l) with 1 by (len_norm; lia)
  end.
  rewrite write_u64_at_end by exact Rperm. step.
  rewrite write_u64_at_end by exact R0. step.
  rewrite write_u64_at_end by exact R0. step.
  rewrite write_u64_at_end by exact R0. step.
  rewrite write_u64_at_end by exact R0. step.
  match goal with
  | |- context [align (at_end ?s) _] => remember s as fac eqn:Hfac
  end.
  assert (Lfac : len fac = 0x26c).
  { subst fac. len_norm. lia. }
  rewrite !position_at_end, Lfac.
  rewrite align_at_end by lia. step.
  rewrite Lfac. change (padding 16 620) with 4.
  rewrite !position_at_end.
  rewrite seek_at_end by lia. rewrite Z.sub_diag, zeros_0, app_nil_r.
  unfold write_sub, write_bytes. rewrite write_at_end. step.
  assert (Lsac : len ((fac ++ zeros 4) ++ stream sac)
                 = 0x270 + len (stream sac)).
  { len_norm. lia. }
  rewrite align_at_end by lia. step.
  rewrite Lsac. rewrite !position_at_end.
  rewrite seek_at_end by lia. rewrite Z.sub_diag, zeros_0, app_nil_r.
  rewrite write_at_end. step.
  match goal with
  | |- context [seek (at_end ?s) 516 false] => remember s as body eqn:Hbody
  end.
  assert (Lbody : len body = acid_kc_offset (stream sac) + len (stream kc)).
  { subst body. unfold acid_kc_offset. len_norm. rewrite Lfac. lia. }
  assert (Ebody : body = acid_layout (zeros 4) (zeros 24) flags pmin pmax perm
                           (stream sac) (stream kc)).
  { subst body fac hdr. unfold acid_layout, acid_fac.
    change (zeros 32) with (zeros 24 ++ zeros 8).
    rewrite <- !app_assoc. reflexivity. }
  assert (Lkco : len (((fac ++ zeros 4) ++ stream sac)
                      ++ zeros (padding 16 (624 + len (stream sac))))
                 = acid_kc_offset (stream sac)).
  { unfold acid_kc_offset. len_norm. rewrite Lfac. lia. }
  rewrite !position_at_end, ?Lbody, ?Lkco, ?Lfac, ?Lsac.
  unfold acid_kc_offset in Lbody, Hsize |- *.
  change (2 ^ 32) with 4294967296 in *.
  rewrite seek_at_end_inside by lia.
  rewrite write_u32_inside by (change (2 ^ 32) with 4294967296; lia). step.
  rewrite seek_inside by (rewrite len_patch; len_norm; lia).
  replace (len (fac ++ zeros 4)) with 624 by (len_norm; lia).
  change (620 - 576) with 44.
  match goal with
  | |- context [patch body 516 ?raw] =>
      rewrite (patch_mid body
                 (zeros 0x100 ++ zeros 0x100 ++ ascii_codes "ACID") (zeros 4)
                 (zeros 4 ++ le_bytes 4 flags ++ le_bytes 8 pmin
                  ++ le_bytes 8 pmax ++ (zeros 24) ++ zeros 8
                  ++ acid_fac perm ++ zeros 4 ++ stream sac
                  ++ zeros (padding 0x10 (0x270 + len (stream sac)))
                  ++ stream kc) raw 516);
      [ remember raw as size_field eqn:Hsize_field
      | rewrite Ebody; unfold acid_layout; now rewrite <- !app_assoc
      | reflexivity
      | reflexivity ]
  end.
  match goal with
  | |- context [write_u32 (mkWriter ?s 544) _] => remember s as b1 eqn:Hb1
  end.
  assert (Lb1 : len b1 = len body).
  { subst b1 size_field. rewrite Ebody. unfold acid_layout, acid_fac.
    len_norm. lia. }
  rewrite Lbody in Lb1.
  rewrite write_u32_inside by (change (2 ^ 32) with 4294967296; lia). step.
  rewrite write_u32_inside
    by (change (2 ^ 32) with 4294967296; rewrite ?len_patch; len_norm; lia).
  step. rewrite patch_patch by (len_norm; lia).
  rewrite write_u32_inside
    by (change (2 ^ 32) with 4294967296; rewrite ?len_patch; len_norm; lia).
  step. rewrite patch_patch by (len_norm; lia).
  rewrite write_u32_inside
    by (change (2 ^ 32) with 4294967296; rewrite ?len_patch; len_norm; lia).
  step. rewrite patch_patch by (len_norm; lia).
  rewrite write_u32_inside
    by (change (2 ^ 32) with 4294967296; rewrite ?len_patch; len_norm; lia).
  step. rewrite patch_patch by (len_norm; lia).
  rewrite write_u32_inside
    by (change (2 ^ 32) with 4294967296; rewrite ?len_patch; len_norm; lia).
  step. rewrite patch_patch by (len_norm; lia).
  apply f_equal. apply (f_equal2 mkWriter); [|reflexivity].
  change (patch b1 544 (acid_table (stream sac) (stream kc))
          = acid_image flags pmin pmax perm (stream sac) (stream kc)).
  rewrite (patch_mid b1
             (zeros 0x100 ++ zeros 0x100 ++ ascii_codes "ACID" ++ size_field
              ++ zeros 4 ++ le_bytes 4 flags ++ le_bytes 8 pmin
              ++ le_bytes 8 pmax)
             (zeros 24)
             (zeros 8 ++ acid_fac perm ++ zeros 4 ++ stream sac
              ++ zeros (padding 0x10 (0x270 + len (stream sac)))
              ++ stream kc)
             (acid_table (stream sac) (stream kc)) 544).
  - subst size_field. unfold acid_image, acid_layout, acid_kc_offset.
    now rewrite <- !app_assoc.
  - subst b1. now rewrite <- !app_assoc.
  - subst size_field. len_norm. reflexivity.
  - reflexivity.
Qed.

Lemma write_acid_image_witness :
  write_acid one_cap_config accessible_hid one_cap_table
  = Ok (mkWriter
          (acid_image (acid_flags true false 0) 0x0100000000001000
             0x0100000000001fff 0xffffffffffffffff
             (stream accessible_hid) (stream one_cap_table))
          0x238).
Proof.
  apply (write_acid_image one_cap_config accessible_hid
           one_cap_table true false 0 0x0100000000001000
           0x0100000000001fff 0xffffffffffffffff
           [("permissions", JStr "0xffffffffffffffff");
            ("content_owner_ids", JList [JInt 7])]%string);
    reflexivity.
Defined.

(** ** Offsets recorded in a region and the bytes they point to *)

Lemma slice_skip (a rest : list Z) (off n : Z) :
  len a <= off -> slice (a ++ rest) off n = slice rest (off - len a) n.
Proof.
  intros H. unfold slice, len in *. rewrite skipn_app.
  rewrite skipn_all2 by lia. cbn [app].
  do 2 f_equal. lia.
Qed.

Lemma slice_here (m b : list Z) (off n : Z) :
  off = 0 -> len m = n -> slice (m ++ b) off n = m.
Proof.
  intros -> <-. unfold slice, len. cbn [Z.to_nat skipn].
  rewrite Nat2Z.id, firstn_app, firstn_all, Nat.sub_diag.
  cbn [firstn]. apply app_nil_r.
Qed.

Lemma slice_all (m : list Z) (off n : Z) :
  off = 0 -> len m = n -> slice m off n = m.
Proof.
  intros H1 H2. rewrite <- (app_nil_r m) at 1. now apply slice_here.
Qed.

Lemma len_acid_table (sac kc : list Z) : len (acid_table sac kc) = 24.
Proof. unfold acid_table. len_norm. reflexivity. Qed.

Lemma len_acid_fac (perm : Z) : len (acid_fac perm) = 0x2c.
Proof. unfold acid_fac. len_norm. reflexivity. Qed.

Lemma len_acid_image (flags pmin pmax perm : Z) (sac kc : list Z) :
  len (acid_image flags pmin pmax perm sac kc) = acid_kc_offset sac + len kc.
Proof.
  unfold acid_image, acid_layout, acid_kc_offset. len_norm.
  rewrite len_ACID, len_acid_table, len_acid_fac.
  pose proof (padding_range 0x10 (0x270 + len sac) ltac:(lia)). lia.
Qed.

Ltac region_lens :=
  len_norm; rewrite ?len_ACID, ?len_ACI0, ?len_acid_table, ?len_acid_fac.

(** Walks to the stretch at the offset of the slice and reads it off. *)
Ltac slice_at :=
  repeat (rewrite slice_skip by (region_lens; lia));
  first [ apply slice_here; [region_lens; lia | region_lens; lia]
        | apply slice_all; [region_lens; lia | region_lens; lia] ].

(** X19.  In every ACID region that [write_acid] returns, the first 0x200
    bytes are zero, the magic is at 0x200, the field at 0x204 is the length
    of the region less 0x100, and the table at 0x220 records the block at
    0x240 of 0x2c bytes, the service table at 0x270 and the kernel
    capability table at the next multiple of 0x10 behind it, each with its
    length; the bytes at the recorded offsets are the two tables as handed
    in, and the region ends with the second. *)
Theorem acid_cross_references :
  forall (contents : json) (sac kc w : BinaryWriter),
    write_acid contents sac kc = Ok w ->
    let img := stream w in
    let kc_offset := acid_kc_offset (stream sac) in
    slice img 0 0x200 = zeros 0x200
    /\ slice img 0x200 4 = ascii_codes "ACID"
    /\ slice img 0x204 4 = le_bytes 4 (len img - 0x100)
    /\ slice img 0x220 24
       = le_bytes 4 0x240 ++ le_bytes 4 0x2c
         ++ le_bytes 4 0x270 ++ le_bytes 4 (len (stream sac))
         ++ le_bytes 4 kc_offset ++ le_bytes 4 (len (stream kc))
    /\ slice img 0x270 (len (stream sac)) = stream sac
    /\ slice img kc_offset (len (stream kc)) = stream kc
    /\ kc_offset mod 0x10 = 0
    /\ 0x270 + len (stream sac) <= kc_offset < 0x270 + len (stream sac) + 0x10
    /\ len img = kc_offset + len (stream kc).
Proof.
  intros contents sac kc w H.
  destruct (write_acid_layout contents sac kc w H)
    as (flags & pmin & pmax & perm & E).
  cbv zeta. rewrite E. clear E H.
  pose proof (padding_range 0x10 (0x270 + len (stream sac)) ltac:(lia)) as Hpad.
  pose proof (len_nonneg (stream sac)) as Hsac0.
  pose proof (len_nonneg (stream kc)) as Hkc0.
  rewrite len_acid_image.
  split; [|split; [|split; [|split; [|split; [|split; [|split; [|split]]]]]]].
  - unfold acid_image, acid_layout. rewrite app_assoc.
    change (zeros 0x100 ++ zeros 0x100) with (zeros 0x200). slice_at.
  - unfold acid_image, acid_layout. slice_at.
  - unfold acid_image, acid_layout. slice_at.
  - unfold acid_image, acid_layout. fold (acid_table (stream sac) (stream kc)).
    slice_at.
  - unfold acid_image, acid_layout. slice_at.
  - unfold acid_image, acid_layout, acid_kc_offset. slice_at.
  - unfold acid_kc_offset. apply padding_aligned. lia.
  - unfold acid_kc_offset. lia.
  - reflexivity.
Qed.

Lemma acid_cross_references_witness :
  let img := stream acid_example in
  let kc_offset := acid_kc_offset (stream accessible_hid) in
  slice img 0 0x200 = zeros 0x200
  /\ slice img 0x200 4 = ascii_codes "ACID"
  /\ slice img 0x204 4 = le_bytes 4 (len img - 0x100)
  /\ slice img 0x220 24
     = le_bytes 4 0x240 ++ le_bytes 4 0x2c
       ++ le_bytes 4 0x270 ++ le_bytes 4 (len (stream accessible_hid))
       ++ le_bytes 4 kc_offset ++ le_bytes 4 (len (stream one_cap_table))
  /\ slice img 0x270 (len (stream accessible_hid)) = stream accessible_hid
  /\ slice img kc_offset (len (stream one_cap_table)) = stream one_cap_table
  /\ kc_offset mod 0x10 = 0
  /\ 0x270 + len (stream accessible_hid) <= kc_offset
     < 0x270 + len (stream accessible_hid) + 0x10
  /\ len img = kc_offset + len (stream one_cap_table).
Proof.
  apply (acid_cross_references one_cap_config accessible_hid one_cap_table
           acid_example).
  reflexivity.
Defined.

(** ** The ACI0 region from the configuration *)

Lemma count_prefix_at_end (s : list Z) (n : Z) :
  0 <= n < 2 ^ 32 ->
  (if n =? 0 then Ok (at_end s) else write_u32 (at_end s) n)
  = Ok (at_end (s ++ count_prefix n)).
Proof.
  intros H. unfold count_prefix. destruct (n =? 0).
  - now rewrite app_nil_r.
  - now apply write_u32_at_end.
Qed.

Lemma for_each_coi_at_end (coi : list json) (vals : list Z) :
  Forall2 owner_id coi vals ->
  forall s, for_each aci_coi_entry (at_end s) coi
            = Ok (at_end (s ++ flat_map (le_bytes 8) vals)).
Proof.
  induction 1 as [|c v coi vals [Hc Hv] _ IH]; intros s.
  - cbn. now rewrite app_nil_r.
  - cbn [for_each flat_map]. unfold aci_coi_entry at 1. rewrite Hc.
    cbn [rbind].
    replace ((0 <=? v) && (v <=? Z.shiftl 1 64 - 1)) with true.
    2:{ symmetry. apply andb_true_intro.
        change (Z.shiftl 1 64 - 1) with (2 ^ 64 - 1).
        split; apply Z.leb_le; lia. }
    cbn [abort_unless rbind]. rewrite write_u64_at_end by exact Hv.
    cbn [rbind]. rewrite IH. now rewrite <- app_assoc.
Qed.

Lemma for_each_sdoi_entries (sdoi : list json) (owners : list (Z * Z)) :
  Forall2 save_data_owner sdoi owners ->
  forall accs ids,
    for_each aci_sdoi_entry (accs, ids) sdoi
    = Ok (accs ++ map fst owners, ids ++ map snd owners).
Proof.
  induction 1 as [|d o sdoi owners (Hd & Ha & Hi) _ IH]; intros accs ids.
  - cbn. now rewrite !app_nil_r.
  - cbn [for_each map]. unfold aci_sdoi_entry at 1.
    destruct d; try discriminate. rewrite Ha. cbn [rbind]. rewrite Hi.
    cbn [rbind]. rewrite IH. now rewrite <- !app_assoc.
Qed.

Lemma for_each_write_u8_at_end (l : list Z) :
  Forall (fun v => 0 <= v < 256) l ->
  forall s, for_each write_u8 (at_end s) l = Ok (at_end (s ++ l)).
Proof.
  induction 1 as [|v l Hv _ IH]; intros s.
  - cbn. now rewrite app_nil_r.
  - cbn [for_each]. rewrite write_u8_at_end by exact Hv. cbn [rbind].
    rewrite IH. now rewrite <- app_assoc.
Qed.

Lemma for_each_write_u64_at_end (l : list Z) :
  Forall (fun v => 0 <= v < 2 ^ 64) l ->
  forall s, for_each write_u64 (at_end s) l
            = Ok (at_end (s ++ flat_map (le_bytes 8) l)).
Proof.
  induction 1 as [|v l Hv _ IH]; intros s.
  - cbn. now rewrite app_nil_r.
  - cbn [for_each flat_map]. rewrite write_u64_at_end by exact Hv.
    cbn [rbind]. rewrite IH. now rewrite <- app_assoc.
Qed.

Lemma save_data_owner_ranges (sdoi : list json) (owners : list (Z * Z)) :
  Forall2 save_data_owner sdoi owners ->
  Forall (fun v => 0 <= v < 256) (map fst owners)
  /\ Forall (fun v => 0 <= v < 2 ^ 64) (map snd owners).
Proof.
  induction 1 as [|d o sdoi owners (Hd & Ha & Hi) _ [IH1 IH2]]; cbn [map].
  - split; constructor.
  - apply json_read_int_range in Ha. apply json_read_u64_range in Hi.
    split; constructor; auto; lia.
Qed.

Lemma padding_4_shift (a n : Z) :
  a mod 4 = 0 -> padding 4 (a + n) = padding 4 n.
Proof.
  intros H. unfold padding. Z.div_mod_to_equations. lia.
Qed.

Lemma len_count_prefix (n : Z) :
  len (count_prefix n) = 0 \/ len (count_prefix n) = 4.
Proof. unfold count_prefix. destruct (n =? 0); [now left | now right]. Qed.

Lemma len_flat_le_bytes_8 (l : list Z) :
  len (flat_map (le_bytes 8) l) = 8 * len l.
Proof.
  induction l as [|v l IH]; [reflexivity|].
  cbn [flat_map]. rewrite len_app, len_le_bytes, len_cons, IH. lia.
Qed.

Lemma len_map {A B : Type} (f : A -> B) (l : list A) : len (map f l) = len l.
Proof. unfold len. now rewrite length_map. Qed.

Lemma len_coi_table (vals : list Z) :
  len (coi_table vals) mod 4 = 0
  /\ len vals <= len (coi_table vals).
Proof.
  unfold coi_table. rewrite len_app, len_flat_le_bytes_8.
  pose proof (len_nonneg vals).
  destruct (len_count_prefix (len vals)) as [-> | ->]; split;
    try lia; Z.div_mod_to_equations; lia.
Qed.

Lemma len_sdoi_table (owners : list (Z * Z)) :
  len owners <= len (sdoi_table owners).
Proof.
  unfold sdoi_table. len_norm. rewrite len_map, len_flat_le_bytes_8.
  pose proof (len_nonneg (count_prefix (len owners))).
  pose proof (len_nonneg (map snd owners)). lia.
Qed.

(** X20.  When the values of the ACI0 region read, every content owner
    id is a 64-bit number, every save data owner is a dict with an
    accessibility in 1..3 and a 64-bit id, and the region stays below
    4 GiB, [write_aci] returns the region of [aci_image]: the magic, the
    program id at 0x10, the table of offsets at 0x20, the filesystem access
    header at 0x40 with the permissions, the content owner id table at 0x5c,
    right behind it the save data owner id table (count, one accessibility
    byte an entry, zeros up to a multiple of 4, the ids), then the two
    tables it was handed, each at a multiple of 0x10; both owner tables are
    empty, without a count, for an empty list.  The cursor is left at
    0x38. *)
Theorem write_aci_image :
  forall (contents : json) (sac kc : BinaryWriter)
         (fs : list (string * json)) (coi sdoi : list json)
         (perm pid : Z) (vals : list Z) (owners : list (Z * Z)),
    json_read_dict contents ["filesystem_access"%string] None = Ok fs ->
    json_read_list (JDict fs) ["content_owner_ids"%string] (Some (JList []))
    = Ok coi ->
    json_read_list (JDict fs) ["save_data_owner_ids"%string]
      (Some (JList [])) = Ok sdoi ->
    json_read_u64 (JDict fs) ["permissions"%string] None = Ok perm ->
    json_read_u64 contents ["program_id"; "title_id"]%string None = Ok pid ->
    Forall2 owner_id coi vals ->
    Forall2 save_data_owner sdoi owners ->
    aci_kc_offset (coi_table vals) (sdoi_table owners) (stream sac)
    + len (stream kc) < 2 ^ 32 ->
    write_aci contents sac kc
    = Ok (mkWriter (aci_image pid perm (coi_table vals) (sdoi_table owners)
                      (stream sac) (stream kc)) 0x38).
Proof.
  intros contents sac kc fs coi sdoi perm pid vals owners
    Hfs Hcoi Hsdoi Hperm Hpid Hvals Hown Hsize.
  pose proof (json_read_u64_range _ _ _ _ Hperm) as Rperm.
  pose proof (json_read_u64_range _ _ _ _ Hpid) as Rpid.
  destruct (save_data_owner_ranges _ _ Hown) as [Raccs Rids].
  set (cb := coi_table vals) in *.
  set (sd := sdoi_table owners) in *.
  pose proof (len_nonneg cb) as Hcb0.
  pose proof (len_nonneg sd) as Hsd0.
  pose proof (len_nonneg (stream sac)) as Hsac0.
  pose proof (len_nonneg (stream kc)) as Hkc0.
  pose proof (len_nonneg vals) as Hvals0.
  pose proof (len_nonneg owners) as Hown0.
  destruct (len_coi_table vals) as [Hcb4 Hcbn]. fold cb in Hcb4, Hcbn.
  pose proof (len_sdoi_table owners) as Hsdn. fold sd in Hsdn.
  pose proof (padding_range 16 (92 + len cb + len sd) ltac:(lia)) as Hpad1.
  pose proof (padding_range 16 (aci_sac_offset cb sd + len (stream sac))
                ltac:(lia)) as Hpad2.
  assert (Hsaco : 0x5c + len cb + len sd <= aci_sac_offset cb sd)
    by (unfold aci_sac_offset; lia).
  assert (Hkco : aci_sac_offset cb sd + len (stream sac)
                 <= aci_kc_offset cb sd (stream sac))
    by (unfold aci_kc_offset; lia).
  change (2 ^ 32) with 4294967296 in Hsize.
  assert (R32 : forall v, 0 <= v < 4294967296 -> 0 <= v < 2 ^ 32)
    by (change (2 ^ 32) with 4294967296; auto).
  unfold write_aci. cbv zeta. rewrite new_writer_at_end.
  rewrite Hfs. step. rewrite Hcoi. step. rewrite Hsdoi. step.
  rewrite Hperm. step.
  rewrite write_string_at_end by reflexivity. step.
  rewrite !seek_rel_at_end by lia.
  rewrite Hpid. step. rewrite write_u64_at_end by exact Rpid. step.
  rewrite !seek_rel_at_end by lia.
  match goal with
  | |- context [write_u32 (at_end ?s) 1] => remember s as hdr eqn:Hhdr
  end.
  assert (Lhdr : len hdr = 0x40).
  { subst hdr. len_norm. rewrite len_ACI0. reflexivity. }
  rewrite !position_at_end, Lhdr.
  rewrite write_u32_at_end by (apply R32; lia). step.
  rewrite write_u64_at_end by exact Rperm. step.
  rewrite !seek_rel_at_end by lia.
  match goal with
  | |- context [write_u32 (at_end ?s) (len coi)] => remember s as fah eqn:Hfah
  end.
  assert (Lfah : len fah = 0x5c).
  { subst fah. len_norm. lia. }
  rewrite !position_at_end, Lfah.
  rewrite (Forall2_len _ _ _ Hvals), (Forall2_len _ _ _ Hown).
  rewrite count_prefix_at_end by (apply R32; lia). step.
  rewrite (for_each_coi_at_end _ _ Hvals). step.
  rewrite <- app_assoc. fold (coi_table vals). fold cb.
  rewrite count_prefix_at_end by (apply R32; lia). step.
  rewrite (for_each_sdoi_entries _ _ Hown). step. cbn [app].
  rewrite for_each_write_u8_at_end by exact Raccs. step.
  rewrite align_at_end by lia. step.
  rewrite for_each_write_u64_at_end by exact Rids. step.
  assert (Epad : padding 4 (len (((fah ++ cb) ++ count_prefix (len owners))
                                 ++ map fst owners))
                 = padding 4 (len owners)).
  { rewrite !len_app, Lfah, len_map.
    replace (92 + len cb + len (count_prefix (len owners)) + len owners)
      with (92 + len cb + len (count_prefix (len owners)) + len owners)
      by reflexivity.
    apply padding_4_shift.
    destruct (len_count_prefix (len owners)) as [-> | ->];
      Z.div_mod_to_equations; lia. }
  rewrite Epad.
  assert (Esd : ((((fah ++ cb) ++ count_prefix (len owners))
                  ++ map fst owners) ++ zeros (padding 4 (len owners)))
                ++ flat_map (le_bytes 8) (map snd owners)
                = (fah ++ cb) ++ sd).
  { unfold sd, sdoi_table. now rewrite <- !app_assoc. }
  rewrite Esd.
  assert (Lpre : len ((fah ++ cb) ++ sd) = 0x5c + len cb + len sd).
  { len_norm. lia. }
  rewrite !position_at_end, ?Lpre.
  replace (len (fah ++ cb)) with (0x5c + len cb) by (len_norm; lia).
  rewrite seek_at_end_inside by lia.
  assert (Epre : (fah ++ cb) ++ sd
                 = (ascii_codes "ACI0" ++ zeros 0xc ++ le_bytes 8 pid
                    ++ zeros 8 ++ zeros 24 ++ zeros 8
                    ++ le_bytes 4 1 ++ le_bytes 8 perm)
                   ++ zeros 16 ++ cb ++ sd).
  { subst fah hdr. change (zeros 32) with (zeros 24 ++ zeros 8).
    now rewrite <- !app_assoc. }
  remember ((fah ++ cb) ++ sd) as pre eqn:Hpre.
  rewrite write_u32_inside by (try apply R32; lia). step.
  rewrite write_u32_inside
    by (try apply R32; rewrite ?len_patch; len_norm; lia).
  step. rewrite patch_patch by (len_norm; lia).
  rewrite write_u32_inside
    by (try apply R32; rewrite ?len_patch; len_norm; lia).
  step. rewrite patch_patch by (len_norm; lia).
  rewrite write_u32_inside
    by (try apply R32; rewrite ?len_patch; len_norm; lia).
  step. rewrite patch_patch by (len_norm; lia).
  match goal with
  | |- context [patch pre _ ?raw] =>
      replace raw with (aci_fah_fields cb sd)
        by (unfold aci_fah_fields; rewrite <- !app_assoc; fields_eq)
  end.
  rewrite (patch_mid pre _ _ _ (aci_fah_fields cb sd) _ Epre) by reflexivity.
  match goal with
  | |- context [seek (mkWriter ?s _) _ false] => remember s as fahs eqn:Hfahs
  end.
  assert (Lfahs : len fahs = 0x5c + len cb + len sd).
  { subst fahs. rewrite <- Lpre, Epre. unfold aci_fah_fields. len_norm. lia. }
  rewrite seek_to_end by lia.
  rewrite align_at_end by lia. step. rewrite Lfahs.
  unfold write_sub, write_bytes. rewrite write_at_end. step.
  rewrite align_at_end by lia. step.
  rewrite write_at_end. step.
  assert (Lsaco : len (fahs ++ zeros (padding 16 (92 + len cb + len sd)))
                  = aci_sac_offset cb sd).
  { unfold aci_sac_offset. len_norm. lia. }
  assert (Lsace : len ((fahs ++ zeros (padding 16 (92 + len cb + len sd)))
                       ++ stream sac)
                  = aci_sac_offset cb sd + len (stream sac)).
  { rewrite len_app, Lsaco. reflexivity. }
  rewrite !position_at_end, ?Lsace, ?Lsaco.
  match goal with
  | |- context [seek (at_end ?s) 32 false] => remember s as body eqn:Hbody
  end.
  assert (Lbody : len body = aci_kc_offset cb sd (stream sac)
                             + len (stream kc)).
  { subst body. unfold aci_kc_offset. rewrite len_app, len_app, Lsace.
    len_norm. lia. }
  assert (Lkco : len (((fahs ++ zeros (padding 16 (92 + len cb + len sd)))
                       ++ stream sac)
                      ++ zeros (padding 16 (aci_sac_offset cb sd
                                            + len (stream sac))))
                 = aci_kc_offset cb sd (stream sac)).
  { unfold aci_kc_offset. rewrite len_app, Lsace. len_norm. lia. }
  rewrite ?Lbody, ?Lkco.
  replace (92 + len cb + len sd - 64) with (0x1c + len cb + len sd) by lia.
  rewrite seek_at_end_inside by lia.
  rewrite write_u32_inside by (try apply R32; lia). step.
  rewrite write_u32_inside
    by (try apply R32; rewrite ?len_patch; len_norm; lia).
  step. rewrite patch_patch by (len_norm; lia).
  rewrite write_u32_inside
    by (try apply R32; rewrite ?len_patch; len_norm; lia).
  step. rewrite patch_patch by (len_norm; lia).
  rewrite write_u32_inside
    by (try apply R32; rewrite ?len_patch; len_norm; lia).
  step. rewrite patch_patch by (len_norm; lia).
  rewrite write_u32_inside
    by (try apply R32; rewrite ?len_patch; len_norm; lia).
  step. rewrite patch_patch by (len_norm; lia).
  rewrite write_u32_inside
    by (try apply R32; rewrite ?len_patch; len_norm; lia).
  step. rewrite patch_patch by (len_norm; lia).
  apply f_equal. apply (f_equal2 mkWriter); [|reflexivity].
  change (patch body 32 (aci_table cb sd (stream sac) (stream kc))
          = aci_image pid perm cb sd (stream sac) (stream kc)).
  rewrite (patch_mid body
             (ascii_codes "ACI0" ++ zeros 12 ++ le_bytes 8 pid ++ zeros 8)
             (zeros 24)
             (zeros 8 ++ le_bytes 4 1 ++ le_bytes 8 perm
              ++ aci_fah_fields cb sd ++ cb ++ sd
              ++ zeros (padding 0x10 (0x5c + len cb + len sd))
              ++ stream sac
              ++ zeros (padding 0x10 (aci_sac_offset cb sd
                                      + len (stream sac)))
              ++ stream kc)
             (aci_table cb sd (stream sac) (stream kc)) 32).
  - unfold aci_image, aci_layout. now rewrite <- !app_assoc.
  - subst body fahs. now rewrite <- !app_assoc.
  - len_norm. reflexivity.
  - reflexivity.
Qed.

Lemma write_aci_image_witness :
  write_aci owners_config accessible_hid one_cap_table
  = Ok (mkWriter (aci_image 0x0100000000001000 0xffffffffffffffff
                    (coi_table [7]) (sdoi_table [(3, 0x10); (1, 9)])
                    (stream accessible_hid) (stream one_cap_table)) 0x38).
Proof.
  apply (write_aci_image owners_config accessible_hid one_cap_table
           [("permissions", JStr "0xffffffffffffffff");
            ("content_owner_ids", JList [JInt 7]);
            ("save_data_owner_ids",
             JList [JDict [("accessibility", JInt 3); ("id", JStr "0x10")];
                    JDict [("accessibility", JInt 1); ("id", JInt 9)]])]%string
           [JInt 7]
           [JDict [("accessibility", JInt 3); ("id", JStr "0x10")];
            JDict [("accessibility", JInt 1); ("id", JInt 9)]]%string);
    try reflexivity.
  - repeat constructor; vm_compute; congruence.
  - repeat constructor.
Defined.

Lemma len_aci_table (coi sdoi sac kc : list Z) :
  len (aci_table coi sdoi sac kc) = 24.
Proof. unfold aci_table. len_norm. reflexivity. Qed.

Lemma len_aci_fah_fields (coi sdoi : list Z) :
  len (aci_fah_fields coi sdoi) = 16.
Proof. unfold aci_fah_fields. len_norm. reflexivity. Qed.

Ltac aci_lens :=
  len_norm; rewrite ?len_ACI0, ?len_aci_table, ?len_aci_fah_fields.

Ltac aci_slice_at :=
  repeat (rewrite slice_skip by (aci_lens; lia));
  first [ apply slice_here; [aci_lens; lia | aci_lens; lia]
        | apply slice_all; [aci_lens; lia | aci_lens; lia] ].

(** X21.  In every ACI0 region that [write_aci] returns the magic is at 0,
    the filesystem access header starts at 0x40 with version 1, and the
    table at 0x20 records that header with its size, the service table at
    the next multiple of 0x10 behind the header and the kernel capability
    table at the next multiple of 0x10 behind the service table, each with
    its length; the bytes at the recorded offsets are the two tables as
    handed in, and the region ends with the second. *)
Theorem aci_cross_references :
  forall (contents : json) (sac kc w : BinaryWriter),
    write_aci contents sac kc = Ok w ->
    exists fah_size,
      let img := stream w in
      let sac_offset := 0x40 + fah_size + padding 0x10 (0x40 + fah_size) in
      let kc_offset :=
        sac_offset + len (stream sac)
        + padding 0x10 (sac_offset + len (stream sac)) in
      0x1c <= fah_size
      /\ slice img 0 4 = ascii_codes "ACI0"
      /\ slice img 0x20 24
         = le_bytes 4 0x40 ++ le_bytes 4 fah_size
           ++ le_bytes 4 sac_offset ++ le_bytes 4 (len (stream sac))
           ++ le_bytes 4 kc_offset ++ le_bytes 4 (len (stream kc))
      /\ slice img 0x40 4 = le_bytes 4 1
      /\ slice img sac_offset (len (stream sac)) = stream sac
      /\ slice img kc_offset (len (stream kc)) = stream kc
      /\ sac_offset mod 0x10 = 0
      /\ kc_offset mod 0x10 = 0
      /\ len img = kc_offset + len (stream kc).
Proof.
  intros contents sac kc w H.
  destruct (write_aci_layout contents sac kc w H)
    as (fs & coi & vals & pid & perm & sd & _ & _ & _ & E).
  set (cb := coi_table vals) in *.
  exists (0x1c + len cb + len sd). cbv zeta. rewrite E. clear E H.
  pose proof (len_nonneg cb) as Hcb0.
  pose proof (len_nonneg sd) as Hsd0.
  pose proof (len_nonneg (stream sac)) as Hsac0.
  pose proof (len_nonneg (stream kc)) as Hkc0.
  replace (0x40 + (0x1c + len cb + len sd)) with (0x5c + len cb + len sd)
    by lia.
  fold (aci_sac_offset cb sd). fold (aci_kc_offset cb sd (stream sac)).
  pose proof (padding_range 16 (92 + len cb + len sd) ltac:(lia)) as Hpad1.
  pose proof (padding_range 16 (aci_sac_offset cb sd + len (stream sac))
                ltac:(lia)) as Hpad2.
  split; [lia|].
  split; [|split; [|split; [|split; [|split; [|split; [|split]]]]]].
  - unfold aci_image, aci_layout. aci_slice_at.
  - unfold aci_image, aci_layout.
    fold (aci_table cb sd (stream sac) (stream kc)). aci_slice_at.
  - unfold aci_image, aci_layout. aci_slice_at.
  - unfold aci_image, aci_layout, aci_sac_offset. aci_slice_at.
  - unfold aci_image, aci_layout, aci_kc_offset, aci_sac_offset in *.
    aci_slice_at.
  - unfold aci_sac_offset. apply padding_aligned. lia.
  - apply aci_kc_offset_aligned.
  - apply len_aci_image.
Qed.

Lemma aci_cross_references_witness :
  exists fah_size,
    let img := stream aci_example in
    let sac_offset := 0x40 + fah_size + padding 0x10 (0x40 + fah_size) in
    let kc_offset :=
      sac_offset + len (stream accessible_hid)
      + padding 0x10 (sac_offset + len (stream accessible_hid)) in
    0x1c <= fah_size
    /\ slice img 0 4 = ascii_codes "ACI0"
    /\ slice img 0x20 24
       = le_bytes 4 0x40 ++ le_bytes 4 fah_size
         ++ le_bytes 4 sac_offset ++ le_bytes 4 (len (stream accessible_hid))
         ++ le_bytes 4 kc_offset ++ le_bytes 4 (len (stream one_cap_table))
    /\ slice img 0x40 4 = le_bytes 4 1
    /\ slice img sac_offset (len (stream accessible_hid))
       = stream accessible_hid
    /\ slice img kc_offset (len (stream one_cap_table)) = stream one_cap_table
    /\ sac_offset mod 0x10 = 0
    /\ kc_offset mod 0x10 = 0
    /\ len img = kc_offset + len (stream one_cap_table).
Proof.
  apply (aci_cross_references owners_config accessible_hid one_cap_table
           aci_example).
  reflexivity.
Defined.

(** ** The outcome of a build *)

Lemma write_u32_out_of_range (w : BinaryWriter) (v : Z) :
  ~ 0 <= v < 2 ^ 32 -> write_u32 w v = Err (Raised StructError).
Proof.
  intros H. unfold write_u32, _write, pack.
  change (2 ^ (8 * Z.of_nat 4)) with (2 ^ 32).
  destruct (0 <=? v) eqn:E1; [|reflexivity].
  destruct (v <? 2 ^ 32) eqn:E2; [|reflexivity].
  apply Z.leb_le in E1. apply Z.ltb_lt in E2. lia.
Qed.

Lemma rbind_ext {A B : Type} (m : res A) (f g : A -> res B) :
  (forall a, m = Ok a -> f a = g a) -> rbind m f = rbind m g.
Proof. intros H. destruct m as [a|e]; [now apply H | reflexivity]. Qed.

Lemma rbind_ret {A B : Type} (a : A) (f : A -> res B) : rbind (Ok a) f = f a.
Proof. reflexivity. Qed.

(** X22.  [main] is its five parts in the order service table, kernel
    capability table, META header, ACID region, ACI0 region: the first of
    them to fail is the failure of the build, and nothing is saved.  When
    all five succeed the file is [main_image] of the three regions, unless
    the ACI0 offset or the ACI0 size does not fit 32 bits, which is an
    uncaught [struct.error]. *)
Theorem main_outcome :
  forall contents : json,
    main contents
    = (sac <- write_sac contents;;
       kc <- write_kc contents;;
       meta <- write_meta contents;;
       acid <- write_acid contents sac kc;;
       aci <- write_aci contents sac kc;;
       if (main_aci_offset (stream acid) <? 2 ^ 32)
          && (len (stream aci) <? 2 ^ 32)
       then Ok (main_image (stream meta) (stream acid) (stream aci))
       else Err (Raised StructError)).
Proof.
  intros contents. unfold main. cbv zeta.
  change (2 ^ 32) with 4294967296.
  assert (R32 : forall v, 0 <= v < 4294967296 -> 0 <= v < 2 ^ 32)
    by (change (2 ^ 32) with 4294967296; auto).
  assert (N32 : forall v, ~ 0 <= v < 4294967296 -> ~ 0 <= v < 2 ^ 32)
    by (change (2 ^ 32) with 4294967296; auto).
  apply rbind_ext; intros sac _. apply rbind_ext; intros kc _.
  apply rbind_ext; intros meta Hmeta.
  pose proof (write_meta_len contents meta Hmeta) as Lmeta.
  rewrite new_writer_at_end.
  unfold write_sub, write_bytes. rewrite write_at_end, rbind_ret.
  cbn [app].
  rewrite seek_at_end by lia. rewrite Z.sub_diag, zeros_0, app_nil_r.
  rewrite align_at_end, rbind_ret by lia.
  rewrite Lmeta. change (padding 16 128) with 0.
  rewrite zeros_0, app_nil_r, !position_at_end, Lmeta.
  apply rbind_ext; intros acid _.
  rewrite write_at_end, rbind_ret.
  rewrite align_at_end, rbind_ret by lia.
  rewrite len_app, Lmeta.
  apply rbind_ext; intros aci _.
  rewrite write_at_end, rbind_ret.
  pose proof (len_nonneg (stream acid)) as Ha0.
  pose proof (len_nonneg (stream aci)) as Hi0.
  pose proof (padding_range 16 (128 + len (stream acid)) ltac:(lia)) as Hpad.
  rewrite !position_at_end.
  replace (len ((stream meta ++ stream acid)
                ++ zeros (padding 16 (128 + len (stream acid)))))
    with (main_aci_offset (stream acid))
    by (unfold main_aci_offset; len_norm; lia).
  match goal with
  | |- context [seek (at_end ?s) 112 false] => remember s as body eqn:Hbody
  end.
  assert (Lbody : len body = main_aci_offset (stream acid) + len (stream aci)).
  { subst body. unfold main_aci_offset. len_norm. lia. }
  assert (Hoff : 0x80 + len (stream acid) <= main_aci_offset (stream acid))
    by (unfold main_aci_offset; lia).
  rewrite seek_at_end_inside by lia.
  destruct (main_aci_offset (stream acid) <? 4294967296) eqn:E1.
  2:{ apply Z.ltb_ge in E1. cbn [andb].
      rewrite write_u32_out_of_range by (apply N32; lia). reflexivity. }
  apply Z.ltb_lt in E1.
  rewrite write_u32_inside by (try apply R32; lia). step.
  destruct (len (stream aci) <? 4294967296) eqn:E2.
  2:{ apply Z.ltb_ge in E2. cbn [andb].
      rewrite write_u32_out_of_range by (apply N32; lia). reflexivity. }
  apply Z.ltb_lt in E2. cbn [andb].
  rewrite write_u32_inside
    by (try apply R32; rewrite ?len_patch; len_norm; lia).
  step. rewrite patch_patch by (len_norm; lia).
  rewrite write_u32_inside
    by (try apply R32; rewrite ?len_patch; len_norm; lia).
  step. rewrite patch_patch by (len_norm; lia).
  rewrite write_u32_inside
    by (try apply R32; rewrite ?len_patch; len_norm; lia).
  step. rewrite patch_patch by (len_norm; lia).
  apply f_equal. cbn [stream].
  rewrite <- !app_assoc. fold (main_fields (stream acid) (stream aci)).
  unfold main_image.
  apply (patch_mid body (firstn (Z.to_nat 0x70) (stream meta))
           (skipn (Z.to_nat 0x70) (stream meta))).
  - subst body.
    rewrite <- (firstn_skipn (Z.to_nat 0x70) (stream meta)) at 1.
    now rewrite <- !app_assoc.
  - apply len_firstn. lia.
  - rewrite len_skipn by lia. unfold main_fields. len_norm. lia.
Qed.

(** ** The two tables inside the file *)

Lemma slice_slice (s : list Z) (a n b m : Z) :
  0 <= a -> 0 <= b -> 0 <= m -> b + m <= n ->
  slice (slice s a n) b m = slice s (a + b) m.
Proof.
  intros Ha Hb Hm Hn. unfold slice.
  rewrite skipn_firstn_comm, firstn_firstn, skipn_skipn.
  replace (Nat.min (Z.to_nat m) (Z.to_nat n - Z.to_nat b)) with (Z.to_nat m)
    by lia.
  replace (Z.to_nat b + Z.to_nat a)%nat with (Z.to_nat (a + b)) by lia.
  reflexivity.
Qed.

Lemma acid_image_tables (flags pmin pmax perm : Z) (sac kc : list Z) :
  slice (acid_image flags pmin pmax perm sac kc) 0x270 (len sac) = sac
  /\ slice (acid_image flags pmin pmax perm sac kc) (acid_kc_offset sac)
       (len kc) = kc.
Proof.
  pose proof (padding_range 0x10 (0x270 + len sac) ltac:(lia)) as Hpad.
  pose proof (len_nonneg sac) as Hsac0.
  pose proof (len_nonneg kc) as Hkc0.
  split.
  - unfold acid_image, acid_layout. slice_at.
  - unfold acid_image, acid_layout, acid_kc_offset. slice_at.
Qed.

Lemma aci_image_tables (pid perm : Z) (coi sdoi sac kc : list Z) :
  slice (aci_image pid perm coi sdoi sac kc) (aci_sac_offset coi sdoi)
    (len sac) = sac
  /\ slice (aci_image pid perm coi sdoi sac kc) (aci_kc_offset coi sdoi sac)
       (len kc) = kc.
Proof.
  pose proof (len_nonneg coi) as Hcb0.
  pose proof (len_nonneg sdoi) as Hsd0.
  pose proof (len_nonneg sac) as Hsac0.
  pose proof (len_nonneg kc) as Hkc0.
  pose proof (padding_range 16 (92 + len coi + len sdoi) ltac:(lia)) as Hpad1.
  pose proof (padding_range 16 (aci_sac_offset coi sdoi + len sac)
                ltac:(lia)) as Hpad2.
  split.
  - unfold aci_image, aci_layout, aci_sac_offset. aci_slice_at.
  - unfold aci_image, aci_layout, aci_kc_offset, aci_sac_offset in *.
    aci_slice_at.
Qed.

Lemma main_image_regions (meta acid aci : list Z) :
  len meta = 0x80 ->
  slice (main_image meta acid aci) 0x80 (len acid) = acid
  /\ slice (main_image meta acid aci) (main_aci_offset acid) (len aci) = aci.
Proof.
  intros Lmeta.
  pose proof (len_nonneg acid) as Ha0.
  pose proof (len_nonneg aci) as Hi0.
  pose proof (padding_range 16 (128 + len acid) ltac:(lia)) as Hpad.
  assert (LM : len (firstn (Z.to_nat 0x70) meta) = 0x70)
    by (apply len_firstn; lia).
  assert (LF : len (main_fields acid aci) = 16)
    by (unfold main_fields; len_norm; reflexivity).
  unfold main_image, main_aci_offset. split.
  - rewrite slice_skip by lia. rewrite slice_skip by lia.
    apply slice_here; lia.
  - rewrite slice_skip by lia. rewrite slice_skip by lia.
    rewrite slice_skip by lia. rewrite slice_skip by (len_norm; lia).
    apply slice_all; [len_norm; lia | reflexivity].
Qed.

(** X23.  A file that [main] builds carries the service table and the
    kernel capability table twice, byte for byte as [write_sac] and
    [write_kc] returned them: in the ACID region, at 0x270 and at the offset
    its table records, and in the ACI0 region, at the two offsets its table
    records, each shifted by the start of the region in the file. *)
Theorem file_embeds_tables :
  forall (contents : json) (out : list Z),
    main contents = Ok out ->
    exists sac kc fah_size,
      write_sac contents = Ok sac
      /\ write_kc contents = Ok kc
      /\ let acid_offset := 0x80 in
         let acid_kc := acid_kc_offset (stream sac) in
         let acid_size := acid_kc + len (stream kc) in
         let aci_offset :=
           acid_offset + acid_size
           + padding 0x10 (acid_offset + acid_size) in
         let aci_sac := 0x40 + fah_size + padding 0x10 (0x40 + fah_size) in
         let aci_kc :=
           aci_sac + len (stream sac)
           + padding 0x10 (aci_sac + len (stream sac)) in
         slice out (acid_offset + 0x270) (len (stream sac)) = stream sac
         /\ slice out (acid_offset + acid_kc) (len (stream kc)) = stream kc
         /\ slice out (aci_offset + aci_sac) (len (stream sac)) = stream sac
         /\ slice out (aci_offset + aci_kc) (len (stream kc)) = stream kc
         /\ len out = aci_offset + aci_kc + len (stream kc).
Proof.
  intros contents out H.
  destruct (main_layout contents out H)
    as (sac & kc & meta & acid & aci & Hsac & Hkc & Hmeta & Hacid & Haci
        & -> & _).
  pose proof (write_meta_len contents meta Hmeta) as Lmeta.
  destruct (write_acid_layout contents sac kc acid Hacid)
    as (flags & pmin & pmax & perm & Eacid).
  destruct (write_aci_layout contents sac kc aci Haci)
    as (fs & coi & vals & pid & perm' & sd & _ & _ & _ & Eaci).
  set (cb := coi_table vals) in *.
  exists sac, kc, (0x1c + len cb + len sd).
  split; [exact Hsac|]. split; [exact Hkc|]. cbv zeta.
  replace (0x40 + (0x1c + len cb + len sd)) with (0x5c + len cb + len sd)
    by lia.
  fold (aci_sac_offset cb sd). fold (aci_kc_offset cb sd (stream sac)).
  destruct (main_image_regions (stream meta) (stream acid) (stream aci) Lmeta)
    as [Sacid Saci].
  assert (Lacid : len (stream acid)
                  = acid_kc_offset (stream sac) + len (stream kc))
    by (rewrite Eacid; apply len_acid_image).
  assert (Laci : len (stream aci)
                 = aci_kc_offset cb sd (stream sac) + len (stream kc))
    by (rewrite Eaci; apply len_aci_image).
  destruct (acid_image_tables flags pmin pmax perm (stream sac) (stream kc))
    as [T1 T2].
  destruct (aci_image_tables pid perm' cb sd (stream sac) (stream kc))
    as [T3 T4].
  rewrite <- Eacid in T1, T2. rewrite <- Eaci in T3, T4.
  pose proof (len_nonneg cb) as Hcb0.
  pose proof (len_nonneg sd) as Hsd0.
  pose proof (len_nonneg (stream sac)) as Hsac0.
  pose proof (len_nonneg (stream kc)) as Hkc0.
  pose proof (padding_range 16 (624 + len (stream sac)) ltac:(lia)) as Hp0.
  pose proof (padding_range 16 (92 + len cb + len sd) ltac:(lia)) as Hp1.
  pose proof (padding_range 16 (aci_sac_offset cb sd + len (stream sac))
                ltac:(lia)) as Hp2.
  pose proof (padding_range 16 (128 + len (stream acid)) ltac:(lia)) as Hp3.
  assert (Eoff : 0x80 + (acid_kc_offset (stream sac) + len (stream kc))
                 + padding 0x10
                     (0x80 + (acid_kc_offset (stream sac)
                              + len (stream kc)))
                 = main_aci_offset (stream acid)).
  { unfold main_aci_offset. rewrite Lacid. reflexivity. }
  rewrite Eoff.
  assert (Hsaco : 0x5c <= aci_sac_offset cb sd)
    by (unfold aci_sac_offset; lia).
  assert (Hkco : aci_sac_offset cb sd + len (stream sac)
                 <= aci_kc_offset cb sd (stream sac))
    by (unfold aci_kc_offset; lia).
  assert (Hakc : 0x270 + len (stream sac) <= acid_kc_offset (stream sac))
    by (unfold acid_kc_offset; lia).
  assert (Hmo : 0 <= main_aci_offset (stream acid))
    by (unfold main_aci_offset; pose proof (len_nonneg (stream acid)); lia).
  split; [|split; [|split; [|split]]].
  - rewrite <- T1 at 2. rewrite <- Sacid at 2.
    symmetry. apply slice_slice; lia.
  - rewrite <- T2 at 2. rewrite <- Sacid at 2.
    symmetry. apply slice_slice; lia.
  - rewrite <- T3 at 2. rewrite <- Saci at 2.
    symmetry. apply slice_slice; lia.
  - rewrite <- T4 at 2. rewrite <- Saci at 2.
    symmetry. apply slice_slice; lia.
  - rewrite len_main_image by exact Lmeta. rewrite Laci. lia.
Qed.

Lemma file_embeds_tables_witness :
  exists sac kc fah_size,
    write_sac one_cap_config = Ok sac
    /\ write_kc one_cap_config = Ok kc
    /\ let acid_offset := 0x80 in
       let acid_kc := acid_kc_offset (stream sac) in
       let acid_size := acid_kc + len (stream kc) in
       let aci_offset :=
         acid_offset + acid_size + padding 0x10 (acid_offset + acid_size) in
       let aci_sac := 0x40 + fah_size + padding 0x10 (0x40 + fah_size) in
       let aci_kc :=
         aci_sac + len (stream sac)
         + padding 0x10 (aci_sac + len (stream sac)) in
       slice one_cap_npdm (acid_offset + 0x270) (len (stream sac))
       = stream sac
       /\ slice one_cap_npdm (acid_offset + acid_kc) (len (stream kc))
          = stream kc
       /\ slice one_cap_npdm (aci_offset + aci_sac) (len (stream sac))
          = stream sac
       /\ slice one_cap_npdm (aci_offset + aci_kc) (len (stream kc))
          = stream kc
       /\ len one_cap_npdm = aci_offset + aci_kc + len (stream kc).
Proof.
  apply (file_embeds_tables one_cap_config one_cap_npdm).
  vm_compute. reflexivity.
Defined.

(** ** Owner entries that do not encode *)

Lemma for_each_coi_first_error (good : list json) (vals : list Z)
    (bad : json) (rest : list json) (e : failure) :
  Forall2 owner_id good vals -> owner_id_error bad = Some e ->
  forall s, for_each aci_coi_entry (at_end s) (good ++ bad :: rest) = Err e.
Proof.
  intros Hgood Hbad.
  induction Hgood as [|c v good vals [Hc Hv] _ IH]; intros s.
  - cbn [app for_each]. unfold aci_coi_entry, owner_id_error in *.
    destruct (int_of_json bad) as [v|e']; cbn [rbind].
    + destruct ((0 <=? v) && (v <=? Z.shiftl 1 64 - 1)); [discriminate|].
      now injection Hbad as <-.
    + now injection Hbad as <-.
  - cbn [app for_each]. unfold aci_coi_entry at 1. rewrite Hc. cbn [rbind].
    replace ((0 <=? v) && (v <=? Z.shiftl 1 64 - 1)) with true.
    2:{ symmetry. apply andb_true_intro.
        change (Z.shiftl 1 64 - 1) with (2 ^ 64 - 1).
        split; apply Z.leb_le; lia. }
    cbn [abort_unless rbind]. rewrite write_u64_at_end by exact Hv.
    cbn [rbind]. apply IH.
Qed.

Lemma for_each_sdoi_first_error (good : list json) (owners : list (Z * Z))
    (bad : json) (rest : list json) (e : failure) :
  Forall2 save_data_owner good owners -> save_data_owner_error bad = Some e ->
  forall accs ids,
    for_each aci_sdoi_entry (accs, ids) (good ++ bad :: rest) = Err e.
Proof.
  intros Hgood Hbad.
  induction Hgood as [|d o good owners (Hd & Ha & Hi) _ IH]; intros accs ids.
  - cbn [app for_each]. unfold aci_sdoi_entry, save_data_owner_error in *.
    destruct bad; try (now injection Hbad as <-).
    destruct (json_read_int _ _ _ _ _) as [a|e1]; cbn [rbind];
      [|now injection Hbad as <-].
    destruct (json_read_u64 _ _ _) as [i|e2]; cbn [rbind];
      [discriminate | now injection Hbad as <-].
  - cbn [app for_each]. unfold aci_sdoi_entry at 1.
    destruct d; try discriminate. rewrite Ha. cbn [rbind]. rewrite Hi.
    cbn [rbind]. apply IH.
Qed.

(** X24.  When the five values of the ACI0 region read and both owner
    lists are shorter than 2^32, [write_aci] stops at the first owner entry
    that does not encode, the content owners before the save data owners:
    the failure of the region is the one of that entry (a content owner that
    is no integer or hexadecimal string, or outside 64 bits; a save data
    owner that is no dict, or whose accessibility or id does not read). *)
Theorem write_aci_first_error :
  forall (contents : json) (sac kc : BinaryWriter)
         (fs : list (string * json)) (coi sdoi : list json) (perm pid : Z),
    json_read_dict contents ["filesystem_access"%string] None = Ok fs ->
    json_read_list (JDict fs) ["content_owner_ids"%string] (Some (JList []))
    = Ok coi ->
    json_read_list (JDict fs) ["save_data_owner_ids"%string]
      (Some (JList [])) = Ok sdoi ->
    json_read_u64 (JDict fs) ["permissions"%string] None = Ok perm ->
    json_read_u64 contents ["program_id"; "title_id"]%string None = Ok pid ->
    len coi < 2 ^ 32 -> len sdoi < 2 ^ 32 ->
    (forall good vals bad rest e,
        coi = good ++ bad :: rest ->
        Forall2 owner_id good vals ->
        owner_id_error bad = Some e ->
        write_aci contents sac kc = Err e)
    /\ (forall vals good owners bad rest e,
           Forall2 owner_id coi vals ->
           sdoi = good ++ bad :: rest ->
           Forall2 save_data_owner good owners ->
           save_data_owner_error bad = Some e ->
           write_aci contents sac kc = Err e).
Proof.
  intros contents sac kc fs coi sdoi perm pid
    Hfs Hcoi Hsdoi Hperm Hpid Lcoi Lsdoi.
  pose proof (json_read_u64_range _ _ _ _ Hperm) as Rperm.
  pose proof (json_read_u64_range _ _ _ _ Hpid) as Rpid.
  pose proof (len_nonneg coi) as Hcoi0.
  pose proof (len_nonneg sdoi) as Hsdoi0.
  assert (R1 : 0 <= 1 < 2 ^ 32) by (change (2 ^ 32) with 4294967296; lia).
  split.
  - intros good vals bad rest e Ecoi Hgood Hbad. subst coi.
    unfold write_aci. cbv zeta. rewrite new_writer_at_end.
    rewrite Hfs, rbind_ret, Hcoi, rbind_ret, Hsdoi, rbind_ret, Hperm,
      rbind_ret.
    rewrite write_string_at_end, rbind_ret by reflexivity.
    rewrite !seek_rel_at_end by lia.
    rewrite Hpid, rbind_ret. rewrite write_u64_at_end, rbind_ret by exact Rpid.
    rewrite !seek_rel_at_end by lia.
    rewrite write_u32_at_end, rbind_ret by exact R1.
    rewrite write_u64_at_end, rbind_ret by exact Rperm.
    rewrite !seek_rel_at_end by lia.
    rewrite count_prefix_at_end, rbind_ret by lia.
    rewrite (for_each_coi_first_error good vals bad rest e Hgood Hbad).
    reflexivity.
  - intros vals good owners bad rest e Hvals Esdoi Hgood Hbad. subst sdoi.
    unfold write_aci. cbv zeta. rewrite new_writer_at_end.
    rewrite Hfs, rbind_ret, Hcoi, rbind_ret, Hsdoi, rbind_ret, Hperm,
      rbind_ret.
    rewrite write_string_at_end, rbind_ret by reflexivity.
    rewrite !seek_rel_at_end by lia.
    rewrite Hpid, rbind_ret. rewrite write_u64_at_end, rbind_ret by exact Rpid.
    rewrite !seek_rel_at_end by lia.
    rewrite write_u32_at_end, rbind_ret by exact R1.
    rewrite write_u64_at_end, rbind_ret by exact Rperm.
    rewrite !seek_rel_at_end by lia.
    rewrite count_prefix_at_end, rbind_ret by lia.
    rewrite (for_each_coi_at_end _ _ Hvals), rbind_ret.
    rewrite count_prefix_at_end, rbind_ret by lia.
    rewrite (for_each_sdoi_first_error good owners bad rest e Hgood Hbad).
    reflexivity.
Qed.

Lemma write_aci_first_error_witness :
  write_aci (bad_owner_config (JStr "-1")) new_writer new_writer
  = Err (Abort coi_range_msg)
  /\ write_aci (bad_save_owner_config (JInt 3)) new_writer new_writer
     = Err (Abort "`save_data_owner_ids` entries must be dicts").
Proof.
  split.
  - apply (proj1 (write_aci_first_error (bad_owner_config (JStr "-1"))
                    new_writer new_writer
                    [("permissions", JStr "0xffffffffffffffff");
                     ("content_owner_ids", JList [JInt 7; JStr "-1"])]%string
                    [JInt 7; JStr "-1"] [] 0xffffffffffffffff
                    0x0100000000001000
                    eq_refl eq_refl eq_refl eq_refl eq_refl
                    eq_refl eq_refl)
             [JInt 7] [7] (JStr "-1") []).
    + reflexivity.
    + repeat constructor; vm_compute; congruence.
    + reflexivity.
  - apply (proj2 (write_aci_first_error (bad_save_owner_config (JInt 3))
                    new_writer new_writer
                    [("permissions", JStr "0xffffffffffffffff");
                     ("content_owner_ids", JList [JInt 7]);
                     ("save_data_owner_ids",
                      JList [JDict [("accessibility", JInt 3);
                                    ("id", JStr "0x10")];
                             JInt 3])]%string
                    [JInt 7]
                    [JDict [("accessibility", JInt 3); ("id", JStr "0x10")];
                     JInt 3]%string
                    0xffffffffffffffff 0x0100000000001000
                    eq_refl eq_refl eq_refl eq_refl eq_refl
                    eq_refl eq_refl)
             [7]
             [JDict [("accessibility", JInt 3); ("id", JStr "0x10")]]%string
             [(3, 0x10)] (JInt 3) []).
    + repeat constructor; vm_compute; congruence.
    + reflexivity.
    + repeat constructor.
    + reflexivity.
Defined.

(** ** The variables that outlive an entry *)

Lemma syscall_items_locals (value : list (string * json)) :
  forall groups st groups' st',
    for_each syscall_item (groups, st) value = Ok (groups', st') ->
    kc_locals_ok st -> kc_locals_ok st'.
Proof.
  induction value as [|item value IH]; intros groups st groups' st' H Hst.
  - apply Ok_inj in H. now injection H as _ <-.
  - cbn [for_each] in H. apply rbind_Ok in H as ([g1 st1] & Hitem & H).
    apply (IH _ _ _ _ H). clear H IH. unfold syscall_item in Hitem.
    apply rbind_Ok in Hitem as (val & Hval & Hitem).
    apply rbind_Ok in Hitem as (u & Hu & Hitem).
    apply rbind_Ok in Hitem as (g & _ & Hitem).
    apply Ok_inj in Hitem. injection Hitem as _ <-.
    apply abort_unless_Ok in Hu. apply andb_prop in Hu as [H1 H2].
    apply Z.leb_le in H1, H2. unfold kc_locals_ok. cbn [kc_data kc_val].
    split; [exact Hval | lia].
Qed.

Lemma with_writer_locals (st : kc_locals) (w : BinaryWriter) :
  kc_locals_ok st -> kc_locals_ok (with_writer st w).
Proof. intros H. exact H. Qed.

Lemma kc_entry_locals (st : kc_locals) (idx : Z) (cap : json)
    (st' : kc_locals) :
  kc_entry st idx cap = Ok st' -> kc_locals_ok st -> kc_locals_ok st'.
Proof.
  intros H Hst. unfold kc_entry in H.
  bind_step H ok1 Hok1. bind_step H ok2 Hok2. bind_step H ty Hty.
  repeat match type of H with
         | (if ?c then _ else _) = _ => destruct c
         end; try discriminate.
  - unfold kc_kernel_flags in H. bind_all H.
    apply Ok_inj in H. subst st'. now apply with_writer_locals.
  - unfold kc_syscalls in H. bind_step H mapping Hmapping.
    bind_step H acc Hacc. destruct acc as [groups st1].
    bind_step H w Hw. apply Ok_inj in H. subst st'.
    apply with_writer_locals. exact (syscall_items_locals _ _ _ _ _ Hacc Hst).
  - unfold kc_map in H. cbv zeta in H. bind_all H.
    apply Ok_inj in H. subst st'. now apply with_writer_locals.
  - unfold kc_map_region in H. bind_all H.
    apply Ok_inj in H. subst st'. now apply with_writer_locals.
  - unfold kc_irq_pair in H. bind_all H.
    apply Ok_inj in H. subst st'. now apply with_writer_locals.
  - unfold kc_application_type in H. bind_all H.
    apply Ok_inj in H. subst st'. now apply with_writer_locals.
  - unfold kc_min_kernel_version in H. bind_all H.
    apply Ok_inj in H. subst st'. now apply with_writer_locals.
  - unfold kc_handle_table_size in H. bind_all H.
    apply Ok_inj in H. subst st'. now apply with_writer_locals.
  - unfold kc_debug_flags in H. bind_all H.
    apply Ok_inj in H. subst st'. now apply with_writer_locals.
Qed.

Lemma kc_entries_locals (caps : list json) :
  forall idx st st',
    for_enumerate kc_entry idx st caps = Ok st' ->
    kc_locals_ok st -> kc_locals_ok st'.
Proof.
  induction caps as [|cap caps IH]; intros idx st st' H Hst.
  - apply Ok_inj in H. now subst st'.
  - cbn [for_enumerate] in H. apply rbind_Ok in H as (st1 & H1 & H).
    exact (IH _ _ _ H (kc_entry_locals _ _ _ _ H1 Hst)).
Qed.

Lemma irq_word_sum (a b : Z) :
  0 <= a <= 0x3ff -> 0 <= b <= 0x3ff ->
  irq_word a b = 2047 + a * 2 ^ 11 + b * 2 ^ 21.
Proof.
  intros Ha Hb. unfold irq_word. change (Z.shiftl 1 11 - 1) with 2047.
  rewrite (lor_shiftl_add 2047 a 11) by (pow_consts; lia).
  rewrite (lor_shiftl_add _ b 21) by (pow_consts; lia).
  reflexivity.
Qed.

Lemma irq_pair_item_stale (st : kc_locals) (data : json) (v cap i : Z)
    (slot : json) :
  kc_data st = Some data -> kc_val st = Some v ->
  int_of_json data = Ok v -> 0 <= v <= 0xbf ->
  irq_pair_item st cap i slot
  = Ok (Z.lor cap (Z.shiftl (slot_value v slot) (11 + i * 10))).
Proof.
  intros Hd Hv Hi Hr. unfold irq_pair_item. rewrite Hd, Hv.
  assert (E : (0 <=? v) && (v <=? Z.shiftl 1 10 - 1) = true).
  { apply andb_true_intro. change (Z.shiftl 1 10 - 1) with 1023.
    split; apply Z.leb_le; lia. }
  destruct slot; cbn [rbind slot_value]; try reflexivity;
    rewrite Hi; cbn [rbind]; rewrite E; reflexivity.
Qed.

(** X25.  After any entries that [write_kc] has encoded, the variables an
    [irq_pair] entry reads are either unassigned or the last item of the last
    [syscalls] entry, a number in 0..0xbf.  In the second case an [irq_pair]
    entry of two slots always encodes, as one word with a tag of eleven ones
    and two fields of ten bits from bit 11: a [null] slot gives 0x3ff and any
    other slot, whatever it holds, gives that last syscall number.  In the
    first case two [null] slots encode and any other slot is a
    [NameError]. *)
Theorem irq_pair_after_entries :
  forall (caps : list json) (st : kc_locals) (idx : Z) (cap : json)
         (slot0 slot1 : json),
    for_enumerate kc_entry 0 (mkLocals new_writer None None) caps = Ok st ->
    is_dict cap = true -> idx < 32 ->
    json_read_str cap ["type"%string] (-1) None = Ok "irq_pair"%string ->
    json_read_list cap ["value"%string] None = Ok [slot0; slot1] ->
    exists s,
      kc_writer st = at_end s
      /\ match kc_val st with
         | Some last =>
             0 <= last <= 0xbf
             /\ let word :=
                  irq_word (slot_value last slot0) (slot_value last slot1) in
                kc_entry st idx cap
                = Ok (with_writer st (at_end (s ++ le_bytes 4 word)))
                /\ bits word 0 11 = 2 ^ 11 - 1
                /\ bits word 11 10 = slot_value last slot0
                /\ bits word 21 10 = slot_value last slot1
                /\ bits word 31 1 = 0
         | None =>
             (slot0 = JNull -> slot1 = JNull ->
              kc_entry st idx cap
              = Ok (with_writer st
                      (at_end (s ++ le_bytes 4 (irq_word 0x3ff 0x3ff)))))
             /\ (slot0 <> JNull \/ slot1 <> JNull ->
                 kc_entry st idx cap = Err (Raised NameError))
         end.
Proof.
  intros caps st idx cap slot0 slot1 Hloop Hd Hidx Hty Hv.
  destruct (kc_entries_words _ _ _ _ Hloop [] eq_refl) as (ws & Hws).
  cbn [app] in Hws. exists (flat_map (le_bytes 4) ws). split; [exact Hws|].
  pose proof (kc_entries_locals _ _ _ _ Hloop I) as Hok.
  assert (Hentry : kc_entry st idx cap = kc_irq_pair st cap).
  { unfold kc_entry. fold (is_dict cap). rewrite Hd.
    apply Z.ltb_lt in Hidx. rewrite Hidx, Hty. reflexivity. }
  rewrite Hentry. unfold kc_locals_ok in Hok.
  destruct (kc_data st) as [data|] eqn:Edata;
    destruct (kc_val st) as [last|] eqn:Eval; try contradiction.
  - destruct Hok as [Hint Hr]. split; [exact Hr|]. cbv zeta.
    assert (R0 : 0 <= slot_value last slot0 <= 0x3ff)
      by (destruct slot0; cbn [slot_value]; lia).
    assert (R1 : 0 <= slot_value last slot1 <= 0x3ff)
      by (destruct slot1; cbn [slot_value]; lia).
    split.
    + unfold kc_irq_pair. rewrite Hv.
      cbn [rbind len List.length Z.of_nat Pos.of_succ_nat Pos.succ
             Z.eqb abort_unless for_enumerate].
      rewrite (irq_pair_item_stale st data last _ _ _ Edata Eval Hint Hr).
      cbn [rbind].
      rewrite (irq_pair_item_stale st data last _ _ _ Edata Eval Hint Hr).
      cbn [rbind]. rewrite Hws.
      change (11 + 0 * 10) with 11. change (11 + (0 + 1) * 10) with 21.
      fold (irq_word (slot_value last slot0) (slot_value last slot1)).
      rewrite write_u32_at_end; [reflexivity|].
      rewrite irq_word_sum by assumption. u32_range.
    + rewrite irq_word_sum by assumption. repeat split; read_field.
  - split.
    + intros -> ->. unfold kc_irq_pair. rewrite Hv.
      cbn [rbind len List.length Z.of_nat Pos.of_succ_nat Pos.succ
             Z.eqb abort_unless for_enumerate irq_pair_item].
      rewrite Hws.
      change (11 + 0 * 10) with 11. change (11 + (0 + 1) * 10) with 21.
      fold (irq_word 0x3ff 0x3ff).
      rewrite write_u32_at_end; [reflexivity|]. vm_compute. split; congruence.
    + intros Hslot. unfold kc_irq_pair. rewrite Hv.
      cbn [rbind len List.length Z.of_nat Pos.of_succ_nat Pos.succ
             Z.eqb abort_unless for_enumerate].
      unfold irq_pair_item. rewrite Edata.
      destruct slot0; try reflexivity.
      destruct slot1; try reflexivity.
      destruct Hslot as [H|H]; now elim H.
Qed.

Lemma irq_pair_after_entries_witness :
  exists s,
    kc_writer after_svc1 = at_end s
    /\ 0 <= 1 <= 0xbf
    /\ let word := irq_word (slot_value 1 (JInt 5)) (slot_value 1 JNull) in
       kc_entry after_svc1 1 (irq_pair_cap [JInt 5; JNull])
       = Ok (with_writer after_svc1 (at_end (s ++ le_bytes 4 word)))
       /\ bits word 0 11 = 2 ^ 11 - 1
       /\ bits word 11 10 = slot_value 1 (JInt 5)
       /\ bits word 21 10 = slot_value 1 JNull
       /\ bits word 31 1 = 0.
Proof.
  apply (irq_pair_after_entries [syscalls_cap [("svc1", JInt 1)]] after_svc1
           1 (irq_pair_cap [JInt 5; JNull]) (JInt 5) JNull);
    [reflexivity | reflexivity | lia | reflexivity | reflexivity].
Defined.

(** ** Entries are encoded one by one *)

Lemma syscall_items_frame (value : list (string * json)) :
  forall groups st groups' st',
    for_each syscall_item (groups, st) value = Ok (groups', st') ->
    forall stB, exists stB',
      for_each syscall_item (groups, stB) value = Ok (groups', stB')
      /\ kc_writer stB' = kc_writer stB.
Proof.
  induction value as [|item value IH]; intros groups st groups' st' H stB.
  - apply Ok_inj in H. injection H as <- _. now exists stB.
  - cbn [for_each] in H |- *. apply rbind_Ok in H as ([g1 st1] & Hitem & H).
    unfold syscall_item in Hitem |- *.
    apply rbind_Ok in Hitem as (val & Hval & Hitem).
    apply rbind_Ok in Hitem as (u & Hu & Hitem).
    apply rbind_Ok in Hitem as (g & Hg & Hitem).
    apply Ok_inj in Hitem. injection Hitem as <- _.
    rewrite Hval. cbn [rbind]. rewrite Hu. cbn [rbind]. rewrite Hg.
    cbn [rbind].
    destruct (IH _ _ _ _ H (mkLocals (kc_writer stB) (Some (snd item))
                              (Some val))) as (stB' & HB & Hw).
    exists stB'. split; [exact HB | exact Hw].
Qed.

Lemma syscall_groups_frame (groups : list Z) :
  forall idx s w,
    for_enumerate syscall_group idx (at_end s) groups = Ok w ->
    exists bytes,
      w = at_end (s ++ bytes)
      /\ forall sB, for_enumerate syscall_group idx (at_end sB) groups
                    = Ok (at_end (sB ++ bytes)).
Proof.
  induction groups as [|g groups IH]; intros idx s w H.
  - apply Ok_inj in H. subst w. exists []. split; [now rewrite app_nil_r|].
    intros sB. cbn. now rewrite app_nil_r.
  - cbn [for_enumerate] in H. apply rbind_Ok in H as (x & Hx & H).
    unfold syscall_group in Hx. destruct (g =? 0) eqn:E.
    + apply Ok_inj in Hx. subst x.
      destruct (IH _ _ _ H) as (bytes & -> & HB). exists bytes.
      split; [reflexivity|]. intros sB. cbn [for_enumerate].
      unfold syscall_group at 1. rewrite E. cbn [rbind]. apply HB.
    + apply write_u32_at_end_Ok in Hx as [-> R].
      destruct (IH _ _ _ H) as (bytes & -> & HB).
      eexists (_ ++ bytes). split; [now rewrite <- app_assoc|].
      intros sB. cbn [for_enumerate]. unfold syscall_group at 1. rewrite E.
      rewrite write_u32_at_end by exact R. cbn [rbind]. rewrite HB.
      now rewrite <- app_assoc.
Qed.

(** Replays in the goal the reads that succeeded in the hypotheses. *)
Ltac replay_reads :=
  repeat match goal with
         | Hx : ?m = Ok _ |- context [?m] => rewrite Hx; cbn [rbind]
         end.

(** An entry of one word: the word written at the end of [s] is written
    at the end of [sB] as well. *)
Ltac one_word_frame H Hs HsB :=
  bind_all H; apply Ok_inj in H; subst; replay_reads;
  match goal with
  | Hw : write_u32 (kc_writer _) ?word = Ok _ |- _ =>
      let R := fresh "R" in
      rewrite Hs in Hw; apply write_u32_at_end_Ok in Hw as [-> R];
      rewrite HsB; rewrite write_u32_at_end by exact R; cbn [rbind];
      eexists; exists (le_bytes 4 word);
      split; [reflexivity | split; reflexivity]
  end.

Lemma kc_entry_frame (st : kc_locals) (idx : Z) (cap : json)
    (st' : kc_locals) (s : list Z) (stB : kc_locals) (idxB : Z)
    (sB : list Z) :
  kc_entry st idx cap = Ok st' ->
  kc_writer st = at_end s -> kc_writer stB = at_end sB -> idxB < 32 ->
  not_irq_pair cap ->
  exists stB' bytes,
    kc_entry stB idxB cap = Ok stB'
    /\ kc_writer st' = at_end (s ++ bytes)
    /\ kc_writer stB' = at_end (sB ++ bytes).
Proof.
  intros H Hs HsB Hidx Hirq. unfold kc_entry in H |- *.
  bind_step H ok1 Hok1. bind_step H ok2 Hok2. bind_step H ty Hty.
  apply abort_unless_Ok in Hok1. rewrite Hok1. cbn [abort_unless rbind].
  apply Z.ltb_lt in Hidx. rewrite Hidx. cbn [abort_unless rbind].
  rewrite Hty. cbn [rbind]. clear Hok1 Hok2 Hidx.
  revert H.
  destruct (String.eqb ty "kernel_flags");
    [intros H; unfold kc_kernel_flags in H |- *; one_word_frame H Hs HsB|].
  destruct (String.eqb ty "syscalls").
  { intros H. unfold kc_syscalls in H |- *. bind_step H mapping Hmapping.
    bind_step H acc Hacc. destruct acc as [groups st1].
    bind_step H w Hw. apply Ok_inj in H. subst st'.
    rewrite Hmapping. cbn [rbind].
    destruct (syscall_items_frame _ _ _ _ _ Hacc stB) as (stB1 & HB & HwB).
    rewrite HB. cbn [rbind]. rewrite HwB, HsB.
    apply syscall_items_writer in Hacc. rewrite Hacc, Hs in Hw.
    destruct (syscall_groups_frame _ _ _ _ Hw) as (bytes & -> & Hgroups).
    rewrite Hgroups. cbn [rbind]. eexists. exists bytes.
    split; [reflexivity | split; reflexivity]. }
  destruct (String.eqb ty "map").
  { intros H. unfold kc_map in H |- *. cbv zeta in H |- *.
    bind_step H mapping Hmapping. bind_step H v1 Hv1. bind_step H b1 Hb1.
    bind_step H w1 Hw1. bind_step H v2 Hv2. bind_step H b2 Hb2.
    bind_step H w2 Hw2. apply Ok_inj in H. subst st'.
    rewrite Hs in Hw1. apply write_u32_at_end_Ok in Hw1 as [-> R1].
    apply write_u32_at_end_Ok in Hw2 as [-> R2].
    rewrite Hmapping. cbn [rbind]. rewrite Hv1. cbn [rbind].
    rewrite Hb1. cbn [rbind]. rewrite HsB.
    rewrite write_u32_at_end by exact R1. cbn [rbind].
    rewrite Hv2. cbn [rbind]. rewrite Hb2. cbn [rbind].
    rewrite write_u32_at_end by exact R2. cbn [rbind].
    eexists.
    match type of R1 with
    | _ <= ?word1 < _ =>
        match type of R2 with
        | _ <= ?word2 < _ => exists (le_bytes 4 word1 ++ le_bytes 4 word2)
        end
    end.
    cbn [with_writer kc_writer]. rewrite !app_assoc.
    split; [reflexivity | split; reflexivity]. }
  destruct (String.eqb ty "map_page").
  { intros H. unfold kc_map_page in H. cbv zeta in H.
    bind_step H v Hv. unfold json_read_int in Hv.
    apply rbind_Ok in Hv as (kv & Hkv & _). discriminate. }
  destruct (String.eqb ty "map_region");
    [intros H; unfold kc_map_region in H |- *; one_word_frame H Hs HsB|].
  destruct (String.eqb_spec ty "irq_pair") as [->|_];
    [now elim Hirq|].
  destruct (String.eqb ty "application_type");
    [intros H; unfold kc_application_type in H |- *;
     one_word_frame H Hs HsB|].
  destruct (String.eqb ty "min_kernel_version");
    [intros H; unfold kc_min_kernel_version in H |- *;
     one_word_frame H Hs HsB|].
  destruct (String.eqb ty "handle_table_size");
    [intros H; unfold kc_handle_table_size in H |- *;
     one_word_frame H Hs HsB|].
  destruct (String.eqb ty "debug_flags");
    [intros H; unfold kc_debug_flags in H |- *; one_word_frame H Hs HsB|].
  discriminate.
Qed.

Lemma kc_entries_frame (caps : list json) :
  forall idx st st' s idxB stB sB,
    for_enumerate kc_entry idx st caps = Ok st' ->
    kc_writer st = at_end s -> kc_writer stB = at_end sB ->
    idxB + len caps <= 32 -> Forall not_irq_pair caps ->
    exists stB' bytes,
      for_enumerate kc_entry idxB stB caps = Ok stB'
      /\ kc_writer st' = at_end (s ++ bytes)
      /\ kc_writer stB' = at_end (sB ++ bytes).
Proof.
  induction caps as [|cap caps IH];
    intros idx st st' s idxB stB sB H Hs HsB Hlen Hirq.
  - apply Ok_inj in H. subst st'. exists stB, [].
    rewrite !app_nil_r. now repeat split.
  - cbn [for_enumerate] in H |- *. apply rbind_Ok in H as (st1 & H1 & H).
    rewrite len_cons in Hlen. pose proof (len_nonneg caps) as Hcaps.
    inversion Hirq as [|? ? Hcap Hrest]; subst.
    destruct (kc_entry_frame _ _ _ _ _ stB idxB sB H1 Hs HsB ltac:(lia) Hcap)
      as (stB1 & bytes1 & HB1 & Hw1 & HwB1).
    rewrite HB1. cbn [rbind].
    destruct (IH _ _ _ _ (idxB + 1) stB1 _ H Hw1 HwB1 ltac:(lia) Hrest)
      as (stB' & bytes & HB & Hw & HwB).
    exists stB', (bytes1 ++ bytes). rewrite !app_assoc. now repeat split.
Qed.

(** X26.  Entries other than [irq_pair] are encoded one by one,
    whatever was written before them: when two lists of kernel capabilities
    encode on their own, the second holds no [irq_pair] entry and both
    together are at most 32 entries, the table of the two lists joined is the
    table of the first followed by the table of the second. *)
Theorem write_kc_concat :
  forall (c1 c2 c12 : json) (caps1 caps2 : list json) (t1 t2 : BinaryWriter),
    json_read_list c1 ["kernel_capabilities"%string] None = Ok caps1 ->
    json_read_list c2 ["kernel_capabilities"%string] None = Ok caps2 ->
    json_read_list c12 ["kernel_capabilities"%string] None
    = Ok (caps1 ++ caps2) ->
    write_kc c1 = Ok t1 -> write_kc c2 = Ok t2 ->
    len caps1 + len caps2 <= 32 ->
    Forall not_irq_pair caps2 ->
    write_kc c12 = Ok (at_end (stream t1 ++ stream t2)).
Proof.
  intros c1 c2 c12 caps1 caps2 t1 t2 Hc1 Hc2 Hc12 H1 H2 Hlen Hirq.
  unfold write_kc in *. rewrite Hc1 in H1. rewrite Hc2 in H2. rewrite Hc12.
  cbn [rbind] in *.
  bind_step H1 st1 Hst1. apply Ok_inj in H1. subst t1.
  bind_step H2 st2 Hst2. apply Ok_inj in H2. subst t2.
  rewrite for_enumerate_app, Hst1. cbn [rbind].
  destruct (kc_entries_words _ _ _ _ Hst1 [] eq_refl) as (ws1 & Hws1).
  cbn [app] in Hws1.
  destruct (kc_entries_frame caps2 0 (mkLocals new_writer None None) st2 []
              (0 + len caps1) st1 (flat_map (le_bytes 4) ws1)
              Hst2 eq_refl Hws1 ltac:(lia) Hirq)
    as (st12 & bytes & H12 & Hw2 & Hw12).
  rewrite H12. cbn [rbind]. rewrite Hw12, Hws1, Hw2. reflexivity.
Qed.

Lemma write_kc_concat_witness :
  write_kc (kernel_caps_only
              ([syscalls_cap [("svc1", JInt 1)]; handle_table_cap]
               ++ [kernel_flags_cap 63 24 0 3; map_cap 0x1234 0x10 true false]))
  = Ok (at_end (stream after_two ++ stream after_flags_map)).
Proof.
  apply (write_kc_concat
           (kernel_caps_only [syscalls_cap [("svc1", JInt 1)];
                              handle_table_cap])
           (kernel_caps_only [kernel_flags_cap 63 24 0 3;
                              map_cap 0x1234 0x10 true false])
           (kernel_caps_only
              ([syscalls_cap [("svc1", JInt 1)]; handle_table_cap]
               ++ [kernel_flags_cap 63 24 0 3;
                   map_cap 0x1234 0x10 true false]))
           [syscalls_cap [("svc1", JInt 1)]; handle_table_cap]
           [kernel_flags_cap 63 24 0 3; map_cap 0x1234 0x10 true false]
           after_two after_flags_map);
    try reflexivity.
  - vm_compute. discriminate.
  - repeat constructor; vm_compute; discriminate.
Defined.
